(** * sql-agent: plan-driven orchestration pipeline

    A shallow embedding of the Python sources
      - [sql_agent/planner.py]                      (module [Planner])
      - [sql_agent/sub_agents/schema_agent.py]      (module [SchemaAgent])
      - [sql_agent/sub_agents/query_agent.py]       (module [QueryAgent])
      - [sql_agent/sub_agents/discrepancy_agent.py] (module [DiscrepancyAgent])
      - [sql_agent/agent.py]                        (module [SQLAgent])
    together with the statements of the specification that concern them.

    Further parts of the sources, with properties of their own:
      - the catalog read by [SchemaAgent.__init__] and by
        [SQLAgent.get_schema_info]               (module [Catalog])
      - [sql_agent/memory.py], with its time stamps (module [Memory])
      - [sql_agent/utils/db_utils.py]               (module [DbUtils])
      - [sql_agent/bedrock_agent.py]                (module [BedrockAgent])
      - the sample rules of [sql_agent/run.py]      (module [Run])

    Conventions of the embedding.
      - Text is ASCII: a Python [str] is a Rocq [string], [str.lower] and the
        regular-expression classes [\w], [\b] are those of Python on code
        points below 128.
      - A Python [dict] whose order or contents are open is an association
        list in insertion order ([dict_get], [dict_set]); a dictionary used
        only as a lookup table is a [gmap].
      - Relevance scores are kept as exact rationals; the source computes
        them in binary64, where every score is 1.0, 0.9 or (m / n) * 0.8 for
        string lengths m <= n.
      - Collaborators (database cursor, language model, caller-supplied
        rule callbacks) are variables of the enclosing section; whatever
        they may raise is a value of type [exn]. *)

From Stdlib Require Import Ascii String List ZArith QArith Lia Bool.
From stdpp Require Import base tactics option list sorting strings gmap pretty.

Local Open Scope string_scope.
Local Open Scope list_scope.

(** ** Python strings *)

Module PyStr.

Definition is_upper (c : ascii) : bool :=
  let n := nat_of_ascii c in (65 <=? n)%nat && (n <=? 90)%nat.

Definition is_lower (c : ascii) : bool :=
  let n := nat_of_ascii c in (97 <=? n)%nat && (n <=? 122)%nat.

Definition is_digit (c : ascii) : bool :=
  let n := nat_of_ascii c in (48 <=? n)%nat && (n <=? 57)%nat.

(** [[a-zA-Z0-9_]], which is [\w] on ASCII text. *)
Definition is_word (c : ascii) : bool :=
  is_lower c || is_upper c || is_digit c || Ascii.eqb c "_"%char.

(** The quote class of the patterns: a single or a double quote. *)
Definition is_quote (c : ascii) : bool :=
  Ascii.eqb c "'"%char || Ascii.eqb c (ascii_of_nat 34).

Definition lower_char (c : ascii) : ascii :=
  if is_upper c then ascii_of_nat (nat_of_ascii c + 32) else c.

(** [s.lower()] *)
Fixpoint lower (s : string) : string :=
  match s with
  | EmptyString => EmptyString
  | String c s' => String (lower_char c) (lower s')
  end.

(** [s.startswith(p)] *)
Fixpoint startswith (p s : string) : bool :=
  match p, s with
  | EmptyString, _ => true
  | String a p', String b s' => Ascii.eqb a b && startswith p' s'
  | String _ _, EmptyString => false
  end.

(** [p in s] for strings: [p] occurs in [s] as a contiguous substring. *)
Fixpoint contains (p s : string) : bool :=
  startswith p s ||
  match s with
  | EmptyString => false
  | String _ s' => contains p s'
  end.

(** [s.endswith("s")] *)
Fixpoint endswith_s (s : string) : bool :=
  match s with
  | EmptyString => false
  | String c EmptyString => Ascii.eqb c "s"%char
  | String _ s' => endswith_s s'
  end.

(** [s[:-1]] *)
Fixpoint drop_last (s : string) : string :=
  match s with
  | EmptyString => EmptyString
  | String _ EmptyString => EmptyString
  | String c s' => String c (drop_last s')
  end.

(** [x in l] for a list (or a set) of strings. *)
Definition mem (x : string) (l : list string) : bool :=
  existsb (String.eqb x) l.

(** The first [n] characters of [s]. *)
Fixpoint take (n : nat) (s : string) : string :=
  match n, s with
  | S n', String c s' => String c (take n' s')
  | _, _ => EmptyString
  end.

End PyStr.

(** ** The regular expressions of the sources

    A backtracking matcher for the fragment of Python's [re] the sources
    use: literals, ordered alternation, greedy optional items, greedy
    repetition of a character class with a lower bound, capture groups and
    the word boundary. *)

Module Re.

Inductive regex : Type :=
| Lit (s : string)                       (* literal text *)
| Alt (r1 r2 : regex)                    (* r1|r2, left first *)
| Cat (r1 r2 : regex)                    (* r1 r2 *)
| Opt (p : ascii -> bool)                (* [class]? , greedy *)
| Rep (p : ascii -> bool) (n : nat)      (* [class]{n,}, greedy *)
| Grp (i : nat) (r : regex)              (* capture group number i *)
| Bnd.                                   (* \b *)

(** Captures: group number to captured text, most recent first. *)
Definition caps : Type := list (nat * string).

Fixpoint group (i : nat) (cs : caps) : option string :=
  match cs with
  | [] => None
  | (j, s) :: cs' => if Nat.eqb i j then Some s else group i cs'
  end.

(** A continuation receives the character before the current position,
    the text still to be read and the captures made so far. *)
Definition cont (R : Type) : Type := option ascii -> string -> caps -> option R.

Definition word_before (prev : option ascii) : bool :=
  match prev with Some c => PyStr.is_word c | None => false end.

Definition word_after (s : string) : bool :=
  match s with String c _ => PyStr.is_word c | EmptyString => false end.

Fixpoint lit {R} (l : string) (prev : option ascii) (s : string) (cs : caps)
    (k : cont R) : option R :=
  match l with
  | EmptyString => k prev s cs
  | String a l' =>
      match s with
      | String b s' => if Ascii.eqb a b then lit l' (Some b) s' cs k else None
      | EmptyString => None
      end
  end.

(** Greedy [[class]{n,}]: take one more character when possible, and
    stop here only when that fails and the lower bound is met. *)
Fixpoint rep {R} (p : ascii -> bool) (n : nat) (prev : option ascii) (s : string)
    (cs : caps) (k : cont R) : option R :=
  let stop := match n with O => k prev s cs | S _ => None end in
  match s with
  | String c s' =>
      if p c then
        match rep p (Nat.pred n) (Some c) s' cs k with
        | Some r => Some r
        | None => stop
        end
      else stop
  | EmptyString => stop
  end.

Fixpoint exec {R} (r : regex) (prev : option ascii) (s : string) (cs : caps)
    (k : cont R) : option R :=
  match r with
  | Lit l => lit l prev s cs k
  | Alt r1 r2 =>
      match exec r1 prev s cs k with
      | Some x => Some x
      | None => exec r2 prev s cs k
      end
  | Cat r1 r2 => exec r1 prev s cs (fun prev' s' cs' => exec r2 prev' s' cs' k)
  | Opt p =>
      match s with
      | String c s' =>
          if p c then
            match k (Some c) s' cs with
            | Some x => Some x
            | None => k prev s cs
            end
          else k prev s cs
      | EmptyString => k prev s cs
      end
  | Rep p n => rep p n prev s cs k
  | Grp i r' =>
      exec r' prev s cs (fun prev' s' cs' =>
        k prev' s' ((i, PyStr.take (String.length s - String.length s') s) :: cs'))
  | Bnd => if xorb (word_before prev) (word_after s) then k prev s cs else None
  end.

(** A match attempt at the current position: the captures (group 0 is
    the whole match) and the number of characters consumed. *)
Definition match_here (r : regex) (prev : option ascii) (s : string)
    : option (caps * nat) :=
  exec r prev s [] (fun _ s' cs =>
    let n := (String.length s - String.length s')%nat in
    Some ((0%nat, PyStr.take n s) :: cs, n)).

(** [re.search]: the leftmost position with a match. *)
Fixpoint search_from (r : regex) (prev : option ascii) (s : string) : option caps :=
  match match_here r prev s with
  | Some (cs, _) => Some cs
  | None =>
      match s with
      | String c s' => search_from r (Some c) s'
      | EmptyString => None
      end
  end.

Definition search (r : regex) (s : string) : option caps := search_from r None s.

(** [re.finditer]: successive non-overlapping matches, left to right.
    [skip] counts the characters of the previous match still to pass. The
    patterns of the sources match at least one character. *)
Fixpoint finditer_from (r : regex) (prev : option ascii) (s : string) (skip : nat)
    : list caps :=
  match skip with
  | S skip' =>
      match s with
      | String c s' => finditer_from r (Some c) s' skip'
      | EmptyString => []
      end
  | O =>
      match match_here r prev s with
      | Some (cs, n) =>
          cs :: match s with
                | String c s' => finditer_from r (Some c) s' (Nat.pred n)
                | EmptyString => []
                end
      | None =>
          match s with
          | String c s' => finditer_from r (Some c) s' 0
          | EmptyString => []
          end
      end
  end.

Definition finditer (r : regex) (s : string) : list caps := finditer_from r None s 0.

(** [re.findall] for a pattern without groups: the matched texts. *)
Definition findall (r : regex) (s : string) : list string :=
  omap (group 0) (finditer r s).

(** A lower bound on the number of characters a match consumes. *)
Fixpoint minlen (r : regex) : nat :=
  match r with
  | Lit l => String.length l
  | Alt r1 r2 => Nat.min (minlen r1) (minlen r2)
  | Cat r1 r2 => minlen r1 + minlen r2
  | Opt _ => 0
  | Rep _ n => n
  | Grp _ r' => minlen r'
  | Bnd => 0
  end.

(** Every group of the pattern consumes at least one character. *)
Fixpoint groups_consume (r : regex) : Prop :=
  match r with
  | Alt r1 r2 | Cat r1 r2 => groups_consume r1 /\ groups_consume r2
  | Grp _ r' => 1 <= minlen r' /\ groups_consume r'
  | _ => True
  end.

(** No capture is the empty string. *)
Definition caps_nonempty (cs : caps) : Prop :=
  forall i name, In (i, name) cs -> name <> "".

(** What a successful run hands to its continuation. *)
Definition passes_on {R} (r : regex) (s : string) (cs : caps) (k : cont R) (x : R) : Prop :=
  exists prev' s' cs',
    k prev' s' cs' = Some x /\
    (String.length s' + minlen r <= String.length s)%nat /\
    (groups_consume r -> caps_nonempty cs -> caps_nonempty cs').

End Re.

(** ** Python values, dictionaries and exceptions *)

(** Values of type [Any] that the sources store in dictionaries. *)
#[local] Unset Elimination Schemes.
Inductive pyval : Type :=
| PNone
| PBool (b : bool)
| PInt (n : Z)
| PStr (s : string)
| PList (l : list pyval)
| PDict (d : list (string * pyval)).
#[local] Set Elimination Schemes.

(** What the modelled code can raise. *)
Inductive exn : Type :=
| KeyError (key : string)
| TypeError (msg : string)
| Exception (msg : string).

(** The outcome of a call: a returned value or a raised exception. *)
Inductive outcome (A : Type) : Type :=
| Returned (a : A)
| Raised (e : exn).
Arguments Returned {A} a.
Arguments Raised {A} e.

#[global] Instance outcome_ret : MRet outcome := fun A a => Returned a.
#[global] Instance outcome_bind : MBind outcome := fun A B f m =>
  match m with
  | Returned a => f a
  | Raised e => Raised e
  end.

Module PyDict.

(** A [dict] with string keys, in insertion order. *)
Definition dict (V : Type) : Type := list (string * V).

(** [d.get(k)] *)
Fixpoint dict_get {V} (k : string) (d : dict V) : option V :=
  match d with
  | [] => None
  | (k', v) :: d' => if String.eqb k k' then Some v else dict_get k d'
  end.

(** [d[k] = v]: an existing key keeps its place, a new one goes last. *)
Fixpoint dict_set {V} (k : string) (v : V) (d : dict V) : dict V :=
  match d with
  | [] => [(k, v)]
  | (k', v') :: d' =>
      if String.eqb k k' then (k', v) :: d' else (k', v') :: dict_set k v d'
  end.

(** [k in d] *)
Definition dict_mem {V} (k : string) (d : dict V) : bool :=
  match dict_get k d with Some _ => true | None => false end.

(** [d.keys()] *)
Definition dict_keys {V} (d : dict V) : list string := map fst d.

(** [dict(zip(ks, vs))]: a repeated key keeps its first place and its
    last value. *)
Definition dict_zip {V} (ks : list string) (vs : list V) : dict V :=
  fold_left (fun acc kv => dict_set (fst kv) (snd kv) acc) (combine ks vs) [].

End PyDict.
Import PyDict.

(** ** planner.py *)

Module Planner.

Import Re.

(** [PlanStep]: a single step in the execution plan. *)
Record PlanStep : Type := mkPlanStep {
  agent : string;
  action : string;
  description : string;
  params : dict pyval
}.

(** [Plan]: a plan for executing a database query. *)
Record Plan : Type := mkPlan {
  query : string;
  steps : list PlanStep
}.

Definition step_to_dict (step : PlanStep) : pyval :=
  PDict [ ("agent", PStr (agent step));
          ("action", PStr (action step));
          ("description", PStr (description step));
          ("params", PDict (params step)) ].

(** [Plan.to_dict] *)
Definition to_dict (p : Plan) : pyval :=
  PDict [ ("query", PStr (query p));
          ("steps", PList (map step_to_dict (steps p))) ].

(** [data[key]]: subscripting a value by a string key. *)
Definition getitem (data : pyval) (key : string) : outcome pyval :=
  match data with
  | PDict d =>
      match dict_get key d with
      | Some v => Returned v
      | None => Raised (KeyError key)
      end
  | _ => Raised (TypeError "indices must be integers or the object is not subscriptable")
  end.

(** The fields of [PlanStep] and [Plan] are annotated [str] and
    [Dict[str, Any]]; Python does not check the annotations, the typed
    records do, so a value of another type is refused here. The module
    [Untyped] below has [Plan.from_dict] without these checks. *)
Definition as_str (v : pyval) : outcome string :=
  match v with
  | PStr s => Returned s
  | _ => Raised (TypeError "expected str")
  end.

Definition as_dict (v : pyval) : outcome (dict pyval) :=
  match v with
  | PDict d => Returned d
  | _ => Raised (TypeError "expected dict")
  end.

Definition step_from_dict (step_data : pyval) : outcome PlanStep :=
  a ← getitem step_data "agent" ≫= as_str;
  c ← getitem step_data "action" ≫= as_str;
  d ← getitem step_data "description" ≫= as_str;
  p ← getitem step_data "params" ≫= as_dict;
  mret (mkPlanStep a c d p).

(** The loop [for step_data in data["steps"]: ... plan.steps.append(step)]. *)
Fixpoint steps_from_list (l : list pyval) (acc : list PlanStep) : outcome (list PlanStep) :=
  match l with
  | [] => Returned acc
  | step_data :: l' =>
      step ← step_from_dict step_data;
      steps_from_list l' (acc ++ [step])
  end.

(** What [for step_data in v] goes through: the items of a list, the keys
    of a dictionary, the characters of a string. *)
Definition iter_items (v : pyval) : outcome (list pyval) :=
  match v with
  | PList l => Returned l
  | PDict d => Returned (map (fun kv => PStr (fst kv)) d)
  | PStr s => Returned (map (fun c => PStr (String c EmptyString)) (list_ascii_of_string s))
  | _ => Raised (TypeError "object is not iterable")
  end.

(** [Plan.from_dict] *)
Definition from_dict (data : pyval) : outcome Plan :=
  q ← getitem data "query" ≫= as_str;
  items ← getitem data "steps" ≫= iter_items;
  ss ← steps_from_list items [];
  mret (mkPlan q ss).

(** [Planner.templates] *)
Definition standard_query : list PlanStep :=
  [ mkPlanStep "schema" "get_schema_info" "Determine which schema and tables to use" [];
    mkPlanStep "query" "execute_query" "Generate and execute SQL query" [] ].

Definition query_with_discrepancy : list PlanStep :=
  [ mkPlanStep "schema" "get_schema_info" "Determine which schema and tables to use" [];
    mkPlanStep "query" "execute_query" "Generate and execute SQL query" [];
    mkPlanStep "discrepancy" "check_discrepancies" "Check for discrepancies in the data" [] ].

Definition templates : dict (list PlanStep) :=
  [ ("standard_query", standard_query);
    ("query_with_discrepancy", query_with_discrepancy) ].

(** [Planner._copy_template] *)
Definition _copy_template (template_name : string) : list PlanStep :=
  let template := match dict_get template_name templates with
                  | Some t => t
                  | None => []
                  end in
  map (fun step => mkPlanStep (agent step) (action step) (description step) (params step))
      template.

(** The pattern [(table|tables) (\w+)] on ASCII text, where [\w] is
    [[a-zA-Z0-9_]]; on other text the class of Python is wider. *)
Definition table_re : regex :=
  Cat (Grp 1 (Alt (Lit "table") (Lit "tables")))
      (Cat (Lit " ") (Grp 2 (Rep PyStr.is_word 1))).

(** The pattern [(schema|database) (\w+)], on ASCII text as well. *)
Definition schema_re : regex :=
  Cat (Grp 1 (Alt (Lit "schema") (Lit "database")))
      (Cat (Lit " ") (Grp 2 (Rep PyStr.is_word 1))).

(** [for step in steps: if step.agent == "schema": step.params[key] = value] *)
Definition set_schema_param (key : string) (value : pyval) (ss : list PlanStep)
    : list PlanStep :=
  map (fun step =>
         if String.eqb (agent step) "schema"
         then mkPlanStep (agent step) (action step) (description step)
                         (dict_set key value (params step))
         else step) ss.

(** [Planner._customize_plan] *)
Definition _customize_plan (ss : list PlanStep) (q : string) : list PlanStep :=
  let query_lower := PyStr.lower q in
  let ss :=
    match search table_re query_lower with
    | Some table_match =>
        match group 2 table_match with
        | Some table_name => set_schema_param "suggested_tables" (PList [PStr table_name]) ss
        | None => ss
        end
    | None => ss
    end in
  match search schema_re query_lower with
  | Some schema_match =>
      match group 2 schema_match with
      | Some schema_name => set_schema_param "suggested_schema" (PStr schema_name) ss
      | None => ss
      end
  | None => ss
  end.

Definition discrepancy_keywords : list string :=
  [ "discrepancy"; "discrepancies"; "inconsistency"; "inconsistencies";
    "error"; "errors"; "mismatch"; "mismatches"; "wrong"; "incorrect";
    "validate"; "validation"; "verify"; "verification"; "check" ].

(** [Planner._query_needs_discrepancy_check] *)
Definition _query_needs_discrepancy_check (q : string) : bool :=
  let query_lower := PyStr.lower q in
  existsb (fun keyword => PyStr.contains keyword query_lower) discrepancy_keywords.

(** [Planner.create_plan] *)
Definition create_plan (q : string) : Plan :=
  let ss := if _query_needs_discrepancy_check q
            then _copy_template "query_with_discrepancy"
            else _copy_template "standard_query" in
  let ss := _customize_plan ss q in
  mkPlan q ss.

End Planner.

(** ** Shared records

    The dictionaries the agents pass around have a fixed set of keys; each
    is a record whose optional keys are [option] fields. *)

(** The result of [SchemaAgent.get_schema_info]. *)
Record SchemaInfo : Type := mkSchemaInfo {
  available_schemas : list string;
  selected_schema : option string;
  selected_tables : list string;
  table_columns : dict (list string)
}.

(** A value in a result row: [None], an integer or a string. *)
Inductive cell : Type :=
| CNone
| CInt (n : Z)
| CStr (s : string).

#[global] Instance cell_eq_dec : EqDecision cell.
Proof. solve_decision. Defined.

#[global] Instance cell_countable : Countable cell :=
  inj_countable'
    (fun c => match c with
              | CNone => inl ()
              | CInt n => inr (inl n)
              | CStr s => inr (inr s)
              end)
    (fun x => match x with
              | inl _ => CNone
              | inr (inl n) => CInt n
              | inr (inr s) => CStr s
              end)
    (fun c => match c with CNone | CInt _ | CStr _ => eq_refl end).

Definition cell_to_py (c : cell) : pyval :=
  match c with
  | CNone => PNone
  | CInt n => PInt n
  | CStr s => PStr s
  end.

(** A result row: column name to value. *)
Definition row : Type := dict cell.

(** The result of [QueryAgent.execute_query]: either the dictionary built
    by [format_oracle_results] with the statement added, or the dictionary
    with the keys [error] and [sql_query]. *)
Inductive QueryResult : Type :=
| QueryData (columns : list string) (data : list row) (row_count : nat)
            (truncated : bool) (rowcount : Z) (sql_query : string)
| QueryError (error : string) (sql_query : string).

(** [query_result.get("data", [])] *)
Definition result_data (qr : QueryResult) : list row :=
  match qr with
  | QueryData _ data _ _ _ _ => data
  | QueryError _ _ => []
  end.

(** The [context] dictionary threaded through the agents. *)
Record Context : Type := mkContext {
  user_query : option string;
  suggested_schema : option string;
  suggested_tables : option (list string);
  schema_info : option SchemaInfo;
  query_result : option QueryResult;
  discrepancies : option (list pyval)
}.

(** ** memory.py and the effects of a run

    [Memory.add] appends an entry to a category; the model keeps the
    additions in order and leaves out the time stamp and the copy on disk.
    Calls to the collaborators and to the checks are logged next to it. *)

Inductive MemItem : Type :=
| MemUserQuery (q : string)
| MemSchemaSelection (r : SchemaInfo)
| MemExecutedQuery (user_query sql_query : string)
| MemQueryContext (c : Context)
| MemDiscrepancies (l : list pyval).

Inductive Call : Type :=
| CallGenerateSql (user_query : string)
| CallCursorExecute (sql_query : string)
| CallAnalyzeDiscrepancies
| CallGenericChecks
| CallBusinessRules
| CallRuleCheck (rule_name : string).

Record World : Type := mkWorld {
  memory : list (string * MemItem);
  calls : list Call
}.

(** A computation that reads and updates the world and returns or raises. *)
Definition M (A : Type) : Type := World -> outcome A * World.

#[global] Instance M_ret : MRet M := fun A a w => (Returned a, w).
#[global] Instance M_bind : MBind M := fun A B f m w =>
  match m w with
  | (Returned a, w') => f a w'
  | (Raised e, w') => (Raised e, w')
  end.

(** [raise e] *)
Definition raise {A} (e : exn) : M A := fun w => (Raised e, w).

(** [try: m except Exception as e: h e] *)
Definition try_except {A} (m : M A) (h : exn -> M A) : M A := fun w =>
  match m w with
  | (Returned a, w') => (Returned a, w')
  | (Raised e, w') => h e w'
  end.

(** [self.memory.add(category, item)] *)
Definition memory_add (category : string) (item : MemItem) : M unit := fun w =>
  (Returned tt, mkWorld (memory w ++ [(category, item)]) (calls w)).

Definition log_call (c : Call) : M unit := fun w =>
  (Returned tt, mkWorld (memory w) (calls w ++ [c])).

(** ** sub_agents/schema_agent.py *)

Module SchemaAgent.

Import Re.

(** The pattern [[a-zA-Z0-9_]+] between optional quotes, as group 1. *)
Definition quoted_name : regex :=
  Cat (Opt PyStr.is_quote) (Cat (Grp 1 (Rep PyStr.is_word 1)) (Opt PyStr.is_quote)).

Definition schema_patterns : list regex :=
  [ Cat (Lit "in schema ") quoted_name;
    Cat (Lit "from schema ") quoted_name;
    Cat (Lit "database ") quoted_name ].

Definition table_patterns : list regex :=
  [ Cat (Lit "from ") quoted_name;
    Cat (Lit "table") (Cat (Opt (Ascii.eqb "s"%char)) (Cat (Lit " ") quoted_name));
    Cat (Lit "in ") (Cat quoted_name (Lit " table")) ].

(** The pattern [\b[a-zA-Z0-9_]{3,}\b]. *)
Definition word_re : regex := Cat Bnd (Cat (Rep PyStr.is_word 3) Bnd).

(** [max(a, b)] of Python: [b] only when it is greater than [a]. *)
Definition py_max (a b : Q) : Q :=
  match Qcompare a b with Lt => b | _ => a end.

(** The order of the tuples [(score, table)]. *)
Definition tuple_lt (a b : Q * string) : bool :=
  match Qcompare (fst a) (fst b) with
  | Lt => true
  | Gt => false
  | Eq => String.ltb (snd a) (snd b)
  end.

Definition tuple_ge (a b : Q * string) : Prop := tuple_lt a b = false.

#[global] Instance tuple_ge_dec (a b : Q * string) : Decision (tuple_ge a b).
Proof. unfold tuple_ge. apply _. Defined.

Section agent.

(** [self.schemas] and [self.schema_cache], filled in by the
    constructor from the catalog. *)
Variable schemas : list string.
Variable schema_cache : dict (dict (list string)).

(** The loop over [schema_patterns] in [_extract_schema_from_query]. *)
Fixpoint first_known_schema (patterns : list regex) (query_lower : string)
    : option string :=
  match patterns with
  | [] => None
  | pattern :: rest =>
      match search pattern query_lower with
      | Some m =>
          match group 1 m with
          | Some schema_name =>
              if PyStr.mem schema_name schemas then Some schema_name
              else first_known_schema rest query_lower
          | None => first_known_schema rest query_lower
          end
      | None => first_known_schema rest query_lower
      end
  end.

(** [SchemaAgent._extract_schema_from_query] *)
Definition _extract_schema_from_query (q : string) : option string :=
  first_known_schema schema_patterns (PyStr.lower q).

(** The table exists in at least one schema. *)
Definition table_known (table_name : string) : bool :=
  existsb (fun schema =>
             match dict_get schema schema_cache with
             | Some tables => dict_mem table_name tables
             | None => false
             end) schemas.

(** [SchemaAgent._extract_tables_from_query] *)
Definition _extract_tables_from_query (q : string) : list string :=
  let query_lower := PyStr.lower q in
  flat_map (fun pattern =>
              List.filter table_known (omap (group 1) (finditer pattern query_lower)))
           table_patterns.

(** One turn of the partial-match loop for [word]: the score so far (0
    when the table has no entry yet) against [similarity * 0.8]. A token
    has at least three characters, so the division is by a positive
    length. *)
Definition partial_step (table_lower : string) (acc : option Q) (word : string)
    : option Q :=
  if PyStr.contains table_lower word || PyStr.contains word table_lower then
    let similarity :=
      (inject_Z (Z.of_nat (String.length word)) /
       inject_Z (Z.of_nat (Nat.max (String.length word) (String.length table_lower))))%Q in
    Some (py_max (default 0%Q acc) (similarity * (4 # 5))%Q)
  else acc.

(** The entry of [table_scores] for [table], if the loop body makes one. *)
Definition score_table (words : list string) (table : string) : option Q :=
  let table_lower := PyStr.lower table in
  if PyStr.mem table_lower words then Some 1%Q
  else
    let singular := if PyStr.endswith_s table_lower
                    then PyStr.drop_last table_lower else table_lower in
    let plural := if negb (PyStr.endswith_s table_lower)
                  then String.append table_lower "s" else table_lower in
    if PyStr.mem singular words || PyStr.mem plural words then Some (9 # 10)%Q
    else fold_left (partial_step table_lower) words None.

(** [[(score, table) for table, score in table_scores.items()]] for the
    tables enumerated as [available_tables]. *)
Definition scored (words available_tables : list string) : list (Q * string) :=
  omap (fun table => (fun score => (score, table)) <$> score_table words table)
       available_tables.

(** [sorted(..., reverse=True)] followed by the threshold and [[:3]]. *)
Definition rank (items : list (Q * string)) : list string :=
  let sorted_tables := merge_sort tuple_ge items in
  take 3 (map snd (List.filter (fun st => Qle_bool (1 # 2) (fst st)) sorted_tables)).

(** [set(re.findall(...))] *)
Definition query_words (q : string) : list string :=
  remove_dups (findall word_re (PyStr.lower q)).

(** [SchemaAgent._infer_tables_from_query] *)
Definition _infer_tables_from_query (q : string) (schema : option string)
    : list string :=
  match schema with
  | None => []
  | Some schema_name =>
      if String.eqb schema_name "" then []
      else
        match dict_get schema_name schema_cache with
        | None => []
        | Some tables =>
            let words := query_words q in
            let available_tables := remove_dups (dict_keys tables) in
            rank (scored words available_tables)
        end
  end.

(** Truth value of an optional string: false for [None] and for the
    empty string. *)
Definition truthy (a : option string) : bool :=
  match a with
  | Some s => negb (String.eqb s "")
  | None => false
  end.

(** [a or b] on optional strings. *)
Definition or_str (a b : option string) : option string :=
  if truthy a then a else b.

(** [a or b] on an optional list: [a] unless it is [None] or empty. *)
Definition or_list (a : option (list string)) (b : list string) : list string :=
  match a with
  | Some (x :: l) => x :: l
  | _ => b
  end.

(** The loop that fills [result["table_columns"]]. *)
Definition columns_of (schema : option string) (tables : list string)
    : dict (list string) :=
  fold_left
    (fun acc table =>
       match schema with
       | Some schema_name =>
           match dict_get schema_name schema_cache with
           | Some cached =>
               match dict_get table cached with
               | Some columns => dict_set table columns acc
               | None => acc
               end
           | None => acc
           end
       | None => acc
       end)
    tables [].

(** The dictionary [get_schema_info] returns. *)
Definition schema_selection (q : string) (context : Context) : SchemaInfo :=
  let suggested_schema :=
    or_str (suggested_schema context) (_extract_schema_from_query q) in
  let suggested_tables :=
    or_list (suggested_tables context) (_extract_tables_from_query q) in
  let suggested_schema :=
    match schemas with
    | first :: _ => if negb (truthy suggested_schema) then Some first
                    else suggested_schema
    | [] => suggested_schema
    end in
  let suggested_tables :=
    match suggested_tables with
    | [] => _infer_tables_from_query q suggested_schema
    | _ => suggested_tables
    end in
  mkSchemaInfo schemas suggested_schema suggested_tables
               (columns_of suggested_schema suggested_tables).

(** [SchemaAgent.get_schema_info] *)
Definition get_schema_info (q : string) (context : Context) : M SchemaInfo :=
  let result := schema_selection q context in
  _ ← memory_add "schema_selections" (MemSchemaSelection result);
  mret result.

End agent.

End SchemaAgent.

(** ** The database cursor

    What a cursor holds after [cursor.execute(sql)] has returned: the
    column names of [cursor.description] (or [None]), the rows it can
    fetch and [cursor.rowcount]. *)
Record Cursor : Type := mkCursor {
  cursor_description : option (list string);
  cursor_rows : list (list cell);
  cursor_rowcount : Z
}.

(** ** utils/db_utils.py *)

Module DbUtils.

(** [format_oracle_results(cursor, max_rows)], the statement still to be
    added by the caller. *)
Definition format_oracle_results (cursor : Cursor) (max_rows : nat) (sql_query : string)
    : QueryResult :=
  let columns := default [] (cursor_description cursor) in
  let rows := if (0 <? max_rows)%nat then take max_rows (cursor_rows cursor)
              else cursor_rows cursor in
  let data := map (dict_zip columns) rows in
  QueryData columns data (length data) (max_rows <=? length data)%nat
            (cursor_rowcount cursor) sql_query.

End DbUtils.

(** ** sub_agents/query_agent.py *)

Module QueryAgent.

Section agent.

(** [self.connection]: executing a statement returns a cursor or raises. *)
Variable cursor_execute : string -> outcome Cursor.

(** [self.bedrock_agent], if any: [BedrockAgent.generate_sql] applied to
    the request, the schema information and the examples [Memory.get]
    draws from the memory. It returns a statement in every case: a
    failure of the model is turned into a statement by the callee. *)
Variable bedrock_agent :
  option (string -> option SchemaInfo -> list (string * MemItem) -> string).

(** [QueryAgent._generate_sql_query]. Without a Bedrock agent the call
    goes to [_generate_sql_with_rules] with two arguments, and the
    definition in force (the second one of the class) takes four. *)
Definition _generate_sql_query (user_query : string) (schema_info : option SchemaInfo)
    : M string :=
  match bedrock_agent with
  | Some generate_sql =>
      fun w =>
        (_ ← log_call (CallGenerateSql user_query);
         mret (generate_sql user_query schema_info (memory w))) w
  | None =>
      raise (TypeError "QueryAgent._generate_sql_with_rules() missing 2 required positional arguments: 'tables' and 'table_columns'")
  end.

(** [str(e)] *)
Definition describe (e : exn) : string :=
  match e with
  | KeyError k => String.append "'" (String.append k "'")
  | TypeError msg => msg
  | Exception msg => msg
  end.

(** [QueryAgent.execute_query] *)
Definition execute_query (user_query : string) (context : Context) : M QueryResult :=
  let schema_info := schema_info context in
  sql_query ← _generate_sql_query user_query schema_info;
  try_except
    (_ ← log_call (CallCursorExecute sql_query);
     match cursor_execute sql_query with
     | Returned cursor =>
         let formatted_result := DbUtils.format_oracle_results cursor 100 sql_query in
         _ ← memory_add "executed_queries" (MemExecutedQuery user_query sql_query);
         mret formatted_result
     | Raised e => raise e
     end)
    (fun e => mret (QueryError (describe e) sql_query)).

End agent.

End QueryAgent.

(** ** sub_agents/discrepancy_agent.py *)

Module DiscrepancyAgent.

(** A business rule: the keys the agent reads from the rule dictionary. *)
Record Rule : Type := mkRule {
  check_function : option (list row -> outcome (list pyval));
  rule_sql_query : option string;
  rule_type : option string;
  rule_severity : option string;
  rule_message : option string;
  rule_name : option string
}.

(** [str(value)] *)
Definition str_of_cell (c : cell) : string :=
  match c with
  | CNone => "None"
  | CInt n => pretty n
  | CStr s => s
  end.

Definition concat_str (l : list string) : string := String.concat "" l.

Definition skipped_fields : list string :=
  ["id"; "created_at"; "updated_at"; "notes"; "description"].

Definition null_record (idx : nat) (field : string) : pyval :=
  PDict [ ("type", PStr "null_value");
          ("severity", PStr "low");
          ("message", PStr (concat_str ["Null value detected in field '"; field;
                                        "' at row "; pretty (idx + 1)%nat]));
          ("row_indices", PList [PInt (Z.of_nat idx)]);
          ("fields", PList [PStr field]) ].

(** The inner loop of the null check, over the items of one row. *)
Definition null_checks_row (idx : nat) (r : row) : list pyval :=
  flat_map (fun fv =>
              if PyStr.mem (PyStr.lower (fst fv)) skipped_fields then []
              else match snd fv with
                   | CNone => [null_record idx (fst fv)]
                   | _ => []
                   end) r.

(** The outer loop of the null check, rows numbered from [idx]. *)
Fixpoint null_checks (idx : nat) (data : list row) : list pyval :=
  match data with
  | [] => []
  | r :: rest => null_checks_row idx r ++ null_checks (S idx) rest
  end.

Definition primary_fields : list string := ["id"; "code"; "key"].

Definition duplicate_record (field : string) (value : cell) (first idx : nat) : pyval :=
  PDict [ ("type", PStr "duplicate_value");
          ("severity", PStr "high");
          ("message", PStr (concat_str ["Duplicate value '"; str_of_cell value;
                                        "' in field '"; field; "' at rows ";
                                        pretty (first + 1)%nat; " and ";
                                        pretty (idx + 1)%nat]));
          ("row_indices", PList [PInt (Z.of_nat first); PInt (Z.of_nat idx)]);
          ("fields", PList [PStr field]);
          ("value", cell_to_py value) ].

(** [row.get(field)] *)
Definition row_get (field : string) (r : row) : cell :=
  default CNone (dict_get field r).

(** The scan of one key field, rows numbered from [idx], with
    [seen_values[field]] so far. *)
Fixpoint scan_duplicates (field : string) (idx : nat) (seen : gmap cell nat)
    (data : list row) : list pyval :=
  match data with
  | [] => []
  | r :: rest =>
      let value := row_get field r in
      match seen !! value with
      | Some first =>
          duplicate_record field value first idx :: scan_duplicates field (S idx) seen rest
      | None => scan_duplicates field (S idx) (<[value := idx]> seen) rest
      end
  end.

(** The duplicate check for one key field. *)
Definition duplicate_checks (data : list row) (field : string) : list pyval :=
  match data with
  | first_row :: _ =>
      if dict_mem field first_row then scan_duplicates field 0 ∅ data else []
  | [] => []
  end.

(** [DiscrepancyAgent._apply_generic_checks] *)
Definition _apply_generic_checks (data : list row) (schema_info : option SchemaInfo)
    : list pyval :=
  null_checks 0 data ++ flat_map (duplicate_checks data) primary_fields.

(** The methods [_check_price_consistency] and [_check_inventory_balance]. *)
Definition builtin_checks : list string := ["price_consistency"; "inventory_balance"].

Definition row_to_py (r : row) : pyval :=
  PDict (map (fun kv => (fst kv, cell_to_py (snd kv))) r).

Section agent.

Variable cursor_execute : string -> outcome Cursor.

(** [self.bedrock_agent], if any: [BedrockAgent.analyze_discrepancies],
    taken here where it returns a list. It raises when the rules cannot
    be serialized; the module [Propagating] below has the check with an
    analysis that may raise. *)
Variable bedrock_agent : option (QueryResult -> dict Rule -> list pyval).

Variable business_rules : dict Rule.

Definition rule_record (rule : Rule) (r : row) : pyval :=
  let name := default "unnamed" (rule_name rule) in
  PDict [ ("type", PStr (default "business_rule" (rule_type rule)));
          ("severity", PStr (default "medium" (rule_severity rule)));
          ("message", PStr (default (concat_str ["Business rule '"; name; "' violated"])
                                    (rule_message rule)));
          ("rule_name", PStr name);
          ("details", row_to_py r) ].

(** [DiscrepancyAgent._execute_rule_query] *)
Definition _execute_rule_query (rule : Rule) : M (list pyval) :=
  match rule_sql_query rule with
  | None => mret []
  | Some sql_query =>
      if String.eqb sql_query "" then mret []
      else
        _ ← log_call (CallCursorExecute sql_query);
        match cursor_execute sql_query with
        | Returned cursor =>
            let columns := default [] (cursor_description cursor) in
            let rows := map (dict_zip columns) (cursor_rows cursor) in
            mret (map (rule_record rule) rows)
        | Raised _ => mret []
        end
  end.

(** The body of the loop over the rules. *)
Definition apply_rule (data : list row) (name : string) (rule : Rule) : M (list pyval) :=
  if PyStr.mem name builtin_checks then
    _ ← log_call (CallRuleCheck name);
    mret []
  else
    match check_function rule with
    | Some f =>
        _ ← log_call (CallRuleCheck name);
        match f data with
        | Returned rule_discrepancies => mret rule_discrepancies
        | Raised e => raise e
        end
    | None =>
        match rule_sql_query rule with
        | Some _ =>
            _ ← log_call (CallRuleCheck name);
            _execute_rule_query rule
        | None => mret []
        end
    end.

Fixpoint apply_rules (data : list row) (rules : dict Rule) : M (list pyval) :=
  match rules with
  | [] => mret []
  | (name, rule) :: rest =>
      rule_discrepancies ← apply_rule data name rule;
      others ← apply_rules data rest;
      mret (rule_discrepancies ++ others)
  end.

(** [DiscrepancyAgent._apply_business_rules] *)
Definition _apply_business_rules (data : list row) (schema_info : option SchemaInfo)
    : M (list pyval) :=
  _ ← log_call CallBusinessRules;
  match business_rules with
  | [] => mret []
  | _ => apply_rules data business_rules
  end.

(** [DiscrepancyAgent.check_discrepancies] *)
Definition check_discrepancies (context : Context) : M (list pyval) :=
  match query_result context with
  | None => mret []
  | Some qr =>
      match result_data qr with
      | [] => mret []
      | data =>
          ai_discrepancies ←
            match bedrock_agent, business_rules with
            | Some analyze_discrepancies, _ :: _ =>
                _ ← log_call CallAnalyzeDiscrepancies;
                mret (analyze_discrepancies qr business_rules)
            | _, _ => mret []
            end;
          _ ← log_call CallGenericChecks;
          let generic_discrepancies := _apply_generic_checks data (schema_info context) in
          business_discrepancies ← _apply_business_rules data (schema_info context);
          let discrepancies :=
            ai_discrepancies ++ generic_discrepancies ++ business_discrepancies in
          _ ← match discrepancies with
              | [] => mret tt
              | _ => memory_add "discrepancies" (MemDiscrepancies discrepancies)
              end;
          mret discrepancies
      end
  end.

End agent.

End DiscrepancyAgent.

(** ** agent.py *)

Module SQLAgent.

Import Planner.

(** The dictionary [_execute_plan] returns; [result] is [None] for the
    empty dictionary. *)
Record RunResult : Type := mkRunResult {
  result : option QueryResult;
  result_discrepancies : list pyval;
  schema_used : option string;
  tables_used : list string;
  plan : pyval
}.

Section agent.

(** The agent with its sub-agents enabled: the catalog read by the
    schema agent, the connection, the Bedrock agent (always built by
    [_initialize_components]) and the rules given to
    [set_business_logic]. *)
Variable schemas : list string.
Variable schema_cache : dict (dict (list string)).
Variable cursor_execute : string -> outcome Cursor.
Variable generate_sql : string -> option SchemaInfo -> list (string * MemItem) -> string.
Variable analyze_discrepancies : QueryResult -> dict DiscrepancyAgent.Rule -> list pyval.
Variable business_rules : dict DiscrepancyAgent.Rule.

(** One turn of the loop over [plan.steps]. *)
Definition execute_step (q : string) (context : Context) (step : PlanStep) : M Context :=
  if String.eqb (agent step) "schema" then
    info ← SchemaAgent.get_schema_info schemas schema_cache q context;
    mret (mkContext (user_query context) (suggested_schema context)
                    (suggested_tables context) (Some info)
                    (query_result context) (discrepancies context))
  else if String.eqb (agent step) "query" then
    qr ← QueryAgent.execute_query cursor_execute (Some generate_sql) q context;
    mret (mkContext (user_query context) (suggested_schema context)
                    (suggested_tables context) (schema_info context)
                    (Some qr) (discrepancies context))
  else if String.eqb (agent step) "discrepancy" then
    ds ← DiscrepancyAgent.check_discrepancies cursor_execute
           (Some analyze_discrepancies) business_rules context;
    mret (mkContext (user_query context) (suggested_schema context)
                    (suggested_tables context) (schema_info context)
                    (query_result context) (Some ds))
  else mret context.

Fixpoint execute_steps (q : string) (context : Context) (ss : list PlanStep) : M Context :=
  match ss with
  | [] => mret context
  | step :: rest =>
      context' ← execute_step q context step;
      execute_steps q context' rest
  end.

(** [SQLAgent._execute_plan] *)
Definition _execute_plan (p : Plan) (q : string) : M RunResult :=
  let context := mkContext (Some q) None None None None None in
  context ← execute_steps q context (steps p);
  _ ← memory_add "query_contexts" (MemQueryContext context);
  mret (mkRunResult
          (query_result context)
          (default [] (discrepancies context))
          (schema_info context ≫= selected_schema)
          (default [] (selected_tables <$> schema_info context))
          (to_dict p)).

(** [SQLAgent.query] *)
Definition query (q : string) : M RunResult :=
  _ ← memory_add "user_queries" (MemUserQuery q);
  _execute_plan (create_plan q) q.

End agent.

End SQLAgent.

(** ** What the patterns denote

    The meaning of a pattern as a relation: the text [w] read at a position
    preceded by [prev] and followed by [rest], with the captures before and
    after. The matcher is sound for it ([exec_denotes] below). *)

Module ReSem.

Import Re.

(** The character before the position reached once [w] has been read. *)
Fixpoint last_char (prev : option ascii) (w : string) : option ascii :=
  match w with
  | EmptyString => prev
  | String c w' => last_char (Some c) w'
  end.

(** Every character of [w] is in the class [p]. *)
Fixpoint all_chars (p : ascii -> bool) (w : string) : bool :=
  match w with
  | EmptyString => true
  | String c w' => p c && all_chars p w'
  end.

Fixpoint denotes (r : regex) (prev : option ascii) (w rest : string) (cs cs' : caps) : Prop :=
  match r with
  | Lit l => w = l /\ cs' = cs
  | Alt r1 r2 => denotes r1 prev w rest cs cs' \/ denotes r2 prev w rest cs cs'
  | Cat r1 r2 =>
      exists w1 w2 cs1,
        w = String.append w1 w2 /\
        denotes r1 prev w1 (String.append w2 rest) cs cs1 /\
        denotes r2 (last_char prev w1) w2 rest cs1 cs'
  | Opt p => cs' = cs /\ (w = "" \/ exists c, w = String c "" /\ p c = true)
  | Rep p n => cs' = cs /\ all_chars p w = true /\ (n <= String.length w)%nat
  | Grp i r' => exists cs1, denotes r' prev w rest cs cs1 /\ cs' = (i, w) :: cs1
  | Bnd => w = "" /\ cs' = cs /\ xorb (word_before prev) (word_after rest) = true
  end.

(** What a successful run has read, in the terms of [denotes]. *)
Definition reads {R} (r : regex) (prev : option ascii) (s : string) (cs : caps)
    (k : cont R) (x : R) : Prop :=
  exists w rest cs',
    s = String.append w rest /\ denotes r prev w rest cs cs' /\
    k (last_char prev w) rest cs' = Some x.

(** A match of [r] in [text]: the text before it, the match, the text
    after it, and the captures (group 0 is the match). *)
Definition match_in (r : regex) (text : string) (cs : caps) : Prop :=
  exists before w after cs',
    text = String.append before (String.append w after) /\
    denotes r (last_char None before) w after [] cs' /\
    cs = (0%nat, w) :: cs'.

(** No character of [w] is an upper-case letter. *)
Definition no_upper (w : string) : Prop :=
  all_chars (fun c => negb (PyStr.is_upper c)) w = true.

End ReSem.

(** ** Reading the catalog

    [SchemaAgent._get_schemas] and [SchemaAgent._build_schema_cache], which
    the constructor runs in this order, and [SQLAgent.get_schema_info],
    which runs the loop of [_build_schema_cache] over the schemas of the
    agent. The database answers a statement of the catalog with the first
    column of its rows ([[row[0] for row in cursor.fetchall()]], a name in
    the three views read here) or raises. Closing the cursor is taken not
    to raise. *)

Module Catalog.

Definition nl : string := String (Ascii.ascii_of_nat 10) "".

Fixpoint spaces (n : nat) : string :=
  match n with
  | O => ""
  | S n' => String " " (spaces n')
  end.

(** The statement of [_get_schemas]. *)
Definition users_sql : string :=
  String.concat ""
    [ nl; spaces 16; "SELECT username "; nl;
      spaces 16; "FROM all_users "; nl;
      spaces 16; "WHERE username NOT IN ('SYS', 'SYSTEM', 'DBSNMP', 'OUTLN')"; nl;
      spaces 16; "ORDER BY username"; nl;
      spaces 12 ].

(** The statement listing the tables of [schema]. *)
Definition tables_sql (schema : string) : string :=
  String.concat ""
    [ nl; spaces 20; "SELECT table_name "; nl;
      spaces 20; "FROM all_tables "; nl;
      spaces 20; "WHERE owner = '"; schema; "'"; nl;
      spaces 20; "ORDER BY table_name"; nl;
      spaces 16 ].

(** The statement listing the columns of [table] in [schema]. *)
Definition columns_sql (schema table : string) : string :=
  String.concat ""
    [ nl; spaces 24; "SELECT column_name"; nl;
      spaces 24; "FROM all_tab_columns"; nl;
      spaces 24; "WHERE owner = '"; schema; "' AND table_name = '"; table; "'"; nl;
      spaces 24; "ORDER BY column_id"; nl;
      spaces 20 ].

Section catalog.

(** [self.connection.cursor()] *)
Variable connection_cursor : outcome unit.

(** [cursor.execute(sql)] followed by [[row[0] for row in cursor.fetchall()]]. *)
Variable fetch_names : string -> outcome (list string).

(** [SchemaAgent._get_schemas] *)
Definition _get_schemas : list string :=
  match connection_cursor with
  | Returned _ =>
      match fetch_names users_sql with
      | Returned schemas => schemas
      | Raised _ => []
      end
  | Raised _ => []
  end.

(** The loop [for table in tables: ... table_dict[table] = columns]. *)
Fixpoint read_columns (schema : string) (tables : list string)
    (table_dict : dict (list string)) : outcome (dict (list string)) :=
  match tables with
  | [] => Returned table_dict
  | table :: rest =>
      columns ← fetch_names (columns_sql schema table);
      read_columns schema rest (dict_set table columns table_dict)
  end.

(** One turn of the loop over the schemas, up to the assignment to
    [schema_info[schema]]: the dictionary of the tables of [schema]. *)
Definition read_tables (schema : string) : outcome (dict (list string)) :=
  tables ← fetch_names (tables_sql schema);
  read_columns schema tables [].

(** The loop over the schemas: how it ends, and [schema_info] as it is
    then. *)
Fixpoint read_schemas (schemas : list string) (schema_info : dict (dict (list string)))
    : outcome unit * dict (dict (list string)) :=
  match schemas with
  | [] => (Returned tt, schema_info)
  | schema :: rest =>
      match read_tables schema with
      | Returned table_dict => read_schemas rest (dict_set schema table_dict schema_info)
      | Raised e => (Raised e, schema_info)
      end
  end.

(** [SchemaAgent._build_schema_cache], for [self.schemas]: whatever the
    [try] block raises is logged, and [schema_info] is returned as it
    is. *)
Definition _build_schema_cache (schemas : list string) : dict (dict (list string)) :=
  match connection_cursor with
  | Returned _ => snd (read_schemas schemas [])
  | Raised _ => []
  end.

(** [SQLAgent.get_schema_info], for the schemas of the agent: the same
    statements and the same loop. *)
Definition get_schema_info (schemas : list string) : dict (dict (list string)) :=
  match connection_cursor with
  | Returned _ => snd (read_schemas schemas [])
  | Raised _ => []
  end.

(** What the constructor of [SchemaAgent] leaves in [self.schemas] and
    [self.schema_cache]. *)
Definition init : list string * dict (dict (list string)) :=
  let schemas := _get_schemas in
  let schema_cache := _build_schema_cache schemas in
  (schemas, schema_cache).

End catalog.

End Catalog.

(** ** memory.py

    The store of [Memory] with its time stamps: [add], [get] and [clear]
    on [self.memory]. The readings of [time.time()] are arguments, and are
    rationals here (the difference of two readings of the clock is exact
    in binary64 as long as one is not more than twice the other). The copy
    on disk is left out: [_save_to_disk] catches whatever goes wrong and
    nothing below reads the file. *)

Module Memory.

Section memory.

(** The type of the items stored ([Any] in the source). *)
Context {A : Type}.

Record Entry : Type := mkEntry {
  timestamp : Q;
  content : A;
  metadata : dict pyval
}.

(** [self.ttl] *)
Variable ttl : Z.

(** [Memory.add], at the time [now]. *)
Definition add (now : Q) (category : string) (item : A) (meta : option (dict pyval))
    (memory : dict (list Entry)) : dict (list Entry) :=
  let memory := if dict_mem category memory then memory
                else dict_set category [] memory in
  let entry := mkEntry now item (default [] meta) in
  dict_set category (default [] (dict_get category memory) ++ [entry]) memory.

(** [current_time - item["timestamp"] <= self.ttl] *)
Definition fresh (current_time : Q) (item : Entry) : bool :=
  Qle_bool (current_time - timestamp item) (inject_Z ttl).

(** [items.sort(key=lambda x: x["timestamp"], reverse=True)]: the sort is
    stable, and with [reverse=True] items of equal keys keep the order
    they had. An item goes before the first one that is not newer. *)
Fixpoint insert_newest (x : Entry) (l : list Entry) : list Entry :=
  match l with
  | [] => [x]
  | y :: l' =>
      if Qle_bool (timestamp y) (timestamp x) then x :: y :: l'
      else y :: insert_newest x l'
  end.

Definition sort_newest_first (l : list Entry) : list Entry :=
  foldr insert_newest [] l.

(** [items[:n]] *)
Definition slice_to (n : Z) (items : list Entry) : list Entry :=
  if (n <? 0)%Z then take (length items - Z.to_nat (- n)) items
  else take (Z.to_nat n) items.

(** [Memory.get], at the time [current_time]. *)
Definition get (current_time : Q) (category : string) (n : Z)
    (filter_func : option (Entry -> bool)) (memory : dict (list Entry)) : list Entry :=
  match dict_get category memory with
  | None => []
  | Some items =>
      let items := List.filter (fresh current_time) items in
      let items := match filter_func with
                   | Some f => List.filter f items
                   | None => items
                   end in
      let items := sort_newest_first items in
      slice_to n items
  end.

(** [Memory.clear] *)
Definition clear (category : option string) (memory : dict (list Entry))
    : dict (list Entry) :=
  match category with
  | Some c =>
      if negb (String.eqb c "") then
        if dict_mem c memory then dict_set c [] memory else memory
      else []
  | None => []
  end.

End memory.

Arguments Entry : clear implicits.

End Memory.

(** ** run.py

    The business rules [set_sample_business_rules] hands to the agent. *)

Module Run.

Import Catalog DiscrepancyAgent.

Definition price_consistency_sql : string :=
  String.concat ""
    [ nl;
      spaces 16;
      "SELECT p1.product_id AS product1_id, p1.product_name AS product1_name, ";
      nl;
      spaces 23;
      "p1.price AS product1_price,";
      nl;
      spaces 23;
      "p2.product_id AS product2_id, p2.product_name AS product2_name, ";
      nl;
      spaces 23;
      "p2.price AS product2_price";
      nl;
      spaces 16;
      "FROM products p1";
      nl;
      spaces 16;
      "JOIN products p2 ON p1.category_id = p2.category_id AND p1.product_id != p2.product_id";
      nl;
      spaces 16;
      "WHERE ABS(p1.price - p2.price) / NULLIF(p1.price, 0) > 0.5";
      nl;
      spaces 16;
      "AND ROWNUM <= 10";
      nl;
      spaces 12 ].

Definition inventory_balance_sql : string :=
  String.concat ""
    [ nl;
      spaces 16;
      "SELECT product_id, ";
      nl;
      spaces 23;
      "SUM(CASE WHEN transaction_type = 'IN' THEN quantity ELSE -quantity END) AS balance";
      nl;
      spaces 16;
      "FROM inventory_transactions";
      nl;
      spaces 16;
      "GROUP BY product_id";
      nl;
      spaces 16;
      "HAVING SUM(CASE WHEN transaction_type = 'IN' THEN quantity ELSE -quantity END) != 0";
      nl;
      spaces 16;
      "AND ROWNUM <= 10";
      nl;
      spaces 12 ].

Definition business_rules : dict Rule :=
  [ ("price_consistency",
     mkRule None (Some price_consistency_sql) None (Some "medium")
            (Some "Products in the same category have significant price differences")
            (Some "Price Consistency"));
    ("inventory_balance",
     mkRule None (Some inventory_balance_sql) None (Some "high")
            (Some "Inventory transactions do not balance for some products")
            (Some "Inventory Balance")) ].

End Run.

(** ** bedrock_agent.py

    [BedrockAgent.generate_sql]: the prompt sent to the model, and what is
    made of the answer. The model is a function from the prompt to the
    text of its answer ([response.content]) that may raise. *)

Module BedrockAgent.

Import Catalog.

(** What [str.strip] removes, among the characters below 128. *)
Definition is_space (c : ascii) : bool :=
  let n := nat_of_ascii c in
  ((9 <=? n) && (n <=? 13) || (28 <=? n) && (n <=? 32))%nat.

(** [s.lstrip()] *)
Fixpoint lstrip (s : string) : string :=
  match s with
  | String c s' => if is_space c then lstrip s' else s
  | EmptyString => EmptyString
  end.

(** [s.rstrip()] *)
Fixpoint rstrip (s : string) : string :=
  match s with
  | String c s' =>
      match rstrip s' with
      | EmptyString => if is_space c then EmptyString else String c EmptyString
      | r => String c r
      end
  | EmptyString => EmptyString
  end.

(** [s.strip()] *)
Definition strip (s : string) : string := rstrip (lstrip s).

(** [s[n:]] *)
Fixpoint drop (n : nat) (s : string) : string :=
  match n, s with
  | S n', String _ s' => drop n' s'
  | _, _ => s
  end.

(** [s.endswith(p)] *)
Definition endswith (p s : string) : bool :=
  (String.length p <=? String.length s)%nat &&
  String.eqb (drop (String.length s - String.length p) s) p.

(** [s.replace(old, "", 1)] for a non-empty [old]: the first occurrence
    of [old] is taken out. *)
Fixpoint remove_first (old s : string) : string :=
  if PyStr.startswith old s then drop (String.length old) s
  else match s with
       | String c s' => String c (remove_first old s')
       | EmptyString => EmptyString
       end.

(** The three back quotes of a code fence. *)
Definition fence : string := "```".

(** The answer without its code fence. *)
Definition unfenced (sql_query : string) : string :=
  if PyStr.startswith (String.append fence "sql") sql_query then
    let sql_query := remove_first (String.append fence "sql") sql_query in
    if endswith fence sql_query
    then PyStr.take (String.length sql_query - 3) sql_query
    else sql_query
  else if PyStr.startswith fence sql_query then
    let sql_query := remove_first fence sql_query in
    if endswith fence sql_query
    then PyStr.take (String.length sql_query - 3) sql_query
    else sql_query
  else sql_query.

(** [BedrockAgent._format_schema_info]; [None] is the empty dictionary. *)
Definition _format_schema_info (schema_info : option SchemaInfo) : string :=
  let schema_str :=
    match schema_info ≫= selected_schema with
    | Some name =>
        if negb (String.eqb name "")
        then String.concat "" ["Schema: "; name; nl; nl]
        else ""
    | None => ""
    end in
  fold_left
    (fun schema_str tc =>
       String.append schema_str
         (String.concat "" ["Table: "; fst tc; nl;
                            "Columns: "; String.concat ", " (snd tc); nl; nl]))
    (default [] (table_columns <$> schema_info)) schema_str.

(** The loop over [enumerate(examples, 1)]. *)
Fixpoint examples_text (i : nat) (examples : list (dict string)) (examples_str : string)
    : string :=
  match examples with
  | [] => examples_str
  | example :: rest =>
      examples_text (S i) rest
        (String.concat ""
           [ examples_str;
             "Example "; pretty i; ":"; nl;
             "User query: "; default "" (dict_get "query" example); nl;
             "SQL: "; default "" (dict_get "sql" example); nl; nl ])
  end.

(** The prompt of [generate_sql]. *)
Definition sql_prompt (user_query : string) (schema_info : option SchemaInfo)
    (examples : list (dict string)) : string :=
  let schema_str := _format_schema_info schema_info in
  let examples_str :=
    match examples with
    | [] => ""
    | _ => examples_text 1 examples
             (String.concat "" ["Here are some examples of similar queries:"; nl; nl])
    end in
  String.concat ""
    [ "You are an expert Oracle SQL developer. Generate a valid Oracle SQL query to answer the following question:";
      nl; nl;
      "USER QUERY: "; user_query; nl; nl;
      "DATABASE SCHEMA:"; nl;
      schema_str; nl; nl;
      examples_str; nl;
      "Your task is to write a well-optimized Oracle SQL query that answers the user's question.";
      nl;
      "Consider using appropriate Oracle-specific features when beneficial.";
      nl;
      "Return ONLY the SQL query without any explanations, comments or backticks.";
      nl ].

Section agent.

(** [self.llm.invoke([HumanMessage(content=prompt)]).content] *)
Variable llm_invoke : string -> outcome string.

(** [BedrockAgent.generate_sql]; no examples stands for [None] as well as
    for the empty list. *)
Definition generate_sql (user_query : string) (schema_info : option SchemaInfo)
    (examples : list (dict string)) : string :=
  let prompt := sql_prompt user_query schema_info examples in
  match llm_invoke prompt with
  | Returned content => strip (unfenced content)
  | Raised e =>
      String.concat "" ["SELECT 'Error generating query: "; QueryAgent.describe e;
                        "' FROM dual"]
  end.

End agent.

(** [BedrockAgent.analyze_discrepancies]. The texts [json.dumps] makes of
    rows and of rules are left to two functions; [json.dumps] raises a
    [TypeError] for a dictionary that holds a function, which is what a
    rule with a check function is. [json.loads] returns the value parsed
    or raises [JSONDecodeError]. *)

Definition dq : string := String (Ascii.ascii_of_nat 34) "".

(** The answer without its code fence; the language is [json] here and
    the white space stays. *)
Definition unfenced_json (json_str : string) : string :=
  if PyStr.startswith (String.append fence "json") json_str then
    let json_str := remove_first (String.append fence "json") json_str in
    if endswith fence json_str
    then PyStr.take (String.length json_str - 3) json_str
    else json_str
  else if PyStr.startswith fence json_str then
    let json_str := remove_first fence json_str in
    if endswith fence json_str
    then PyStr.take (String.length json_str - 3) json_str
    else json_str
  else json_str.

(** The prompt of [analyze_discrepancies]. *)
Definition analysis_prompt (data rules_str : string) : string :=
  String.concat ""
    [
      "You are a data analyst examining database query results for discrepancies."; nl;
      nl; "DATA (first 20 rows):"; nl; data; nl; nl; "BUSINESS RULES:"; nl; rules_str;
      nl; nl; "Analyze the data for discrepancies based on the business rules."; nl;
      "Return a JSON array of discrepancies, where each discrepancy has these fields:";
      nl; "- type: The type of discrepancy (e.g., "; dq; "null_value"; dq; ", "; dq;
      "inconsistent_data"; dq; ", "; dq; "business_rule_violation"; dq; ")"; nl;
      "- severity: The severity level ("; dq; "low"; dq; ", "; dq; "medium"; dq; ", ";
      dq; "high"; dq; ")"; nl; "- message: A clear message describing the discrepancy";
      nl;
      "- row_indices: Array of row indices where the discrepancy was found (0-based)";
      nl; "- fields: Array of field names involved in the discrepancy"; nl; nl;
      "Only return the JSON array without any explanation or markdown formatting."; nl;
      "If no discrepancies are found, return an empty array []."; nl ].

Section analysis.

Import DiscrepancyAgent.

Variable llm_invoke : string -> outcome string.
Variable rows_text : list row -> string.
Variable rules_text : dict Rule -> string.
Variable json_loads : string -> outcome pyval.

(** [json.dumps(business_rules)] *)
Definition dumps_rules (business_rules : dict Rule) : outcome string :=
  if existsb (fun nr => bool_decide (is_Some (check_function (snd nr)))) business_rules
  then Raised (TypeError "Object of type function is not JSON serializable")
  else Returned (rules_text business_rules).

Definition analyze_discrepancies (query_result : option QueryResult)
    (business_rules : dict Rule) : outcome (list pyval) :=
  match query_result with
  | None => Returned []
  | Some qr =>
      match result_data qr with
      | [] => Returned []
      | rows =>
          let data := rows_text (take 20 rows) in
          rules_str ← dumps_rules business_rules;
          let prompt := analysis_prompt data rules_str in
          match llm_invoke prompt with
          | Returned content =>
              let json_str := unfenced_json content in
              match json_loads json_str with
              | Returned (PList discrepancies) => Returned discrepancies
              | Returned _ => Returned []
              | Raised _ => Returned []
              end
          | Raised _ => Returned []
          end
      end
  end.

End analysis.

End BedrockAgent.

(** ** The discrepancy check with an analysis that may raise

    [DiscrepancyAgent.check_discrepancies] once more, with the analysis of
    the Bedrock agent as a call that returns a list or raises:
    [BedrockAgent.analyze_discrepancies] serializes the rules before its
    [try] block, and what [json.dumps] raises there is caught neither by
    it nor by [check_discrepancies]. For an analysis that always returns
    this is the function of the module [DiscrepancyAgent]
    ([check_discrepancies_returning] below). *)

Module Propagating.

Import DiscrepancyAgent.

Section agent.

Variable cursor_execute : string -> outcome Cursor.

(** [self.bedrock_agent], if any: its method [analyze_discrepancies]. *)
Variable bedrock_agent : option (QueryResult -> dict Rule -> outcome (list pyval)).

Variable business_rules : dict Rule.

(** [DiscrepancyAgent.check_discrepancies] *)
Definition check_discrepancies (context : Context) : M (list pyval) :=
  match query_result context with
  | None => mret []
  | Some qr =>
      match result_data qr with
      | [] => mret []
      | data =>
          ai_discrepancies ←
            match bedrock_agent, business_rules with
            | Some analyze_discrepancies, _ :: _ =>
                _ ← log_call CallAnalyzeDiscrepancies;
                match analyze_discrepancies qr business_rules with
                | Returned discrepancies => mret discrepancies
                | Raised e => raise e
                end
            | _, _ => mret []
            end;
          _ ← log_call CallGenericChecks;
          let generic_discrepancies := _apply_generic_checks data (schema_info context) in
          business_discrepancies ←
            _apply_business_rules cursor_execute business_rules data (schema_info context);
          let discrepancies :=
            ai_discrepancies ++ generic_discrepancies ++ business_discrepancies in
          _ ← match discrepancies with
              | [] => mret tt
              | _ => memory_add "discrepancies" (MemDiscrepancies discrepancies)
              end;
          mret discrepancies
      end
  end.

End agent.

End Propagating.

(** ** Plans read from dictionaries of any values

    [Plan.from_dict] once more, with the fields of the data classes as
    Python has them at run time: the annotations [str] and
    [Dict[str, Any]] are not checked, a field holds whatever value the
    dictionary gives. The only failures are those of the subscripts and
    of the iteration. *)

Module Untyped.

Import Planner.

(** [PlanStep] *)
Record PlanStep : Type := mkPlanStep {
  agent : pyval;
  action : pyval;
  description : pyval;
  params : pyval
}.

(** [Plan] *)
Record Plan : Type := mkPlan {
  query : pyval;
  steps : list PlanStep
}.

(** [PlanStep(agent=step_data["agent"], action=step_data["action"],
    description=step_data["description"], params=step_data["params"])] *)
Definition step_from_dict (step_data : pyval) : outcome PlanStep :=
  a ← getitem step_data "agent";
  c ← getitem step_data "action";
  d ← getitem step_data "description";
  p ← getitem step_data "params";
  mret (mkPlanStep a c d p).

(** The loop [for step_data in data["steps"]: ... plan.steps.append(step)]. *)
Fixpoint steps_from_list (l : list pyval) (acc : list PlanStep) : outcome (list PlanStep) :=
  match l with
  | [] => Returned acc
  | step_data :: l' =>
      step ← step_from_dict step_data;
      steps_from_list l' (acc ++ [step])
  end.

(** [Plan.from_dict] *)
Definition from_dict (data : pyval) : outcome Plan :=
  q ← getitem data "query";
  items ← getitem data "steps" ≫= iter_items;
  ss ← steps_from_list items [];
  mret (mkPlan q ss).

End Untyped.

(** * The vocabulary of the statements

    The notions in which the claims of the specification, and the
    statements proved in their place, are worded. *)

Module Specified.

Import Planner.

(** [k] occurs in [q] as a substring, up to the case of the letters. *)
Definition occurs_ignoring_case (k q : string) : Prop :=
  exists pre mid post : string,
    q = String.append pre (String.append mid post) /\ PyStr.lower mid = PyStr.lower k.

(** The request contains a discrepancy keyword. *)
Definition discrepancy_seeking (q : string) : Prop :=
  exists k : string, In k discrepancy_keywords /\ occurs_ignoring_case k q.

(** Two steps agree on the four fields of a step. *)
Definition same_step (a b : PlanStep) : Prop :=
  agent a = agent b /\ action a = action b /\
  description a = description b /\ params a = params b.

(** The strings of a list value. *)
Definition str_items (l : list pyval) : list string :=
  omap (fun v => match v with PStr s => Some s | _ => None end) l.

(** The context with the hint parameters of a stage in it: the two keys the
    schema agent looks up, taken from the parameters of the stage. *)
Definition with_stage_params (context : Context) (ps : dict pyval) : Context :=
  mkContext (user_query context)
            (match dict_get "suggested_schema" ps with
             | Some (PStr s) => Some s
             | _ => suggested_schema context
             end)
            (match dict_get "suggested_tables" ps with
             | Some (PList l) => Some (str_items l)
             | _ => suggested_tables context
             end)
            (schema_info context) (query_result context) (discrepancies context).

(** The target schema in the words of the specification: the hint when it
    is present and known, else the name extracted from the request, else
    the first known schema, else none. *)
Definition specified_schema (schemas : list string) (q : string) (hint : option string)
    : option string :=
  let otherwise :=
    match SchemaAgent._extract_schema_from_query schemas q with
    | Some name => Some name
    | None => head schemas
    end in
  match hint with
  | Some h => if PyStr.mem h schemas then Some h else otherwise
  | None => otherwise
  end.

(** The order of the ranking the code produces: the higher score first,
    and among equal scores the greater table name first. *)
Definition ranked_before (a b : Q * string) : Prop :=
  (fst b < fst a)%Q \/ ((fst a == fst b)%Q /\ String.ltb (snd b) (snd a) = true).

(** The threshold of the ranking. *)
Definition relevant (st : Q * string) : bool := Qle_bool (1 # 2) (fst st).

(** A stable sort by descending score: an item goes behind every item
    already placed whose score is not lower, so that items of equal score
    keep the order in which they are enumerated. *)
Fixpoint insert_by_score (x : Q * string) (l : list (Q * string)) : list (Q * string) :=
  match l with
  | [] => [x]
  | y :: l' =>
      match Qcompare (fst y) (fst x) with
      | Lt => x :: y :: l'
      | _ => y :: insert_by_score x l'
      end
  end.

Definition sort_by_score (l : list (Q * string)) : list (Q * string) :=
  fold_left (fun acc x => insert_by_score x acc) l [].

(** The inference in the words of the specification: the tables of the
    schema in catalog order, ranked by descending score with ties left in
    catalog order, those scoring at least 0.5, the first three. *)
Definition specified_inference (schema_cache : dict (dict (list string))) (q schema : string)
    : list string :=
  match dict_get schema schema_cache with
  | Some tables =>
      take 3 (map snd (List.filter relevant
                         (sort_by_score
                            (SchemaAgent.scored (SchemaAgent.query_words q) (dict_keys tables)))))
  | None => []
  end.

(** [a] occurs in [b] as a substring. *)
Definition substring (a b : string) : Prop :=
  exists pre post, b = String.append pre (String.append a post).

(** The table name is a substring of the token or the token of the name. *)
Definition overlaps (table_lower word : string) : Prop :=
  substring table_lower word \/ substring word table_lower.

(** The ratio of the partial-overlap score in the words of the
    specification: shorter length over longer length, times 0.8. *)
Definition shorter_over_longer (table_lower word : string) : Q :=
  (inject_Z (Z.of_nat (Nat.min (String.length word) (String.length table_lower))) /
   inject_Z (Z.of_nat (Nat.max (String.length word) (String.length table_lower))) * (4 # 5))%Q.

(** The ratio as the code computes it: the length of the token over the
    longer length, times 0.8. *)
Definition token_over_longer (table_lower word : string) : Q :=
  (inject_Z (Z.of_nat (String.length word)) /
   inject_Z (Z.of_nat (Nat.max (String.length word) (String.length table_lower))) * (4 # 5))%Q.

(** [m] is the maximum of [f] over the tokens that overlap the name. *)
Definition maximum_over (f : string -> Q) (table_lower : string) (words : list string) (m : Q)
    : Prop :=
  (exists word, In word words /\ overlaps table_lower word /\ (m == f word)%Q) /\
  (forall word, In word words -> overlaps table_lower word -> (f word <= m)%Q).

(** The table has no exact and no singular or plural match among the tokens. *)
Definition no_name_match (table_lower : string) (words : list string) : Prop :=
  ~ In table_lower words /\
  ~ In (if PyStr.endswith_s table_lower then PyStr.drop_last table_lower else table_lower)
       words /\
  ~ In (if negb (PyStr.endswith_s table_lower) then String.append table_lower "s"
        else table_lower) words.

(** The index of the first of [rows] whose value for [field] is [v]. *)
Definition first_row_with (field : string) (v : cell) (rows : list row) : option nat :=
  fst <$> list_find (fun r => DiscrepancyAgent.row_get field r = v) rows.

(** The record emitted at row [idx], if any: the value of the row counts
    and an earlier row has the same value; the record refers to the first
    such row. *)
Definition duplicate_at (counts : cell -> bool) (field : string) (data : list row)
    (idx : nat) : option pyval :=
  match data !! idx with
  | Some r =>
      let v := DiscrepancyAgent.row_get field r in
      if counts v then
        (fun first => DiscrepancyAgent.duplicate_record field v first idx)
          <$> first_row_with field v (take idx data)
      else None
  | None => None
  end.

(** The records of one key field, row by row. *)
Definition duplicates_by_position (counts : cell -> bool) (field : string) (data : list row)
    : list pyval :=
  omap (duplicate_at counts field data) (seq 0 (length data)).

Definition non_null (v : cell) : bool :=
  match v with CNone => false | _ => true end.

Definition any_value (v : cell) : bool := true.

(** The field is a column of the batch, as the code tests it: a key of the
    first row. *)
Definition present (field : string) (data : list row) : bool :=
  match data with
  | first_row :: _ => dict_mem field first_row
  | [] => false
  end.

(** No match of [pattern] in the text names a known schema. *)
Definition names_no_schema (schemas : list string) (pattern : Re.regex) (query_lower : string)
    : Prop :=
  forall m name,
    Re.search pattern query_lower = Some m -> Re.group 1 m = Some name -> ~ In name schemas.

(** The number of stages of a kind in a list of steps. *)
Definition stage_count (kind : string) (ss : list PlanStep) : nat :=
  length (List.filter (fun step => String.eqb (agent step) kind) ss).

(** The number of statements sent to the database so far. *)
Definition executions (w : World) : nat :=
  length (List.filter (fun c => match c with CallCursorExecute _ => true | _ => false end)
                      (calls w)).

(** The number of additions to a category of the memory so far. *)
Definition additions (category : string) (w : World) : nat :=
  length (List.filter (fun e => String.eqb (fst e) category) (memory w)).

(** Two characters are the same letter up to case: they are equal, or one
    of them is a capital [A]..[Z] and the other the small letter 32 places
    after it. *)
Definition letters_agree (a b : ascii) : bool :=
  let m := nat_of_ascii a in
  let n := nat_of_ascii b in
  ((m =? n)
   || ((65 <=? m) && (m <=? 90) && (n =? m + 32))
   || ((65 <=? n) && (n <=? 90) && (m =? n + 32)))%nat.

(** [q] begins with [k], up to the case of the letters. *)
Fixpoint starts_up_to_case (k q : string) : bool :=
  match k, q with
  | EmptyString, _ => true
  | String a k', String b q' => letters_agree a b && starts_up_to_case k' q'
  | String _ _, EmptyString => false
  end.

(** [k] is a substring of [q], up to the case of the letters. *)
Fixpoint occurs_up_to_case (k q : string) : bool :=
  starts_up_to_case k q ||
  match q with
  | EmptyString => false
  | String _ q' => occurs_up_to_case k q'
  end.

(** The keywords the specification names for a discrepancy-seeking
    request. *)
Definition specified_keywords : list string :=
  ["discrepancy"; "mismatch"; "validate"; "verify"; "inconsistent"; "wrong"].

(** The stages of the plan as the specification has them: three when a
    keyword it names occurs in the request, two otherwise. *)
Definition specified_stages (q : string) : list string :=
  if existsb (fun k => occurs_up_to_case k q) specified_keywords
  then ["schema"; "query"; "discrepancy"]
  else ["schema"; "query"].

(** The query result of the context is the error dictionary of a failed
    execution. *)
Definition failed (cursor_execute : string -> outcome Cursor) (context : Context) : Prop :=
  exists e sql, query_result context = Some (QueryError (QueryAgent.describe e) sql) /\
                cursor_execute sql = Raised e.

(** The context carries no data rows and no discrepancy. *)
Definition quiet (cursor_execute : string -> outcome Cursor) (context : Context) : Prop :=
  (query_result context = None \/ failed cursor_execute context) /\
  (discrepancies context = None \/ discrepancies context = Some []).

End Specified.

(** * The vocabulary of the further properties *)

Module Further.

Import Re ReSem Planner.

(** The table name [_customize_plan] takes from the request, if any. *)
Definition table_hint (q : string) : option string :=
  search table_re (PyStr.lower q) ≫= group 2.

(** The schema name [_customize_plan] takes from the request, if any. *)
Definition schema_hint (q : string) : option string :=
  search schema_re (PyStr.lower q) ≫= group 2.

(** The parameters of the schema stage for the two hints. *)
Definition hint_params (tables : option string) (schema : option string) : dict pyval :=
  match tables with
  | Some t => [("suggested_tables", PList [PStr t])]
  | None => []
  end ++
  match schema with
  | Some s => [("suggested_schema", PStr s)]
  | None => []
  end.

(** The shape of the two patterns of [_customize_plan]:
    [(k1|k2) (\w+)]. *)
Definition hint_re (k1 k2 : string) : regex :=
  Cat (Grp 1 (Alt (Lit k1) (Lit k2))) (Cat (Lit " ") (Grp 2 (Rep PyStr.is_word 1))).

(** [text] contains [keyword], a blank and a word character after it. *)
Definition names_after (keyword text : string) : Prop :=
  exists before c after,
    text = String.append before (String.append keyword (String " " (String c after))) /\
    PyStr.is_word c = true.

(** [name] is a word of the text that follows [keyword] and a blank. *)
Definition named_after (keyword name text : string) : Prop :=
  exists before after,
    text = String.append before
             (String.append keyword (String " " (String.append name after))).

(** [w] stands in [text] with no word character next to it on either side. *)
Definition stands_alone (w text : string) : Prop :=
  exists before after,
    text = String.append before (String.append w after) /\
    word_before (last_char None before) = false /\ word_after after = false.

(** The columns the cache holds for a table of a schema. *)
Definition cached_columns (schema_cache : dict (dict (list string)))
    (schema : option string) (t : string) : option (list string) :=
  name ← schema; tables ← dict_get name schema_cache; dict_get t tables.

(** The statement or the call returned. *)
Definition returned {A} (o : outcome A) : bool :=
  match o with Returned _ => true | Raised _ => false end.

(** The schemas the loop of [_build_schema_cache] gets through: those
    before the first one for which a statement raises. *)
Fixpoint readable (fetch_names : string -> outcome (list string)) (schemas : list string)
    : list string :=
  match schemas with
  | [] => []
  | schema :: rest =>
      if returned (Catalog.read_tables fetch_names schema)
      then schema :: readable fetch_names rest
      else []
  end.

(** A catalog of one schema with one table. *)
Definition sample_catalog (sql : string) : outcome (list string) :=
  if String.eqb sql Catalog.users_sql then Returned ["S"]
  else if String.eqb sql (Catalog.tables_sql "S") then Returned ["ORDERS"]
  else if String.eqb sql (Catalog.columns_sql "S" "ORDERS") then Returned ["ID"; "TOTAL"]
  else Raised (Exception "ORA-00942: table or view does not exist").

(** A catalog that lists two schemas and lets none of them be read. *)
Definition locked_catalog (sql : string) : outcome (list string) :=
  if String.eqb sql Catalog.users_sql then Returned ["A"; "B"]
  else Raised (Exception "ORA-01031: insufficient privileges").

(** [a] is at least as new as [b]. *)
Definition newer_or_equal {A} (a b : Memory.Entry A) : Prop :=
  (Memory.timestamp b <= Memory.timestamp a)%Q.

(** What [get] has to choose from at the time [current_time]: the
    entries of the category that have not expired and pass the filter. *)
Definition eligible {A} (ttl : Z) (current_time : Q)
    (filter_func : option (Memory.Entry A -> bool)) (category : string)
    (memory : dict (list (Memory.Entry A))) (item : Memory.Entry A) : Prop :=
  In item (default [] (dict_get category memory)) /\
  (current_time - Memory.timestamp item <= inject_Z ttl)%Q /\
  match filter_func with Some f => f item = true | None => True end.

(** The assignments [d[k] = v] for the pairs of [kvs] in turn. *)
Definition set_all {V} (kvs : list (string * V)) (acc : dict V) : dict V :=
  fold_left (fun acc kv => dict_set (fst kv) (snd kv) acc) kvs acc.

(** [record["type"]] of a discrepancy record. *)
Definition record_type (v : pyval) : option string :=
  match v with
  | PDict d => match dict_get "type" d with Some (PStr s) => Some s | _ => None end
  | _ => None
  end.

(** [record[key]] of a discrepancy record. *)
Definition record_field (key : string) (v : pyval) : option pyval :=
  match v with
  | PDict d => dict_get key d
  | _ => None
  end.

(** [record["row_indices"]] of a discrepancy record. *)
Definition row_indices (v : pyval) : list Z :=
  match v with
  | PDict d =>
      match dict_get "row_indices" d with
      | Some (PList l) => omap (fun i => match i with PInt n => Some n | _ => None end) l
      | _ => []
      end
  | _ => []
  end.

(** The agents [_execute_plan] knows, in the order of the steps. *)
Definition stages (ss : list Planner.PlanStep) : list string :=
  List.filter (fun a => PyStr.mem a ["schema"; "query"; "discrepancy"]) (map Planner.agent ss).

(** The outcome of a run and the world after it, the plan in the result
    left aside. *)
Definition apart_from_plan (run : outcome SQLAgent.RunResult * World)
    : outcome (option QueryResult * list pyval * option string * list string) * World :=
  (match fst run with
   | Returned r =>
       Returned (SQLAgent.result r, SQLAgent.result_discrepancies r,
                 SQLAgent.schema_used r, SQLAgent.tables_used r)
   | Raised e => Raised e
   end, snd run).

(** [s] has no white space at either end. *)
Definition trimmed (s : string) : Prop :=
  BedrockAgent.lstrip s = s /\ BedrockAgent.rstrip s = s.

(** The text is made of ASCII characters. On such a text the class [\w]
    of Python is [[a-zA-Z0-9_]] and [str.lower] changes the capitals
    [A]..[Z] only; a request with other characters is outside the
    statements that carry this condition. *)
Definition ascii_text (q : string) : Prop :=
  all_chars (fun c => (nat_of_ascii c <? 128)%nat) q = true.

(** The records one rule contributes for the data, or what its check
    function raises: nothing under the name of a built-in check; what the
    check function of the rule returns; else one record for each row its
    statement returns, and nothing when the statement is empty or
    raises. *)
Definition rule_records (cursor_execute : string -> outcome Cursor) (data : list row)
    (name : string) (rule : DiscrepancyAgent.Rule) : outcome (list pyval) :=
  if PyStr.mem name ["price_consistency"; "inventory_balance"] then Returned []
  else
    match DiscrepancyAgent.check_function rule with
    | Some f => f data
    | None =>
        match DiscrepancyAgent.rule_sql_query rule with
        | Some sql_query =>
            if String.eqb sql_query "" then Returned []
            else
              match cursor_execute sql_query with
              | Returned cursor =>
                  Returned
                    (map (fun cells =>
                            DiscrepancyAgent.rule_record rule
                              (dict_zip (default [] (cursor_description cursor)) cells))
                         (cursor_rows cursor))
              | Raised _ => Returned []
              end
        | None => Returned []
        end
    end.

(** The records of the rules of a registry, in its order, up to the first
    check function that raises. *)
Fixpoint registry_records (cursor_execute : string -> outcome Cursor) (data : list row)
    (business_rules : dict DiscrepancyAgent.Rule) : outcome (list pyval) :=
  match business_rules with
  | [] => Returned []
  | (name, rule) :: rest =>
      records ← rule_records cursor_execute data name rule;
      others ← registry_records cursor_execute data rest;
      Returned (records ++ others)
  end.


(** The name without its final [s], if it has one. *)
Definition singular_of (table_lower : string) : string :=
  if PyStr.endswith_s table_lower then PyStr.drop_last table_lower else table_lower.

(** The name with an [s] added, unless it ends in one. *)
Definition plural_of (table_lower : string) : string :=
  if negb (PyStr.endswith_s table_lower) then String.append table_lower "s" else table_lower.

(** [name] has an upper-case letter. *)
Definition has_upper (name : string) : Prop := ~ no_upper name.

(** A non-empty run of word characters without upper-case letters. *)
Definition lower_word (name : string) : Prop :=
  name <> "" /\ all_chars PyStr.is_word name = true /\ no_upper name.

(** The keys that [Plan.from_dict] reads in a step, in the order in which
    it reads them, and the first of them that a dictionary lacks. *)
Definition step_keys : list string := ["agent"; "action"; "description"; "params"].

Definition first_missing (step_data : dict pyval) : option string :=
  find (fun key => negb (dict_mem key step_data)) step_keys.

(** The step that a dictionary describes. *)
Definition described (step_data : dict pyval) (step : Untyped.PlanStep) : Prop :=
  dict_get "agent" step_data = Some (Untyped.agent step) /\
  dict_get "action" step_data = Some (Untyped.action step) /\
  dict_get "description" step_data = Some (Untyped.description step) /\
  dict_get "params" step_data = Some (Untyped.params step).

(** A plan with the fields as values. *)
Definition untyped_step (step : Planner.PlanStep) : Untyped.PlanStep :=
  Untyped.mkPlanStep (PStr (Planner.agent step)) (PStr (Planner.action step))
                     (PStr (Planner.description step)) (PDict (Planner.params step)).

Definition untyped (p : Planner.Plan) : Untyped.Plan :=
  Untyped.mkPlan (PStr (Planner.query p)) (map untyped_step (Planner.steps p)).

End Further.

(** * Properties *)

(** ** Plan serialization *)

Section plan_round_trip.

Import Planner.

Lemma step_from_dict_to_dict (step : PlanStep) :
  step_from_dict (step_to_dict step) = Returned step.
Proof. destruct step; reflexivity. Qed.

Lemma steps_from_list_to_dict (l acc : list PlanStep) :
  steps_from_list (map step_to_dict l) acc = Returned (acc ++ l).
Proof.
  revert acc; induction l as [|step l IH]; intros acc; simpl.
  - by rewrite app_nil_r.
  - destruct step as [a c d ps]. cbn [map steps_from_list].
    rewrite IH. by rewrite <- app_assoc.
Qed.

Lemma from_dict_to_dict (p : Plan) : from_dict (to_dict p) = Returned p.
Proof.
  destruct p as [q ss]. unfold from_dict, to_dict.
  cbn [getitem dict_get String.eqb Ascii.eqb Bool.eqb mbind outcome_bind as_str
       iter_items query steps].
  by rewrite steps_from_list_to_dict.
Qed.

(** C10: [Plan.from_dict (p.to_dict ())] returns a plan with the query of
    [p] and with steps that agree with those of [p], one by one, on agent,
    action, description and params. *)
Theorem plan_from_dict_to_dict (p : Plan) :
  exists p' : Plan,
    from_dict (to_dict p) = Returned p' /\
    query p' = query p /\
    Forall2 Specified.same_step (steps p') (steps p).
Proof.
  exists p. split; [apply from_dict_to_dict|]. split; [done|].
  induction (steps p); constructor; auto. by repeat split.
Qed.

End plan_round_trip.

(** ** Facts about strings *)

Section string_facts.

Import PyStr.

Lemma startswith_spec (p s : string) :
  startswith p s = true <-> exists post, s = String.append p post.
Proof.
  revert s; induction p as [|a p IH]; intros s; simpl.
  - split; [intros _; by exists s | done].
  - destruct s as [|b s].
    + split; [done | intros [post H]; discriminate].
    + rewrite andb_true_iff, IH. split.
      * intros [Hab [post ->]]. apply Ascii.eqb_eq in Hab as ->. by exists post.
      * intros [post H]. injection H as -> ->. split; [apply Ascii.eqb_refl | by exists post].
Qed.

Lemma contains_spec (p s : string) :
  contains p s = true <->
  exists pre post, s = String.append pre (String.append p post).
Proof.
  induction s as [|c s IH].
  - simpl. rewrite orb_false_r, startswith_spec. split.
    + intros [post H]. by exists EmptyString, post.
    + intros [[|a pre] [post H]]; [by exists post | discriminate].
  - cbn [contains]. rewrite orb_true_iff, startswith_spec, IH. split.
    + intros [[post H] | (pre & post & H)].
      * by exists EmptyString, post.
      * exists (String c pre), post. simpl. by rewrite H.
    + intros ([|a pre] & post & H).
      * left. by exists post.
      * right. simpl in H. injection H as -> ->. by exists pre, post.
Qed.

Lemma lower_append (a b : string) :
  lower (String.append a b) = String.append (lower a) (lower b).
Proof. induction a as [|c a IH]; simpl; [done | by rewrite IH]. Qed.

Lemma lower_split (q a b : string) :
  lower q = String.append a b ->
  exists a' b', q = String.append a' b' /\ lower a' = a /\ lower b' = b.
Proof.
  revert q; induction a as [|c a IH]; intros q H.
  - by exists EmptyString, q.
  - destruct q as [|d q]; [discriminate|]. simpl in H. injection H as Hc Hq.
    destruct (IH _ Hq) as (a' & b' & -> & <- & <-).
    exists (String d a'), b'. simpl. by rewrite Hc.
Qed.

Lemma mem_spec (x : string) (l : list string) : mem x l = true <-> In x l.
Proof.
  unfold mem. rewrite existsb_exists. split.
  - intros (y & Hy & Heq). apply String.eqb_eq in Heq. by subst.
  - intros H. exists x. split; [done | apply String.eqb_refl].
Qed.

End string_facts.

(** ** The plan builder *)

Section plan_builder.

Import Planner.

Lemma keywords_lower_case (k : string) :
  In k discrepancy_keywords -> PyStr.lower k = k.
Proof.
  apply (proj1 (List.Forall_forall (fun k => PyStr.lower k = k) discrepancy_keywords)).
  repeat constructor.
Qed.

Lemma _query_needs_discrepancy_check_spec (q : string) :
  _query_needs_discrepancy_check q = true <-> Specified.discrepancy_seeking q.
Proof.
  unfold _query_needs_discrepancy_check, Specified.discrepancy_seeking.
  rewrite existsb_exists. split.
  - intros (k & Hk & Hc). exists k. split; [done|].
    apply contains_spec in Hc as (pre & post & Hq).
    apply lower_split in Hq as (pre' & rest & -> & _ & Hrest).
    apply lower_split in Hrest as (mid & post' & -> & Hmid & _).
    exists pre', mid, post'. split; [done|].
    rewrite Hmid. symmetry. by apply keywords_lower_case.
  - intros (k & Hk & pre & mid & post & -> & Hmid). exists k. split; [done|].
    apply contains_spec. exists (PyStr.lower pre), (PyStr.lower post).
    rewrite !lower_append, Hmid. by rewrite (keywords_lower_case k Hk).
Qed.

Lemma set_schema_param_agents (key : string) (value : pyval) (ss : list PlanStep) :
  map agent (set_schema_param key value ss) = map agent ss.
Proof.
  unfold set_schema_param. rewrite map_map. apply map_ext.
  intros step. by destruct (String.eqb (agent step) "schema").
Qed.

Lemma _customize_plan_agents (ss : list PlanStep) (q : string) :
  map agent (_customize_plan ss q) = map agent ss.
Proof.
  unfold _customize_plan.
  repeat match goal with
         | |- context [match ?x with _ => _ end] => destruct x
         end;
    by rewrite ?set_schema_param_agents.
Qed.

Lemma create_plan_agents (q : string) :
  map agent (steps (create_plan q)) =
  if _query_needs_discrepancy_check q
  then ["schema"; "query"; "discrepancy"]
  else ["schema"; "query"].
Proof.
  unfold create_plan. cbn [steps]. rewrite _customize_plan_agents.
  by destruct (_query_needs_discrepancy_check q).
Qed.

Lemma letters_agree_lower (a b : ascii) :
  PyStr.is_upper a = false ->
  Ascii.eqb a (PyStr.lower_char b) = Specified.letters_agree a b.
Proof.
  unfold PyStr.is_upper, PyStr.lower_char, PyStr.is_upper, Specified.letters_agree.
  intros Ha. rewrite Ha, orb_false_r.
  pose proof (nat_ascii_bounded b) as Hb.
  destruct ((65 <=? nat_of_ascii b)%nat && (nat_of_ascii b <=? 90)%nat) eqn:Hu.
  - apply andb_true_iff in Hu as [H1%Nat.leb_le H2%Nat.leb_le].
    assert (Hne : (nat_of_ascii a =? nat_of_ascii b)%nat = false).
    { apply Nat.eqb_neq. intros Heq. rewrite Heq in Ha.
      apply andb_false_iff in Ha as [Ha%Nat.leb_gt | Ha%Nat.leb_gt]; lia. }
    rewrite Hne. cbn [orb andb].
    destruct (Nat.eqb_spec (nat_of_ascii a) (nat_of_ascii b + 32)) as [Heq|Hneq].
    + apply Ascii.eqb_eq. rewrite <- Heq. by rewrite ascii_nat_embedding.
    + apply Ascii.eqb_neq. intros ->. apply Hneq. rewrite nat_ascii_embedding; lia.
  - rewrite orb_false_r.
    destruct (Nat.eqb_spec (nat_of_ascii a) (nat_of_ascii b)) as [Heq|Hneq].
    + apply Ascii.eqb_eq. by rewrite <- (ascii_nat_embedding a), Heq, ascii_nat_embedding.
    + apply Ascii.eqb_neq. by intros ->.
Qed.

Lemma starts_up_to_case_lower (k q : string) :
  ReSem.no_upper k ->
  PyStr.startswith k (PyStr.lower q) = Specified.starts_up_to_case k q.
Proof.
  unfold ReSem.no_upper. revert q. induction k as [|a k IH]; intros q Hk; [by destruct q|].
  cbn [ReSem.all_chars] in Hk. apply andb_true_iff in Hk as [Ha%negb_true_iff Hk].
  destruct q as [|b q]; [done|]. cbn [PyStr.lower PyStr.startswith Specified.starts_up_to_case].
  by rewrite letters_agree_lower, IH.
Qed.

Lemma occurs_up_to_case_lower (k q : string) :
  ReSem.no_upper k ->
  PyStr.contains k (PyStr.lower q) = Specified.occurs_up_to_case k q.
Proof.
  intros Hk. induction q as [|b q IH].
  - cbn [PyStr.lower PyStr.contains Specified.occurs_up_to_case].
    by rewrite <- (starts_up_to_case_lower k "").
  - cbn [PyStr.lower PyStr.contains Specified.occurs_up_to_case].
    rewrite <- IH. f_equal. by rewrite <- (starts_up_to_case_lower k (String b q)).
Qed.

Lemma _query_needs_discrepancy_check_up_to_case (q : string) :
  _query_needs_discrepancy_check q
  = existsb (fun k => Specified.occurs_up_to_case k q) discrepancy_keywords.
Proof.
  unfold _query_needs_discrepancy_check.
  assert (Hall : Forall ReSem.no_upper discrepancy_keywords) by (repeat constructor).
  induction Hall as [|k ks Hk _ IH]; [done|].
  cbn [existsb]. by rewrite occurs_up_to_case_lower, IH.
Qed.

(** C7, as the code has it: the plan built for a request has exactly the
    three stages schema, query, discrepancy, in that order, when one of
    the fifteen keywords of the plan builder occurs in the request as a
    substring up to the case of the letters, and exactly the two stages
    schema, query otherwise. The word [inconsistent], which the
    specification names, is not one of them. *)
Theorem create_plan_stages (q : string) :
  let keywords :=
    [ "discrepancy"; "discrepancies"; "inconsistency"; "inconsistencies";
      "error"; "errors"; "mismatch"; "mismatches"; "wrong"; "incorrect";
      "validate"; "validation"; "verify"; "verification"; "check" ] in
  ((exists k, In k keywords /\ Specified.occurs_up_to_case k q = true) <->
     map agent (steps (create_plan q)) = ["schema"; "query"; "discrepancy"]) /\
  (~ (exists k, In k keywords /\ Specified.occurs_up_to_case k q = true) <->
     map agent (steps (create_plan q)) = ["schema"; "query"]).
Proof.
  intros keywords.
  assert (Hk : (exists k, In k keywords /\ Specified.occurs_up_to_case k q = true) <->
               _query_needs_discrepancy_check q = true).
  { rewrite _query_needs_discrepancy_check_up_to_case, existsb_exists. done. }
  rewrite Hk, create_plan_agents.
  destruct (_query_needs_discrepancy_check q); split; split;
    first [done | intros H; by destruct H | idtac].
Qed.

(** C7 (counterexample): the request [list inconsistent prices] holds the
    keyword [inconsistent] of the specification; the code, whose keywords
    are [inconsistency] and [inconsistencies], builds the two stages. *)
Lemma create_plan_inconsistent :
  let q := "list inconsistent prices" in
  In "inconsistent" Specified.specified_keywords /\
  Specified.occurs_up_to_case "inconsistent" q = true /\
  map agent (steps (create_plan q)) = ["schema"; "query"] /\
  Specified.specified_stages q = ["schema"; "query"; "discrepancy"] /\
  map agent (steps (create_plan q)) <> Specified.specified_stages q.
Proof.
  repeat split; try (vm_compute; reflexivity).
  - vm_compute. tauto.
  - vm_compute. discriminate.
Qed.

End plan_builder.

(** ** The discrepancy check without data *)

Section no_data.

Import DiscrepancyAgent.

Variable cursor_execute : string -> outcome Cursor.
Variable bedrock_agent : option (QueryResult -> dict Rule -> list pyval).
Variable business_rules : dict Rule.

(** C9: when the context has no query result, or a query result without
    data rows, the discrepancy check returns the empty list and leaves
    the world as it is: no call to the AI collaborator, to the generic
    checks or to a business rule is made, and nothing is archived. *)
Theorem check_discrepancies_no_data (context : Context) (w : World) :
  query_result context = None \/
    (exists qr, query_result context = Some qr /\ result_data qr = []) ->
  check_discrepancies cursor_execute bedrock_agent business_rules context w
  = (Returned [], w).
Proof.
  unfold check_discrepancies.
  intros [-> | (qr & -> & ->)]; reflexivity.
Qed.

Lemma check_discrepancies_absent (context : Context) (w : World) :
  query_result context = None ->
  check_discrepancies cursor_execute bedrock_agent business_rules context w
  = (Returned [], w).
Proof. unfold check_discrepancies. by intros ->. Qed.

Lemma check_discrepancies_error (context : Context) (w : World) (msg sql : string) :
  query_result context = Some (QueryError msg sql) ->
  check_discrepancies cursor_execute bedrock_agent business_rules context w
  = (Returned [], w).
Proof. unfold check_discrepancies. by intros ->. Qed.

End no_data.

(** A rule whose callback always raises, a result without rows, and a world
    with a history: the check returns at once. *)
Lemma check_discrepancies_no_data_witness :
  let rule := DiscrepancyAgent.mkRule (Some (fun _ => Raised (Exception "boom")))
                                      None None None None None in
  let context := mkContext (Some "check orders") None None None
                           (Some (QueryData ["id"] [] 0 false 0 "SELECT id FROM orders"))
                           None in
  let w := mkWorld [("user_queries", MemUserQuery "check orders")]
                   [CallCursorExecute "SELECT id FROM orders"] in
  DiscrepancyAgent.check_discrepancies
    (fun _ => Raised (Exception "down")) (Some (fun _ _ => [PNone])) [("r", rule)] context w
  = (Returned [], w).
Proof.
  intros rule context w.
  apply (check_discrepancies_no_data (fun _ => Raised (Exception "down"))
           (Some (fun _ _ => [PNone])) [("r", rule)] context w).
  right. eexists. split; [reflexivity | reflexivity].
Defined.

(** ** A run whose statements fail *)

Section query_failure.

Import Planner SQLAgent Specified.

Variable schemas : list string.
Variable schema_cache : dict (dict (list string)).
Variable cursor_execute : string -> outcome Cursor.
Variable generate_sql : string -> option SchemaInfo -> list (string * MemItem) -> string.
Variable analyze_discrepancies : QueryResult -> dict DiscrepancyAgent.Rule -> list pyval.
Variable business_rules : dict DiscrepancyAgent.Rule.
Variable q : string.

Local Abbreviation step_ := (execute_step schemas schema_cache cursor_execute generate_sql
                           analyze_discrepancies business_rules q).
Local Abbreviation steps_ := (execute_steps schemas schema_cache cursor_execute generate_sql
                            analyze_discrepancies business_rules q).

Lemma execute_step_schema (context : Context) (step : PlanStep) (w : World) :
  agent step = "schema" ->
  let info := SchemaAgent.schema_selection schemas schema_cache q context in
  step_ context step w =
  (Returned (mkContext (user_query context) (suggested_schema context)
                       (suggested_tables context) (Some info)
                       (query_result context) (discrepancies context)),
   mkWorld (memory w ++ [("schema_selections", MemSchemaSelection info)]) (calls w)).
Proof. intros H. unfold execute_step. rewrite H. reflexivity. Qed.

Lemma execute_step_query_raised (context : Context) (step : PlanStep) (w : World) (e : exn) :
  agent step = "query" ->
  let sql := generate_sql q (schema_info context) (memory w) in
  cursor_execute sql = Raised e ->
  step_ context step w =
  (Returned (mkContext (user_query context) (suggested_schema context)
                       (suggested_tables context) (schema_info context)
                       (Some (QueryError (QueryAgent.describe e) sql))
                       (discrepancies context)),
   mkWorld (memory w) (calls w ++ [CallGenerateSql q; CallCursorExecute sql])).
Proof.
  intros H sql He. unfold execute_step. rewrite H. cbn [String.eqb Ascii.eqb Bool.eqb].
  unfold QueryAgent.execute_query, QueryAgent._generate_sql_query, try_except, log_call,
    mbind, mret, M_bind, M_ret.
  cbn [memory calls]. fold sql. rewrite He.
  unfold raise. cbn. by rewrite <- app_assoc.
Qed.

Lemma execute_step_discrepancy_quiet (context : Context) (step : PlanStep) (w : World) :
  agent step = "discrepancy" ->
  quiet cursor_execute context ->
  step_ context step w =
  (Returned (mkContext (user_query context) (suggested_schema context)
                       (suggested_tables context) (schema_info context)
                       (query_result context) (Some [])), w).
Proof.
  intros H [Hq _]. unfold execute_step. rewrite H. cbn [String.eqb Ascii.eqb Bool.eqb].
  unfold mbind, M_bind.
  destruct Hq as [Hq | (e & sql & Hq & _)].
  - by rewrite check_discrepancies_absent.
  - by rewrite (check_discrepancies_error _ _ _ _ _ _ _ Hq).
Qed.

Lemma execute_step_other (context : Context) (step : PlanStep) (w : World) :
  agent step <> "schema" -> agent step <> "query" -> agent step <> "discrepancy" ->
  step_ context step w = (Returned context, w).
Proof.
  intros H1 H2 H3. unfold execute_step.
  apply String.eqb_neq in H1, H2, H3. by rewrite H1, H2, H3.
Qed.

Lemma stage_count_cons (kind : string) (step : PlanStep) (ss : list PlanStep) :
  stage_count kind (step :: ss) =
  ((if String.eqb (agent step) kind then 1 else 0) + stage_count kind ss)%nat.
Proof. unfold stage_count. cbn [List.filter]. by destruct (String.eqb (agent step) kind). Qed.

Lemma executions_calls (m : list (string * MemItem)) (c l : list Call) :
  executions (mkWorld m (c ++ l)) =
  (executions (mkWorld m c) + executions (mkWorld m l))%nat.
Proof. unfold executions. cbn [calls]. by rewrite List.filter_app, length_app. Qed.

Lemma additions_memory (category : string) (m l : list (string * MemItem)) (c : list Call) :
  additions category (mkWorld (m ++ l) c) =
  (additions category (mkWorld m c) + additions category (mkWorld l c))%nat.
Proof. unfold additions. cbn [memory]. by rewrite List.filter_app, length_app. Qed.

Lemma stage_count_app (kind : string) (l1 l2 : list PlanStep) :
  stage_count kind (l1 ++ l2) = (stage_count kind l1 + stage_count kind l2)%nat.
Proof. unfold stage_count. by rewrite List.filter_app, length_app. Qed.

Lemma stage_count_In (kind : string) (ss : list PlanStep) (step : PlanStep) :
  In step ss -> agent step = kind -> stage_count kind ss <> 0%nat.
Proof.
  intros Hin Hk. unfold stage_count.
  assert (Hf : In step (List.filter (fun s => String.eqb (agent s) kind) ss)).
  { apply List.filter_In. split; [done | by apply String.eqb_eq]. }
  destruct (List.filter _ ss); [destruct Hf | done].
Qed.

Lemma execute_steps_app (l1 l2 : list PlanStep) (context : Context) (w : World) :
  steps_ context (l1 ++ l2) w
  = match steps_ context l1 w with
    | (Returned context', w') => steps_ context' l2 w'
    | (Raised e, w') => (Raised e, w')
    end.
Proof.
  revert context w. induction l1 as [|step l1 IH]; intros context w; [done|].
  cbn [app execute_steps]. unfold mbind, M_bind.
  destruct (step_ context step w) as [[c|e] w1]; [apply IH | done].
Qed.

(** What a step that returns leaves of the context: each kind of step
    writes one field. *)
Lemma execute_step_fields (context context' : Context) (step : PlanStep) (w w' : World) :
  step_ context step w = (Returned context', w') ->
  (agent step <> "schema" -> schema_info context' = schema_info context) /\
  (agent step <> "query" -> query_result context' = query_result context) /\
  (agent step <> "discrepancy" -> discrepancies context' = discrepancies context).
Proof.
  unfold execute_step.
  destruct (String.eqb_spec (agent step) "schema") as [Hs|Hs].
  { unfold SchemaAgent.get_schema_info, mbind, mret, M_bind, M_ret, memory_add.
    intros [= <- <-]. rewrite Hs. by repeat split. }
  destruct (String.eqb_spec (agent step) "query") as [Hq|Hq].
  { unfold mbind, mret, M_bind, M_ret.
    destruct (QueryAgent.execute_query _ _ _ _ _) as [[qr|e] w1]; [|done].
    intros [= <- <-]. rewrite Hq. by repeat split. }
  destruct (String.eqb_spec (agent step) "discrepancy") as [Hd|Hd].
  { unfold mbind, mret, M_bind, M_ret.
    destruct (DiscrepancyAgent.check_discrepancies _ _ _ _ _) as [[ds|e] w1]; [|done].
    intros [= <- <-]. rewrite Hd. by repeat split. }
  unfold mret, M_ret. by intros [= <- <-].
Qed.

Lemma execute_steps_fields (ss : list PlanStep) (context context' : Context) (w w' : World) :
  steps_ context ss w = (Returned context', w') ->
  (stage_count "schema" ss = 0%nat -> schema_info context' = schema_info context) /\
  (stage_count "query" ss = 0%nat -> query_result context' = query_result context) /\
  (stage_count "discrepancy" ss = 0%nat -> discrepancies context' = discrepancies context).
Proof.
  revert context w. induction ss as [|step ss IH]; intros context w.
  - unfold execute_steps, mret, M_ret. by intros [= <- <-].
  - cbn [execute_steps]. unfold mbind, M_bind.
    destruct (step_ context step w) as [[c|e] w1] eqn:Hstep; [|done].
    intros Hrun. destruct (IH _ _ Hrun) as (H1 & H2 & H3).
    destruct (execute_step_fields _ _ _ _ _ Hstep) as (F1 & F2 & F3).
    rewrite !stage_count_cons.
    repeat split; intros H0;
      [rewrite H1, F1 | rewrite H2, F2 | rewrite H3, F3]; try done; try lia;
      intros Heq; rewrite Heq in H0; cbn in H0; lia.
Qed.

Local Ltac finish_with H :=
  repeat split; try first [done | lia | apply H | intros ?; exfalso; lia].

(** The steps after a failed execution, none of them a query step: they
    all run, the schema steps as ever, the discrepancy steps finding no
    data. *)
Lemma execute_steps_after_failure (ss : list PlanStep) :
  forall (context : Context) (w : World) (msg sql : string),
    query_result context = Some (QueryError msg sql) ->
    stage_count "query" ss = 0%nat ->
    exists context' w',
      steps_ context ss w = (Returned context', w') /\
      query_result context' = Some (QueryError msg sql) /\
      (stage_count "schema" ss = 0%nat -> schema_info context' = schema_info context) /\
      (stage_count "discrepancy" ss = 0%nat ->
         discrepancies context' = discrepancies context) /\
      (stage_count "discrepancy" ss <> 0%nat -> discrepancies context' = Some []) /\
      calls w' = calls w /\
      additions "schema_selections" w' =
        (additions "schema_selections" w + stage_count "schema" ss)%nat /\
      forall category, category <> "schema_selections" ->
        additions category w' = additions category w.
Proof.
  induction ss as [|step ss IH]; intros context w msg sql Herr Hnq.
  - exists context, w. cbn. finish_with Herr.
  - cbn [execute_steps]. unfold mbind at 1, M_bind at 1.
    rewrite !stage_count_cons in *.
    destruct (decide (agent step = "schema")) as [Hs|Hs];
      [|destruct (decide (agent step = "query")) as [Hq|Hq];
        [|destruct (decide (agent step = "discrepancy")) as [Hd|Hd]]].
    + rewrite execute_step_schema by done. rewrite Hs in *.
      cbn [String.eqb Ascii.eqb Bool.eqb] in *.
      match goal with
      | |- context [steps_ ?c ss ?w0] =>
          destruct (IH c w0 msg sql) as (c' & w' & -> & H1 & H2 & H3 & H4 & H5 & H6 & H7)
      end; [exact Herr | lia |].
      exists c', w'. rewrite H6. split; [done|]. split; [done|].
      split; [intros; exfalso; lia|]. split; [done|]. split; [done|]. split; [done|].
      split.
      * rewrite additions_memory. unfold additions. cbn. lia.
      * intros category Hc. rewrite (H7 category Hc), additions_memory.
        unfold additions at 2. cbn [memory List.filter fst].
        apply not_eq_sym, String.eqb_neq in Hc. rewrite Hc. unfold additions.
        cbn [memory length]. lia.
    + rewrite Hq in Hnq. cbn in Hnq. lia.
    + rewrite Hd in *. cbn [String.eqb Ascii.eqb Bool.eqb] in *.
      unfold execute_step. rewrite Hd. cbn [String.eqb Ascii.eqb Bool.eqb].
      unfold mbind at 1, M_bind at 1.
      rewrite (check_discrepancies_error _ _ _ _ _ msg sql Herr).
      unfold mret at 1, M_ret at 1.
      match goal with
      | |- context [steps_ ?c ss ?w0] =>
          destruct (IH c w0 msg sql) as (c' & w' & -> & H1 & H2 & H3 & H4 & H5 & H6 & H7)
      end; [exact Herr | lia |].
      exists c', w'. split; [done|]. split; [done|]. split; [done|].
      split; [intros; exfalso; lia|]. split; [|done]. intros _.
      destruct (decide (stage_count "discrepancy" ss = 0%nat)) as [H0|H0]; [|auto].
      by rewrite (H3 H0).
    + rewrite execute_step_other by done.
      apply String.eqb_neq in Hs, Hq, Hd. rewrite Hs, Hq, Hd in *.
      destruct (IH context w msg sql Herr Hnq) as (c' & w' & -> & H1 & H2 & H3 & H4 & H5 & H6 & H7).
      exists c', w'. cbn in *. done.
Qed.

(** C8: a plan with a query stage whose statement, generated from the
    context and the memory the run has reached by then, raises when it is
    executed. The failure is caught: the stage leaves the error dictionary
    with the text of the exception in the context, adds nothing to the
    memory, and the run goes on with the stages after it. When none of
    these is a query stage, the run returns a result (nothing is raised to
    the caller) whose query result is this error dictionary; its
    discrepancies are empty and, without a schema stage, its schema and
    tables take their defaults; every stage after the failure has run: one
    archived selection per schema stage, no further execution, and the
    final context archived once. *)
Theorem execute_plan_query_failure (p : Plan) (w : World)
    (before after : list PlanStep) (step : PlanStep)
    (context1 : Context) (w1 : World) (e : exn) :
  steps p = before ++ step :: after ->
  agent step = "query" ->
  steps_ (mkContext (Some q) None None None None None) before w = (Returned context1, w1) ->
  let sql := generate_sql q (schema_info context1) (memory w1) in
  cursor_execute sql = Raised e ->
  let failure := QueryError (QueryAgent.describe e) sql in
  steps_ (mkContext (Some q) None None None None None) (steps p) w
  = steps_ (mkContext (user_query context1) (suggested_schema context1)
                      (suggested_tables context1) (schema_info context1)
                      (Some failure) (discrepancies context1))
           after
           (mkWorld (memory w1) (calls w1 ++ [CallGenerateSql q; CallCursorExecute sql])) /\
  (stage_count "query" after = 0%nat ->
   exists (r : RunResult) (w' : World),
     _execute_plan schemas schema_cache cursor_execute generate_sql
                   analyze_discrepancies business_rules p q w = (Returned r, w') /\
     result r = Some failure /\
     (stage_count "discrepancy" after <> 0%nat \/ stage_count "discrepancy" before = 0%nat ->
      result_discrepancies r = []) /\
     (stage_count "schema" (steps p) = 0%nat -> schema_used r = None /\ tables_used r = []) /\
     executions w' = S (executions w1) /\
     additions "executed_queries" w' = additions "executed_queries" w1 /\
     additions "schema_selections" w' =
       (additions "schema_selections" w1 + stage_count "schema" after)%nat /\
     additions "query_contexts" w' = S (additions "query_contexts" w1)).
Proof.
  intros Hp Hq Hbefore sql He failure.
  assert (Hrun : steps_ (mkContext (Some q) None None None None None) (steps p) w
                 = steps_ (mkContext (user_query context1) (suggested_schema context1)
                                     (suggested_tables context1) (schema_info context1)
                                     (Some failure) (discrepancies context1))
                          after
                          (mkWorld (memory w1)
                                   (calls w1 ++ [CallGenerateSql q; CallCursorExecute sql]))).
  { rewrite Hp, execute_steps_app, Hbefore. cbn [execute_steps].
    unfold mbind at 1, M_bind at 1.
    by rewrite (execute_step_query_raised context1 step w1 e Hq He). }
  split; [exact Hrun|]. intros Hafter.
  unfold _execute_plan. unfold mbind at 1, M_bind at 1. rewrite Hrun.
  match goal with
  | |- context [steps_ ?c after ?w0] =>
      destruct (execute_steps_after_failure after c w0 (QueryAgent.describe e) sql eq_refl Hafter)
        as (c' & w' & -> & Hres & Hschema & Hdnone & Hdsome & Hcalls & Hsel & Hother)
  end.
  destruct (execute_steps_fields _ _ _ _ _ Hbefore) as (Bs & _ & Bd).
  cbn [schema_info discrepancies] in *.
  unfold mbind, mret, M_bind, M_ret, memory_add.
  eexists _, _. split; [reflexivity|].
  cbn [result result_discrepancies schema_used tables_used].
  split; [done|]. split; [|split; [|split; [|split; [|split]]]].
  - intros [Hd | Hd].
    + by rewrite (Hdsome Hd).
    + destruct (decide (stage_count "discrepancy" after = 0%nat)) as [H0|H0].
      * by rewrite (Hdnone H0), (Bd Hd).
      * by rewrite (Hdsome H0).
  - rewrite Hp, stage_count_app, stage_count_cons, Hq. cbn [String.eqb Ascii.eqb Bool.eqb].
    intros H0. rewrite Hschema, Bs by lia. done.
  - unfold executions in *. cbn [calls]. rewrite Hcalls. cbn [calls].
    rewrite List.filter_app, length_app. cbn. lia.
  - destruct w' as [m' c'']. cbn [memory calls]. rewrite additions_memory.
    rewrite (Hother "executed_queries") by done. unfold additions. cbn. lia.
  - destruct w' as [m' c'']. cbn [memory calls]. rewrite additions_memory, Hsel.
    unfold additions. cbn. lia.
  - destruct w' as [m' c'']. cbn [memory calls]. rewrite additions_memory.
    rewrite (Hother "query_contexts") by done. unfold additions. cbn. lia.
Qed.

End query_failure.

(** The three stages built for [check the orders], against a connection
    that accepts the statement generated before a schema is selected and
    refuses the one generated for the selection. *)
Lemma execute_plan_query_failure_witness :
  let schemas := ["SALES"] in
  let schema_cache := [("SALES", [("ORDERS", ["ID"])])] in
  let q := "check the orders" in
  let generate_sql := fun (_ : string) (info : option SchemaInfo)
                          (_ : list (string * MemItem)) =>
                        match info with
                        | Some _ => "SELECT * FROM SALES.ORDERS"
                        | None => "SELECT 1 FROM dual"
                        end in
  let cursor_execute := fun sql : string =>
                          if String.eqb sql "SELECT 1 FROM dual"
                          then Returned (mkCursor None [] 0)
                          else Raised (Exception "ORA-00942: table or view does not exist") in
  let p := Planner.create_plan q in
  let failure := QueryError "ORA-00942: table or view does not exist"
                            "SELECT * FROM SALES.ORDERS" in
  exists r w',
    SQLAgent._execute_plan schemas schema_cache cursor_execute generate_sql
      (fun _ _ => []) [] p q (mkWorld [] []) = (Returned r, w') /\
    SQLAgent.result r = Some failure /\
    SQLAgent.result_discrepancies r = [] /\
    Specified.executions w' = 1%nat /\
    Specified.additions "executed_queries" w' = 0%nat /\
    Specified.additions "schema_selections" w' = 1%nat /\
    Specified.additions "query_contexts" w' = 1%nat.
Proof.
  intros schemas schema_cache q generate_sql cursor_execute p failure.
  set (context := mkContext (Some q) None None None None None).
  set (info := SchemaAgent.schema_selection schemas schema_cache q context).
  destruct (execute_plan_query_failure schemas schema_cache cursor_execute generate_sql
              (fun _ _ => []) [] q p (mkWorld [] [])
              [Planner.mkPlanStep "schema" "get_schema_info"
                 "Determine which schema and tables to use" []]
              [Planner.mkPlanStep "discrepancy" "check_discrepancies"
                 "Check for discrepancies in the data" []]
              (Planner.mkPlanStep "query" "execute_query" "Generate and execute SQL query" [])
              (mkContext (Some q) None None (Some info) None None)
              (mkWorld [("schema_selections", MemSchemaSelection info)] [])
              (Exception "ORA-00942: table or view does not exist"))
    as [_ H]; try reflexivity.
  destruct (H eq_refl) as (r & w' & Hrun & Hres & Hd & _ & Hexec & Hq & Hsel & Hctx).
  exists r, w'. split; [exact Hrun|]. split; [exact Hres|].
  split; [apply Hd; left; discriminate|].
  split; [exact Hexec|]. split; [exact Hq|]. split; [exact Hsel | exact Hctx].
Defined.

(** ** The hints of the schema stage *)

Section stage_hints.

Import Planner SQLAgent.

Variable schemas : list string.
Variable schema_cache : dict (dict (list string)).
Variable cursor_execute : string -> outcome Cursor.
Variable generate_sql : string -> option SchemaInfo -> list (string * MemItem) -> string.
Variable analyze_discrepancies : QueryResult -> dict DiscrepancyAgent.Rule -> list pyval.
Variable business_rules : dict DiscrepancyAgent.Rule.

(** A turn of the loop looks at the agent of the step and at nothing else. *)
Lemma execute_step_agent_only (q : string) (context : Context) (s1 s2 : PlanStep) :
  agent s1 = agent s2 ->
  execute_step schemas schema_cache cursor_execute generate_sql analyze_discrepancies
               business_rules q context s1 =
  execute_step schemas schema_cache cursor_execute generate_sql analyze_discrepancies
               business_rules q context s2.
Proof. intros H. unfold execute_step. by rewrite H. Qed.

End stage_hints.

(** C1 (evaluation at the failing input): for the request
    [list table widgets] the plan builder puts [suggested_tables = [widgets]]
    on the schema stage; the run hands the schema agent a context without
    it and reports no table, where the agent given the stage parameters
    selects [widgets]. *)
Theorem execute_plan_drops_stage_hints :
  let q := "list table widgets" in
  let schemas := ["SALES"] in
  let schema_cache := [("SALES", [("CUSTOMERS", ["ID"; "NAME"])])] in
  let p := Planner.create_plan q in
  let context := mkContext (Some q) None None None None None in
  map Planner.params (Planner.steps p) = [[("suggested_tables", PList [PStr "widgets"])]; []] /\
  (exists r w',
     SQLAgent._execute_plan schemas schema_cache
       (fun _ => Returned (mkCursor None [] 0)) (fun _ _ _ => "SELECT 1 FROM dual")
       (fun _ _ => []) [] p q (mkWorld [] []) = (Returned r, w') /\
     SQLAgent.tables_used r = [] /\
     In ("schema_selections",
         MemSchemaSelection (SchemaAgent.schema_selection schemas schema_cache q context))
        (memory w')) /\
  selected_tables
    (SchemaAgent.schema_selection schemas schema_cache q
       (Specified.with_stage_params context [("suggested_tables", PList [PStr "widgets"])]))
  = ["widgets"].
Proof.
  intros q schemas schema_cache p context. split; [reflexivity|]. split.
  - eexists _, _. split; [vm_compute; reflexivity|]. split; [reflexivity|].
    left. reflexivity.
  - vm_compute. reflexivity.
Qed.

(** ** Facts about the matcher *)

Section matcher_facts.

Import Re.

Lemma take_nonempty (n : nat) (s : string) :
  (1 <= n)%nat -> (1 <= String.length s)%nat -> PyStr.take n s <> "".
Proof. destruct n, s; simpl; intros; try lia; done. Qed.

Lemma take_length (n : nat) (s : string) :
  String.length (PyStr.take n s) = Nat.min n (String.length s).
Proof. revert s; induction n; intros [|c s]; simpl; auto. Qed.

Lemma lit_passes_on {R} (l : string) (prev : option ascii) (s : string) (cs : caps)
    (k : cont R) (x : R) :
  lit l prev s cs k = Some x -> passes_on (Lit l) s cs k x.
Proof.
  revert prev s; induction l as [|a l IH]; intros prev s H; simpl in H.
  - exists prev, s, cs. simpl. repeat split; [done | lia | auto].
  - destruct s as [|b s]; [done|]. destruct (Ascii.eqb a b); [|done].
    destruct (IH _ _ H) as (prev' & s' & cs' & Hk & Hlen & Hcs).
    exists prev', s', cs'. simpl in *. repeat split; [done | lia | auto].
Qed.

Lemma rep_passes_on {R} (p : ascii -> bool) (n : nat) (prev : option ascii) (s : string)
    (cs : caps) (k : cont R) (x : R) :
  rep p n prev s cs k = Some x -> passes_on (Rep p n) s cs k x.
Proof.
  revert n prev; induction s as [|c s IH]; intros n prev H; simpl in H.
  - destruct n; [|done]. exists prev, "", cs. simpl. repeat split; [done | lia | auto].
  - assert (Hstop : match n with 0%nat => k prev (String c s) cs | S _ => None end = Some x ->
                    passes_on (Rep p n) (String c s) cs k x).
    { destruct n; [|done]. intros Hk. exists prev, (String c s), cs.
      simpl. repeat split; [done | lia | auto]. }
    destruct (p c); [|auto].
    destruct (rep p (Nat.pred n) (Some c) s cs k) eqn:Hrep; [|auto].
    injection H as ->.
    destruct (IH _ _ Hrep) as (prev' & s' & cs' & Hk & Hlen & Hcs).
    exists prev', s', cs'. simpl in *. repeat split; [done | lia | auto].
Qed.

Lemma exec_passes_on {R} (r : regex) :
  forall (prev : option ascii) (s : string) (cs : caps) (k : cont R) (x : R),
    exec r prev s cs k = Some x -> passes_on r s cs k x.
Proof.
  induction r as [l | r1 IH1 r2 IH2 | r1 IH1 r2 IH2 | p | p n | i r IH | ];
    intros prev s cs k x H; cbn [exec] in H.
  - by apply (lit_passes_on l prev).
  - destruct (exec r1 prev s cs k) eqn:H1.
    + injection H as ->. destruct (IH1 _ _ _ _ _ H1) as (prev' & s' & cs' & Hk & Hlen & Hcs).
      exists prev', s', cs'. cbn [minlen groups_consume]. repeat split; [done | lia | tauto].
    + destruct (IH2 _ _ _ _ _ H) as (prev' & s' & cs' & Hk & Hlen & Hcs).
      exists prev', s', cs'. cbn [minlen groups_consume]. repeat split; [done | lia | tauto].
  - destruct (IH1 _ _ _ _ _ H) as (prev1 & s1 & cs1 & Hk1 & Hlen1 & Hcs1).
    destruct (IH2 _ _ _ _ _ Hk1) as (prev2 & s2 & cs2 & Hk2 & Hlen2 & Hcs2).
    exists prev2, s2, cs2. cbn [minlen groups_consume]. repeat split; [done | lia | tauto].
  - assert (Hskip : k prev s cs = Some x -> passes_on (Opt p) s cs k x).
    { intros Hk. exists prev, s, cs. simpl. repeat split; [done | lia | auto]. }
    destruct s as [|c s]; [auto|]. destruct (p c); [|auto].
    destruct (k (Some c) s cs) eqn:Hk; [|auto].
    injection H as ->. exists (Some c), s, cs. simpl. repeat split; [done | lia | auto].
  - by apply (rep_passes_on p n prev).
  - destruct (IH _ _ _ _ _ H) as (prev' & s' & cs' & Hk & Hlen & Hcs).
    eexists prev', s', _. cbn [minlen groups_consume]. repeat split; [exact Hk | lia |].
    intros [Hmin Hgr] Hok j name [Heq | Hin].
    + injection Heq as _ <-. apply take_nonempty; lia.
    + by apply (Hcs Hgr Hok j).
  - destruct (xorb _ _); [|done]. exists prev, s, cs.
    simpl. repeat split; [done | lia | auto].
Qed.

Lemma group_In (i : nat) (name : string) (cs : caps) :
  group i cs = Some name -> In (i, name) cs.
Proof.
  induction cs as [|[j t] cs IH]; cbn [group]; [done|].
  destruct (Nat.eqb_spec i j) as [<-|_].
  - intros [= ->]. by left.
  - intros H. right. auto.
Qed.

(** The groups of a match are not empty when each of them consumes. *)
Lemma match_here_groups (r : regex) (prev : option ascii) (s : string) (cs : caps) (n : nat) :
  groups_consume r ->
  match_here r prev s = Some (cs, n) ->
  forall i name, (1 <= i)%nat -> group i cs = Some name -> name <> "".
Proof.
  intros Hgr H. unfold match_here in H.
  destruct (exec_passes_on r _ _ _ _ _ H) as (prev' & s' & cs' & Hk & _ & Hcs).
  injection Hk as <- _. intros i name Hi Hg.
  destruct i as [|i]; [lia|]. cbn [group Nat.eqb] in Hg.
  apply (Hcs Hgr) with (i := S i); [by intros ? ? []|]. by apply group_In.
Qed.

Lemma search_from_groups (r : regex) (s : string) :
  groups_consume r ->
  forall (prev : option ascii) (cs : caps),
    search_from r prev s = Some cs ->
    forall i name, (1 <= i)%nat -> group i cs = Some name -> name <> "".
Proof.
  intros Hgr. induction s as [|c s IH]; intros prev cs H; simpl in H.
  - destruct (match_here r prev "") as [[cs0 n]|] eqn:Hm; [|done].
    injection H as ->. by apply (match_here_groups r prev "" cs n).
  - destruct (match_here r prev (String c s)) as [[cs0 n]|] eqn:Hm.
    + injection H as ->. by apply (match_here_groups r prev (String c s) cs n).
    + by apply (IH (Some c)).
Qed.

End matcher_facts.

(** ** The schema agent: the target schema *)

Section target_schema.

Import Re SchemaAgent Specified.

Variable schemas : list string.
Variable schema_cache : dict (dict (list string)).

Lemma schema_patterns_consume (pattern : regex) :
  In pattern schema_patterns -> groups_consume pattern.
Proof.
  intros [<- | [<- | [<- | []]]]; cbn [groups_consume minlen quoted_name]; repeat split; lia.
Qed.

Lemma first_known_schema_origin (patterns : list regex) (query_lower name : string) :
  (forall pattern, In pattern patterns -> groups_consume pattern) ->
  first_known_schema schemas patterns query_lower = Some name ->
  In name schemas /\ name <> "" /\
  exists before pattern after m,
    patterns = before ++ pattern :: after /\
    search pattern query_lower = Some m /\ group 1 m = Some name /\
    forall earlier, In earlier before -> names_no_schema schemas earlier query_lower.
Proof.
  induction patterns as [|pattern rest IH]; intros Hgr H; cbn [first_known_schema] in H; [done|].
  assert (Hrest : names_no_schema schemas pattern query_lower ->
                  first_known_schema schemas rest query_lower = Some name ->
                  In name schemas /\ name <> "" /\
                  exists before pattern0 after m,
                    pattern :: rest = before ++ pattern0 :: after /\
                    search pattern0 query_lower = Some m /\ group 1 m = Some name /\
                    forall earlier, In earlier before -> names_no_schema schemas earlier query_lower).
  { intros Hno H'. destruct IH as (H1 & H2 & before & p0 & after & m & -> & H4 & H5 & H6);
      [|done|].
    - intros p0 Hp0. apply Hgr. by right.
    - repeat split; [done | done |]. exists (pattern :: before), p0, after, m.
      repeat split; [done | done |]. intros earlier [<- | Hin]; [done | by apply H6]. }
  destruct (search pattern query_lower) as [m|] eqn:Hs;
    [|apply Hrest; [intros m' n' Hs'; congruence | done]].
  destruct (group 1 m) as [schema_name|] eqn:Hg;
    [|apply Hrest; [intros m' n' Hs' Hg'; congruence | done]].
  destruct (PyStr.mem schema_name schemas) eqn:Hm.
  - injection H as ->. split; [by apply mem_spec|]. split.
    + apply (search_from_groups pattern query_lower (Hgr pattern (or_introl eq_refl))
               None m Hs 1 name); [lia | done].
    + exists [], pattern, rest, m. repeat split; [done | done | by intros ? []].
  - apply Hrest; [|done]. intros m' n' Hs' Hn'.
    assert (n' = schema_name) as -> by congruence.
    rewrite <- mem_spec. congruence.
Qed.

Lemma first_known_schema_none (patterns : list regex) (query_lower : string) :
  first_known_schema schemas patterns query_lower = None ->
  forall pattern, In pattern patterns -> names_no_schema schemas pattern query_lower.
Proof.
  induction patterns as [|pattern rest IH]; intros H p0 Hin; cbn [first_known_schema] in H;
    [done|].
  destruct Hin as [<- | Hin].
  - intros m name Hs Hg. rewrite Hs, Hg in H.
    destruct (PyStr.mem name schemas) eqn:Hm; [done|].
    rewrite <- mem_spec. congruence.
  - apply IH; [|done].
    destruct (search pattern query_lower) as [m|]; [|done].
    destruct (group 1 m) as [name|]; [|done].
    by destruct (PyStr.mem name schemas).
Qed.

Lemma _extract_schema_from_query_origin (q name : string) :
  _extract_schema_from_query schemas q = Some name ->
  In name schemas /\ name <> "" /\
  exists before pattern after m,
    schema_patterns = before ++ pattern :: after /\
    search pattern (PyStr.lower q) = Some m /\ group 1 m = Some name /\
    forall earlier, In earlier before -> names_no_schema schemas earlier (PyStr.lower q).
Proof. apply first_known_schema_origin, schema_patterns_consume. Qed.

(** C2, as the code has it: schema resolution returns (it never raises);
    the selected schema is the hint whenever the hint is present and not
    empty, whether or not it is a known schema; otherwise it is the name
    extracted from the request, which is a known schema and is the name in
    the leftmost match of the first of the three patterns, in their order,
    whose leftmost match names a known schema (and no name is extracted
    when there is no such pattern); otherwise it is the first known schema;
    and with an empty catalog and no hint there is none. *)
Theorem selected_schema_resolution (q : string) (context : Context) (w : World) :
  let r := schema_selection schemas schema_cache q context in
  (exists w', get_schema_info schemas schema_cache q context w = (Returned r, w')) /\
  selected_schema r =
    (if truthy (suggested_schema context) then suggested_schema context
     else match _extract_schema_from_query schemas q with
          | Some name => Some name
          | None => head schemas
          end) /\
  (forall name, _extract_schema_from_query schemas q = Some name ->
     In name schemas /\
     exists before pattern after m,
       schema_patterns = before ++ pattern :: after /\
       search pattern (PyStr.lower q) = Some m /\ group 1 m = Some name /\
       forall earlier, In earlier before -> names_no_schema schemas earlier (PyStr.lower q)) /\
  (_extract_schema_from_query schemas q = None ->
     forall pattern, In pattern schema_patterns -> names_no_schema schemas pattern (PyStr.lower q)) /\
  (schemas = [] -> truthy (suggested_schema context) = false -> selected_schema r = None).
Proof.
  intros r.
  assert (Hsel : selected_schema r =
    (if truthy (suggested_schema context) then suggested_schema context
     else match _extract_schema_from_query schemas q with
          | Some name => Some name
          | None => head schemas
          end)).
  { subst r. unfold schema_selection. cbn [selected_schema]. unfold or_str.
    destruct (truthy (suggested_schema context)) eqn:Hhint.
    - rewrite Hhint. by destruct schemas.
    - destruct (_extract_schema_from_query schemas q) as [name|] eqn:Hex.
      + apply _extract_schema_from_query_origin in Hex as (_ & Hne & _).
        apply String.eqb_neq in Hne. cbn [truthy]. rewrite Hne. by destruct schemas.
      + by destruct schemas. }
  split; [by eexists|]. split; [exact Hsel|]. split; [|split].
  - intros name Hex. apply _extract_schema_from_query_origin in Hex as (H1 & _ & H2). done.
  - apply first_known_schema_none.
  - intros Hnil Hhint. rewrite Hsel, Hhint.
    destruct (_extract_schema_from_query schemas q) as [name|] eqn:Hex.
    + apply _extract_schema_from_query_origin in Hex as (Hin & _). rewrite Hnil in Hin. done.
    + by rewrite Hnil.
Qed.

End target_schema.

(** An empty catalog and a request without a hint: no schema is selected. *)
Lemma selected_schema_resolution_witness :
  selected_schema (SchemaAgent.schema_selection [] [] "list customers"
                     (mkContext (Some "list customers") None None None None None)) = None.
Proof.
  apply (selected_schema_resolution [] [] "list customers"
           (mkContext (Some "list customers") None None None None None) (mkWorld [] []));
    reflexivity.
Defined.

(** C2 (counterexample): with the catalog [SALES] and the hint [hr], which
    is not a known schema, the code selects [hr], where the specification
    selects the first known schema. *)
Lemma selected_schema_unknown_hint :
  let context := mkContext (Some "list customers") (Some "hr") None None None None in
  selected_schema (SchemaAgent.schema_selection ["SALES"] [] "list customers" context)
    = Some "hr" /\
  Specified.specified_schema ["SALES"] "list customers" (suggested_schema context)
    = Some "SALES" /\
  selected_schema (SchemaAgent.schema_selection ["SALES"] [] "list customers" context)
    <> Specified.specified_schema ["SALES"] "list customers" (suggested_schema context).
Proof. repeat split; try reflexivity. vm_compute. discriminate. Qed.

(** ** The order of the ranking *)

Section ranking_order.

Import SchemaAgent Specified.

Lemma ascii_compare_lt_trans (a b c : ascii) :
  Ascii.compare a b = Lt -> Ascii.compare b c = Lt -> Ascii.compare a c = Lt.
Proof. unfold Ascii.compare. rewrite !N.compare_lt_iff. lia. Qed.

Lemma string_compare_lt_trans (a : string) :
  forall b c, String.compare a b = Lt -> String.compare b c = Lt -> String.compare a c = Lt.
Proof.
  induction a as [|x a IH]; intros [|y b] [|z c]; simpl; try done.
  destruct (Ascii.compare x y) eqn:Hxy; try done.
  - apply Ascii.compare_eq_iff in Hxy as ->.
    destruct (Ascii.compare y z); try done. apply IH.
  - destruct (Ascii.compare y z) eqn:Hyz; try done.
    + apply Ascii.compare_eq_iff in Hyz as <-. by rewrite Hxy.
    + by rewrite (ascii_compare_lt_trans x y z).
Qed.

Lemma string_compare_refl (a : string) : String.compare a a = Eq.
Proof.
  induction a as [|x a IH]; simpl; [done|].
  assert (Ascii.compare x x = Eq) as -> by (unfold Ascii.compare; apply N.compare_refl).
  done.
Qed.

Lemma string_ltb_irrefl (a : string) : String.ltb a a = false.
Proof. unfold String.ltb. by rewrite string_compare_refl. Qed.

Lemma string_ltb_trans (a b c : string) :
  String.ltb a b = true -> String.ltb b c = true -> String.ltb a c = true.
Proof.
  unfold String.ltb.
  destruct (String.compare a b) eqn:Hab; try done.
  destruct (String.compare b c) eqn:Hbc; try done.
  by rewrite (string_compare_lt_trans a b c).
Qed.

Lemma string_ltb_total (a b : string) :
  String.ltb a b = true \/ a = b \/ String.ltb b a = true.
Proof.
  unfold String.ltb. rewrite (String.compare_antisym b a).
  destruct (String.compare a b) eqn:Hab; simpl; auto.
  right; left. by apply String.compare_eq_iff.
Qed.

Lemma tuple_lt_spec (a b : Q * string) :
  tuple_lt a b = true <->
  (fst a < fst b)%Q \/ ((fst a == fst b)%Q /\ String.ltb (snd a) (snd b) = true).
Proof.
  unfold tuple_lt. destruct (Qcompare_spec (fst a) (fst b)) as [H|H|H]; split.
  - auto.
  - intros [Hlt | [_ Hs]]; [|done]. rewrite H in Hlt. by apply Qlt_irrefl in Hlt.
  - auto.
  - done.
  - done.
  - intros [Hlt | [Heq _]].
    + exfalso. apply (Qlt_irrefl (fst a)). by apply Qlt_trans with (fst b).
    + rewrite Heq in H. by apply Qlt_irrefl in H.
Qed.

Lemma ranked_before_spec (a b : Q * string) : ranked_before a b <-> tuple_lt b a = true.
Proof.
  rewrite tuple_lt_spec. unfold ranked_before. split.
  - intros [H | [H1 H2]]; [by left | right]. split; [by symmetry | done].
  - intros [H | [H1 H2]]; [by left | right]. split; [by symmetry | done].
Qed.

Lemma tuple_lt_trans (a b c : Q * string) :
  tuple_lt a b = true -> tuple_lt b c = true -> tuple_lt a c = true.
Proof.
  rewrite !tuple_lt_spec. intros [H1 | [H1 H1']] [H2 | [H2 H2']].
  - left. by apply Qlt_trans with (fst b).
  - left. by rewrite <- H2.
  - left. by rewrite H1.
  - right. split; [by rewrite H1 | by apply string_ltb_trans with (snd b)].
Qed.

Lemma tuple_lt_total (a b : Q * string) :
  tuple_lt a b = true \/ ((fst a == fst b)%Q /\ snd a = snd b) \/ tuple_lt b a = true.
Proof.
  rewrite !tuple_lt_spec.
  destruct (Qcompare_spec (fst a) (fst b)) as [H|H|H]; [|by left; left|by right; right; left].
  destruct (string_ltb_total (snd a) (snd b)) as [Hs | [Hs | Hs]].
  - left. by right.
  - right; left. done.
  - right; right; right. split; [by symmetry | done].
Qed.

Lemma tuple_lt_irrefl (a b : Q * string) :
  (fst a == fst b)%Q -> snd a = snd b -> tuple_lt a b = false.
Proof.
  intros H1 H2. apply not_true_is_false. rewrite tuple_lt_spec. intros [H | [_ H]].
  - rewrite H1 in H. by apply Qlt_irrefl in H.
  - rewrite H2 in H. by rewrite string_ltb_irrefl in H.
Qed.

#[global] Instance tuple_ge_total : Total tuple_ge.
Proof.
  intros a b. unfold tuple_ge.
  destruct (tuple_lt a b) eqn:Hab; [|by left]. right.
  destruct (tuple_lt b a) eqn:Hba; [|done].
  pose proof (tuple_lt_trans a b a Hab Hba) as H.
  by rewrite tuple_lt_irrefl in H.
Qed.

#[global] Instance tuple_ge_trans : Transitive tuple_ge.
Proof.
  intros a b c. unfold tuple_ge. intros Hab Hbc.
  destruct (tuple_lt a c) eqn:Hac; [|done]. exfalso.
  destruct (tuple_lt_total b a) as [H | [[H1 H2] | H]].
  - pose proof (tuple_lt_trans b a c H Hac). congruence.
  - destruct (tuple_lt_total b c) as [H | [[H3 H4] | H]]; [congruence| |].
    + assert (tuple_lt a c = false); [|congruence].
      apply tuple_lt_irrefl; [by rewrite <- H1 | congruence].
    + pose proof (tuple_lt_trans a c b Hac H) as H'.
      rewrite tuple_lt_irrefl in H'; [done | by symmetry | done].
  - congruence.
Qed.

End ranking_order.

(** ** The schema agent: inferred tables *)

Section inferred_tables.

Import SchemaAgent Specified.

Lemma scored_names (words tables : list string) :
  map snd (scored words tables) `sublist_of` tables.
Proof.
  unfold scored. induction tables as [|t tables IH]; cbn [omap list_omap]; [constructor|].
  destruct (score_table words t); cbn [fmap option_fmap option_map map snd].
  - by constructor.
  - by constructor.
Qed.


Lemma ranked_strictly (l : list (Q * string)) :
  StronglySorted tuple_ge l -> NoDup (map snd l) -> StronglySorted ranked_before l.
Proof.
  induction 1 as [|x l Hl IH Hx]; intros Hnd; cbn [map] in Hnd; constructor.
  - apply IH. by apply NoDup_cons_1_2 in Hnd.
  - apply NoDup_cons_1_1 in Hnd.
    apply List.Forall_forall. intros y Hy.
    pose proof (proj1 (List.Forall_forall _ _) Hx y Hy) as Hge.
    apply ranked_before_spec.
    destruct (tuple_lt_total y x) as [H | [[_ H] | H]]; [done | | unfold tuple_ge in Hge; congruence].
    exfalso. apply Hnd. apply list_elem_of_In. rewrite <- H.
    by apply in_map.
Qed.

(** The ranking is the strictly ordered arrangement of the scored tables,
    cut at the threshold and at three. *)
Lemma rank_ordered (items : list (Q * string)) :
  NoDup (map snd items) ->
  exists ranked,
    ranked ≡ₚ items /\ StronglySorted ranked_before ranked /\
    rank items = take 3 (map snd (List.filter relevant ranked)).
Proof.
  intros Hnd. exists (merge_sort tuple_ge items). split; [apply merge_sort_Permutation|].
  split; [|done].
  apply ranked_strictly; [apply StronglySorted_merge_sort; apply _|].
  assert (Hp : map snd (merge_sort tuple_ge items) ≡ₚ map snd items)
    by apply Permutation_map, merge_sort_Permutation.
  by rewrite Hp.
Qed.

(** The order in which the tables are enumerated does not matter. *)
Lemma rank_enumeration (l1 l2 : list (Q * string)) :
  l1 ≡ₚ l2 -> NoDup (map snd l1) -> rank l1 = rank l2.
Proof.
  intros Hp Hnd. unfold rank. do 3 f_equal.
  apply (StronglySorted_unique_strong tuple_ge).
  - intros x1 x2 H1 H2 Hge1 Hge2. unfold tuple_ge in *.
    destruct (tuple_lt_total x1 x2) as [H | [[_ H] | H]]; [congruence | | congruence].
    apply list_elem_of_In in H1, H2.
    apply (Permutation_in _ (merge_sort_Permutation tuple_ge l1)) in H1.
    apply (Permutation_in _ (merge_sort_Permutation tuple_ge l2)) in H2.
    apply (Permutation_in _ (Permutation_sym Hp)) in H2.
    clear -H H1 H2 Hnd. induction l1 as [|y l IH]; [done|].
    cbn [map] in Hnd. pose proof (NoDup_cons_1_1 _ _ Hnd) as Hy.
    pose proof (NoDup_cons_1_2 _ _ Hnd) as Hl.
    rewrite list_elem_of_In in Hy.
    destruct H1 as [<- | H1], H2 as [<- | H2]; [done | | | by apply IH].
    + exfalso. apply Hy. rewrite H. by apply in_map.
    + exfalso. apply Hy. rewrite <- H. by apply in_map.
  - apply StronglySorted_merge_sort; apply _.
  - apply StronglySorted_merge_sort; apply _.
  - by rewrite !merge_sort_Permutation.
Qed.


Lemma scored_NoDup (words tables : list string) :
  NoDup (map snd (scored words (remove_dups tables))).
Proof.
  apply (sublist_NoDup _ (remove_dups tables)); [apply NoDup_remove_dups | apply scored_names].
Qed.


(** The ranking behind [_infer_tables_from_query] for a known schema. *)
Lemma infer_tables_ranking_helper (schema_cache : dict (dict (list string)))
    (q schema_name : string) (tables : dict (list string)) :
  schema_name <> "" ->
  dict_get schema_name schema_cache = Some tables ->
  exists ranked,
    ranked ≡ₚ scored (query_words q) (remove_dups (dict_keys tables)) /\
    StronglySorted ranked_before ranked /\
    _infer_tables_from_query schema_cache q (Some schema_name)
    = take 3 (map snd (List.filter relevant ranked)).
Proof.
  intros Hne Hget. unfold _infer_tables_from_query.
  apply String.eqb_neq in Hne. rewrite Hne, Hget.
  apply rank_ordered, scored_NoDup.
Qed.

(** C3, as the code has it: for a known schema, the inferred tables are
    the first three, at most, of the tables scoring at least 0.5, taken in
    the order of descending score in which tables of equal score come in
    descending order of their names (the tuples [(score, table)] are sorted
    in reverse); the position of a table in the catalog plays no part. *)
Theorem infer_tables_ranking (schema_cache : dict (dict (list string)))
    (q schema_name : string) (tables : dict (list string)) :
  schema_name <> "" ->
  dict_get schema_name schema_cache = Some tables ->
  exists ranked,
    ranked ≡ₚ scored (query_words q) (remove_dups (dict_keys tables)) /\
    StronglySorted ranked_before ranked /\
    _infer_tables_from_query schema_cache q (Some schema_name)
    = take 3 (map snd (List.filter relevant ranked)).
Proof.
  intros Hne Hget. unfold _infer_tables_from_query.
  apply String.eqb_neq in Hne. rewrite Hne, Hget.
  apply rank_ordered, scored_NoDup.
Qed.

End inferred_tables.

(** Two tables named as they are in the request. *)
Lemma infer_tables_ranking_witness :
  exists ranked,
    ranked ≡ₚ SchemaAgent.scored (SchemaAgent.query_words "items orders")
                (remove_dups (dict_keys [("ITEMS", [] : list string); ("ORDERS", [])])) /\
    StronglySorted Specified.ranked_before ranked /\
    SchemaAgent._infer_tables_from_query [("S", [("ITEMS", []); ("ORDERS", [])])]
      "items orders" (Some "S")
    = take 3 (map snd (List.filter Specified.relevant ranked)).
Proof.
  apply (infer_tables_ranking [("S", [("ITEMS", []); ("ORDERS", [])])] "items orders" "S"
           [("ITEMS", []); ("ORDERS", [])]).
  - discriminate.
  - reflexivity.
Defined.

(** C3 (counterexample): the catalog enumerates [ITEMS] before [ORDERS],
    both are tokens of the request and score 1.0; the code returns
    [ORDERS] first, the specification [ITEMS]. *)
Lemma infer_tables_tie_order :
  let schema_cache := [("S", [("ITEMS", [] : list string); ("ORDERS", [])])] in
  SchemaAgent.scored (SchemaAgent.query_words "items orders") ["ITEMS"; "ORDERS"]
    = [(1%Q, "ITEMS"); (1%Q, "ORDERS")] /\
  SchemaAgent._infer_tables_from_query schema_cache "items orders" (Some "S")
    = ["ORDERS"; "ITEMS"] /\
  Specified.specified_inference schema_cache "items orders" "S" = ["ITEMS"; "ORDERS"] /\
  SchemaAgent._infer_tables_from_query schema_cache "items orders" (Some "S")
    <> Specified.specified_inference schema_cache "items orders" "S".
Proof. repeat split; try (vm_compute; reflexivity). vm_compute. discriminate. Qed.

(** ** The schema agent: selected tables *)

Section selected_tables_facts.

Import SchemaAgent.


End selected_tables_facts.



(** ** The schema agent: the partial-overlap score *)

Section partial_overlap.

Import SchemaAgent Specified.

Lemma py_max_cases (a b : Q) :
  (py_max a b = a /\ (b <= a)%Q) \/ (py_max a b = b /\ (a < b)%Q).
Proof.
  unfold py_max. destruct (Qcompare_spec a b) as [H|H|H].
  - left. split; [done|]. rewrite H. apply Qle_refl.
  - by right.
  - left. split; [done|]. by apply Qlt_le_weak.
Qed.

Lemma token_over_longer_nonneg (table_lower word : string) :
  (0 <= token_over_longer table_lower word)%Q.
Proof.
  unfold token_over_longer, Qdiv.
  assert (Hnat : forall n : nat, (0 <= inject_Z (Z.of_nat n))%Q).
  { intros n. unfold Qle. simpl. lia. }
  apply Qmult_le_0_compat; [|done].
  apply Qmult_le_0_compat; [apply Hnat|].
  apply Qinv_le_0_compat, Hnat.
Qed.

Lemma overlaps_spec (table_lower word : string) :
  PyStr.contains table_lower word || PyStr.contains word table_lower = true <->
  overlaps table_lower word.
Proof. rewrite orb_true_iff, !contains_spec. done. Qed.

(** The partial-match loop from the entry [acc] on. *)
Lemma partial_fold (table_lower : string) (words : list string) :
  forall acc : option Q,
    (0 <= default 0 acc)%Q ->
    match fold_left (partial_step table_lower) words acc with
    | Some m =>
        (default 0 acc <= m)%Q /\
        (forall word, In word words -> overlaps table_lower word ->
                      (token_over_longer table_lower word <= m)%Q) /\
        (acc = Some m \/
         exists word, In word words /\ overlaps table_lower word /\
                      (m == token_over_longer table_lower word)%Q)
    | None => acc = None /\ forall word, In word words -> ~ overlaps table_lower word
    end.
Proof.
  induction words as [|word rest IH]; intros acc Hacc; cbn [fold_left].
  - destruct acc as [m|]; [|by split].
    repeat split; [apply Qle_refl | by intros ? [] | by left].
  - unfold partial_step at 2.
    destruct (PyStr.contains table_lower word || PyStr.contains word table_lower) eqn:Hov.
    + apply overlaps_spec in Hov.
      fold (token_over_longer table_lower word).
      set (a := default 0%Q acc) in *. set (f := token_over_longer table_lower word).
      pose proof (token_over_longer_nonneg table_lower word) as Hf. fold f in Hf.
      assert (Hmax : (a <= py_max a f)%Q /\ (f <= py_max a f)%Q).
      { destruct (py_max_cases a f) as [[-> H] | [-> H]].
        - split; [apply Qle_refl | done].
        - split; [by apply Qlt_le_weak | apply Qle_refl]. }
      destruct Hmax as [Ha Hfm].
      assert (Hpos : (0 <= py_max a f)%Q) by (by apply Qle_trans with a).
      specialize (IH (Some (py_max a f)) Hpos). cbn [default from_option] in IH.
      unfold id in IH.
      destruct (fold_left (partial_step table_lower) rest (Some (py_max a f))) as [m|].
      * destruct IH as (H1 & H2 & H3).
        split; [by apply Qle_trans with (py_max a f)|]. split.
        -- intros w [<- | Hw] Hw'; [by apply Qle_trans with (py_max a f) | by apply H2].
        -- destruct H3 as [[= <-] | (w & Hw & Hw' & Hm)].
           ++ destruct (py_max_cases a f) as [[-> H] | [-> H]].
              ** destruct acc as [m0|]; [by left|]. right. exists word.
                 split; [by left|]. split; [done|]. subst a. cbn in *.
                 by apply Qle_antisym.
              ** right. exists word. split; [by left|]. by split.
           ++ right. exists w. split; [by right|]. by split.
      * by destruct IH as [IH _].
    + specialize (IH acc Hacc).
      assert (Hno : ~ overlaps table_lower word).
      { intros H. apply overlaps_spec in H. congruence. }
      destruct (fold_left (partial_step table_lower) rest acc) as [m|].
      * destruct IH as (H1 & H2 & H3). split; [done|]. split.
        -- intros w [<- | Hw] Hw'; [done | by apply H2].
        -- destruct H3 as [H3 | (w & Hw & Hw' & Hm)]; [by left|].
           right. exists w. split; [by right|]. by split.
      * destruct IH as [H1 H2]. split; [done|].
        intros w [<- | Hw]; [done | by apply H2].
Qed.

(** C4, as the code has it: for a table without an exact or a singular or
    plural match among the tokens of a request, and with a token that
    overlaps its name, the score is the maximum over the overlapping tokens
    of (length of the token / length of the longer of token and name) times
    0.8: a token that contains the name scores 0.8 whatever its length. *)
Theorem partial_overlap_score (q table : string) :
  let words := query_words q in
  let table_lower := PyStr.lower table in
  no_name_match table_lower words ->
  (exists word, In word words /\ overlaps table_lower word) ->
  exists m, score_table words table = Some m /\
            maximum_over (token_over_longer table_lower) table_lower words m.
Proof.
  intros words table_lower (H1 & H2 & H3) (word & Hin & Hov).
  unfold score_table. fold table_lower.
  rewrite <- mem_spec in H1, H2, H3.
  apply not_true_is_false in H1, H2, H3. rewrite H1, H2, H3. cbn [orb].
  pose proof (partial_fold table_lower words None (Qle_refl 0)) as Hfold.
  destruct (fold_left (partial_step table_lower) words None) as [m|].
  - destruct Hfold as (_ & Hle & [Habs | Hex]); [done|].
    exists m. split; [done|]. by split.
  - destruct Hfold as [_ Hno]. by destruct (Hno word Hin).
Qed.

End partial_overlap.

(** The table [ORDER] against the request [show me the ordering list]:
    the token [ordering] contains the name. *)
Lemma partial_overlap_score_witness :
  exists m, SchemaAgent.score_table (SchemaAgent.query_words "show me the ordering list") "ORDER"
            = Some m /\
            Specified.maximum_over (Specified.token_over_longer "order") "order"
              (SchemaAgent.query_words "show me the ordering list") m.
Proof.
  apply (partial_overlap_score "show me the ordering list" "ORDER").
  - repeat split; vm_compute; intuition discriminate.
  - exists "ordering". split; [vm_compute; auto|].
    left. exists "", "ing". reflexivity.
Defined.

(** C4 (counterexample): the table [ORD] against the token [ordinary],
    which contains the name: the code scores 0.8, the specification
    (3 / 8) * 0.8. *)
Lemma partial_overlap_longer_token :
  let words := SchemaAgent.query_words "ordinary" in
  Specified.no_name_match "ord" words /\
  Specified.overlaps "ord" "ordinary" /\
  SchemaAgent.score_table words "ORD" = Some (32 # 40)%Q /\
  ~ (exists m, SchemaAgent.score_table words "ORD" = Some m /\
               Specified.maximum_over (Specified.shorter_over_longer "ord") "ord" words m).
Proof.
  intros words. split; [repeat split; vm_compute; intuition discriminate|].
  split; [left; exists "", "inary"; reflexivity|].
  split; [vm_compute; reflexivity|].
  intros (m & Hm & (w & Hin & _ & Heq) & _).
  vm_compute in Hm. injection Hm as <-.
  vm_compute in Hin. destruct Hin as [<- | []].
  vm_compute in Heq. discriminate.
Qed.

(** ** The discrepancy agent: duplicates *)

Section duplicates.

Import DiscrepancyAgent Specified.

Lemma first_row_with_snoc (field : string) (v : cell) (pre : list row) (r : row) :
  first_row_with field v (pre ++ [r]) =
  match first_row_with field v pre with
  | Some first => Some first
  | None => if decide (row_get field r = v) then Some (length pre) else None
  end.
Proof.
  unfold first_row_with.
  destruct (list_find (fun r0 => row_get field r0 = v) pre) as [[i x]|] eqn:Hfind.
  - by rewrite (list_find_app_l _ _ _ _ _ Hfind).
  - rewrite (list_find_app_r _ _ _ Hfind). cbn [list_find].
    destruct (decide (row_get field r = v)); cbn; [f_equal; lia | done].
Qed.

Lemma scan_duplicates_positions (field : string) (rest : list row) :
  forall (pre : list row) (seen : gmap cell nat),
    (forall v, seen !! v = first_row_with field v pre) ->
    scan_duplicates field (length pre) seen rest =
    omap (duplicate_at any_value field (pre ++ rest)) (seq (length pre) (length rest)).
Proof.
  induction rest as [|r rest IH]; intros pre seen Hinv; [done|].
  cbn [scan_duplicates length seq omap list_omap].
  assert (Hat : duplicate_at any_value field (pre ++ r :: rest) (length pre) =
                (fun first => duplicate_record field (row_get field r) first (length pre))
                  <$> seen !! row_get field r).
  { unfold duplicate_at. rewrite list_lookup_middle by done.
    cbn [any_value]. by rewrite take_app_length, Hinv. }
  rewrite Hat. clear Hat.
  assert (Hrest : forall seen', (forall v, seen' !! v = first_row_with field v (pre ++ [r])) ->
            scan_duplicates field (S (length pre)) seen' rest =
            omap (duplicate_at any_value field (pre ++ r :: rest))
                 (seq (S (length pre)) (length rest))).
  { intros seen' Hinv'. specialize (IH (pre ++ [r]) seen' Hinv').
    rewrite length_app, Nat.add_1_r, <- app_assoc in IH. exact IH. }
  destruct (seen !! row_get field r) as [first|] eqn:Hseen; cbn [fmap option_fmap option_map].
  - f_equal. apply Hrest. intros v. rewrite first_row_with_snoc, <- Hinv.
    destruct (seen !! v) eqn:Hv; [done|].
    destruct (decide (row_get field r = v)) as [<-|]; [congruence | done].
  - apply Hrest. intros v. rewrite first_row_with_snoc, <- Hinv.
    destruct (decide (row_get field r = v)) as [<-|Hne].
    + by rewrite lookup_insert_eq, Hseen.
    + rewrite lookup_insert_ne by done. by destruct (seen !! v).
Qed.

Lemma duplicate_checks_positions (data : list row) (field : string) :
  duplicate_checks data field =
  if present field data then duplicates_by_position any_value field data else [].
Proof.
  unfold duplicate_checks, present. destruct data as [|first_row rest]; [done|].
  destruct (dict_mem field first_row); [|done].
  apply (scan_duplicates_positions field (first_row :: rest) [] ∅).
  intros v. by rewrite lookup_empty.
Qed.

(** C5, as the code has it: for each of the key fields id, code, key that
    is a column of the first row, the duplicate check emits, row by row,
    one [duplicate_value] record of high severity for every row whose value
    for the field (a missing value and [None] included) is the value of an
    earlier row, with the index of the first such row and of the current
    row, the field and the value; and for the rows
    [{id: 1}, {id: 2}, {id: 1}] the generic checks emit exactly one record,
    with the row indices 0 and 2. *)
Theorem duplicate_check_records (data : list row) (info : option SchemaInfo) :
  _apply_generic_checks data info =
    null_checks 0 data ++
    flat_map (fun field => if present field data
                           then duplicates_by_position any_value field data else [])
             primary_fields /\
  _apply_generic_checks [[("id", CInt 1)]; [("id", CInt 2)]; [("id", CInt 1)]] info =
    [ PDict [ ("type", PStr "duplicate_value");
              ("severity", PStr "high");
              ("message", PStr "Duplicate value '1' in field 'id' at rows 1 and 3");
              ("row_indices", PList [PInt 0; PInt 2]);
              ("fields", PList [PStr "id"]);
              ("value", PInt 1) ] ].
Proof.
  split; [|vm_compute; reflexivity].
  unfold _apply_generic_checks. f_equal.
  unfold primary_fields. cbn [flat_map]. by rewrite !duplicate_checks_positions.
Qed.

End duplicates.

(** C5 (counterexample): two rows whose id is [None]: the second is
    reported as a duplicate of the first, although no value other than
    [None] has been seen. *)
Lemma duplicate_check_null_values :
  let data := [[("id", CNone)]; [("id", CNone)]] in
  DiscrepancyAgent.duplicate_checks data "id"
    = [DiscrepancyAgent.duplicate_record "id" CNone 0 1] /\
  Specified.duplicates_by_position Specified.non_null "id" data = [] /\
  DiscrepancyAgent.duplicate_checks data "id"
    <> Specified.duplicates_by_position Specified.non_null "id" data.
Proof. repeat split; try (vm_compute; reflexivity). vm_compute. discriminate. Qed.

(** ** The tokens of a request and their order *)

Section tokens.

Import Re SchemaAgent Specified.

Lemma match_here_whole (r : regex) (prev : option ascii) (s : string) (cs : caps) (n : nat) :
  match_here r prev s = Some (cs, n) ->
  group 0 cs = Some (PyStr.take n s) /\ (minlen r <= n <= String.length s)%nat.
Proof.
  intros H. unfold match_here in H.
  destruct (exec_passes_on r _ _ _ _ _ H) as (prev' & s' & cs' & Hk & Hlen & _).
  injection Hk as <- <-. split; [done | lia].
Qed.

Lemma finditer_from_whole (r : regex) (s : string) :
  forall (prev : option ascii) (skip : nat) (cs : caps),
    In cs (finditer_from r prev s skip) ->
    exists w, group 0 cs = Some w /\ (minlen r <= String.length w)%nat.
Proof.
  assert (Hhere : forall prev s0 cs n, match_here r prev s0 = Some (cs, n) ->
            exists w, group 0 cs = Some w /\ (minlen r <= String.length w)%nat).
  { intros prev s0 cs n H. apply match_here_whole in H as [H1 H2].
    exists (PyStr.take n s0). split; [done|]. rewrite take_length. lia. }
  induction s as [|c s IH]; intros prev skip cs Hin.
  - destruct skip; cbn [finditer_from] in Hin; [|done].
    destruct (match_here r prev "") as [[cs0 n]|] eqn:Hm; [|done].
    destruct Hin as [<- | []]. by apply (Hhere prev "" cs0 n).
  - destruct skip; cbn [finditer_from] in Hin; [|by apply (IH (Some c) skip)].
    destruct (match_here r prev (String c s)) as [[cs0 n]|] eqn:Hm.
    + destruct Hin as [<- | Hin]; [by apply (Hhere prev (String c s) cs0 n)|].
      by apply (IH (Some c) (Nat.pred n)).
    + by apply (IH (Some c) 0%nat).
Qed.

(** Every token has at least three characters, so that the division in
    the similarity of [partial_step] is by a positive length. *)
Lemma query_words_long (q word : string) :
  In word (query_words q) -> (3 <= String.length word)%nat.
Proof.
  unfold query_words, findall, finditer. rewrite <- list_elem_of_In, elem_of_remove_dups.
  intros (cs & Hcs & Hg)%list_elem_of_omap.
  apply list_elem_of_In, finditer_from_whole in Hcs as (w & Hw & Hlen).
  assert (w = word) as -> by congruence. exact Hlen.
Qed.

Lemma mem_Permutation (x : string) (l1 l2 : list string) :
  l1 ≡ₚ l2 -> PyStr.mem x l1 = PyStr.mem x l2.
Proof.
  intros Hp. destruct (PyStr.mem x l2) eqn:H2.
  - apply mem_spec. apply mem_spec in H2. by apply (Permutation_in _ (Permutation_sym Hp)).
  - apply not_true_is_false. intros H1. apply mem_spec in H1.
    apply (Permutation_in _ Hp), mem_spec in H1. congruence.
Qed.

(** The tokens are a set in the source: the order in which the loop goes
    through them does not change the score. *)
Lemma score_table_word_order (words1 words2 : list string) (table : string) :
  words1 ≡ₚ words2 ->
  match score_table words1 table, score_table words2 table with
  | Some a, Some b => (a == b)%Q
  | None, None => True
  | _, _ => False
  end.
Proof.
  intros Hp. unfold score_table.
  rewrite !(mem_Permutation _ words1 words2 Hp).
  destruct (PyStr.mem (PyStr.lower table) words2); [done|].
  destruct (_ || _); [done|].
  pose proof (partial_fold (PyStr.lower table) words1 None (Qle_refl 0)) as H1.
  pose proof (partial_fold (PyStr.lower table) words2 None (Qle_refl 0)) as H2.
  destruct (fold_left (partial_step (PyStr.lower table)) words1 None) as [m1|],
           (fold_left (partial_step (PyStr.lower table)) words2 None) as [m2|].
  - destruct H1 as (_ & Hle1 & [? | (w1 & Hin1 & Hov1 & Heq1)]); [done|].
    destruct H2 as (_ & Hle2 & [? | (w2 & Hin2 & Hov2 & Heq2)]); [done|].
    apply Qle_antisym.
    + rewrite Heq1. apply Hle2; [by apply (Permutation_in _ Hp) | done].
    + rewrite Heq2. apply Hle1; [by apply (Permutation_in _ (Permutation_sym Hp)) | done].
  - destruct H1 as (_ & _ & [? | (w1 & Hin1 & Hov1 & _)]); [done|].
    destruct H2 as [_ H2]. apply (H2 w1); [by apply (Permutation_in _ Hp) | done].
  - destruct H2 as (_ & _ & [? | (w2 & Hin2 & Hov2 & _)]); [done|].
    destruct H1 as [_ H1].
    apply (H1 w2); [by apply (Permutation_in _ (Permutation_sym Hp)) | done].
  - done.
Qed.

End tokens.

(** * Further properties of the sources *)

(** ** The matcher is sound for the meaning of the patterns *)

Section matcher_soundness.

Import Re ReSem.

Lemma append_cons (x : ascii) (a b : string) :
  String.append (String x a) b = String x (String.append a b).
Proof. reflexivity. Qed.

Lemma append_length (a b : string) :
  String.length (String.append a b) = (String.length a + String.length b)%nat.
Proof. induction a as [|c a IH]; [done | rewrite append_cons; simpl; by rewrite IH]. Qed.

Lemma append_assoc (a b c : string) :
  String.append (String.append a b) c = String.append a (String.append b c).
Proof. induction a as [|x a IH]; [done | rewrite !append_cons; by f_equal]. Qed.

Lemma append_empty_r (a : string) : String.append a "" = a.
Proof. induction a as [|x a IH]; [done | rewrite append_cons; by f_equal]. Qed.

Lemma take_append (w rest : string) :
  PyStr.take (String.length (String.append w rest) - String.length rest) (String.append w rest)
  = w.
Proof.
  rewrite append_length.
  replace (String.length w + String.length rest - String.length rest)%nat
    with (String.length w) by lia.
  induction w as [|c w IH]; [by destruct rest | rewrite append_cons; simpl; by rewrite IH].
Qed.

Lemma last_char_append (prev : option ascii) (a b : string) :
  last_char prev (String.append a b) = last_char (last_char prev a) b.
Proof.
  revert prev; induction a as [|c a IH]; intros prev; [done|].
  rewrite append_cons. simpl. apply IH.
Qed.

Lemma all_chars_append (p : ascii -> bool) (a b : string) :
  all_chars p (String.append a b) = all_chars p a && all_chars p b.
Proof.
  induction a as [|c a IH]; [done|].
  rewrite append_cons. simpl. by rewrite IH, andb_assoc.
Qed.

Lemma lit_reads {R} (l : string) (prev : option ascii) (s : string) (cs : caps)
    (k : cont R) (x : R) :
  lit l prev s cs k = Some x -> reads (Lit l) prev s cs k x.
Proof.
  revert prev s; induction l as [|a l IH]; intros prev s H; simpl in H.
  - by exists "", s, cs.
  - destruct s as [|b s]; [done|]. destruct (Ascii.eqb_spec a b) as [<-|]; [|done].
    destruct (IH _ _ H) as (w & rest & cs' & -> & [-> ->] & Hk).
    by exists (String a l), rest, cs.
Qed.

Lemma rep_reads {R} (p : ascii -> bool) (n : nat) (prev : option ascii) (s : string)
    (cs : caps) (k : cont R) (x : R) :
  rep p n prev s cs k = Some x -> reads (Rep p n) prev s cs k x.
Proof.
  revert n prev; induction s as [|c s IH]; intros n prev H; simpl in H.
  - destruct n; [|done]. exists "", "", cs. simpl. repeat split; first [done | lia].
  - assert (Hstop : match n with 0%nat => k prev (String c s) cs | S _ => None end = Some x ->
                    reads (Rep p n) prev (String c s) cs k x).
    { destruct n; [|done]. intros Hk. exists "", (String c s), cs.
      simpl. repeat split; first [done | lia]. }
    destruct (p c) eqn:Hp; [|auto].
    destruct (rep p (Nat.pred n) (Some c) s cs k) eqn:Hrep; [|auto].
    injection H as ->.
    destruct (IH _ _ Hrep) as (w & rest & cs' & -> & (-> & Hall & Hlen) & Hk).
    exists (String c w), rest, cs. simpl. rewrite Hp, Hall.
    repeat split; first [done | simpl; lia].
Qed.

Lemma exec_denotes {R} (r : regex) :
  forall (prev : option ascii) (s : string) (cs : caps) (k : cont R) (x : R),
    exec r prev s cs k = Some x -> reads r prev s cs k x.
Proof.
  induction r as [l | r1 IH1 r2 IH2 | r1 IH1 r2 IH2 | p | p n | i r IH | ];
    intros prev s cs k x H; cbn [exec] in H.
  - by apply lit_reads.
  - destruct (exec r1 prev s cs k) eqn:H1.
    + injection H as ->. destruct (IH1 _ _ _ _ _ H1) as (w & rest & cs' & -> & Hd & Hk).
      exists w, rest, cs'. cbn [denotes]. auto.
    + destruct (IH2 _ _ _ _ _ H) as (w & rest & cs' & -> & Hd & Hk).
      exists w, rest, cs'. cbn [denotes]. auto.
  - destruct (IH1 _ _ _ _ _ H) as (w1 & rest1 & cs1 & -> & Hd1 & Hk1).
    destruct (IH2 _ _ _ _ _ Hk1) as (w2 & rest & cs2 & -> & Hd2 & Hk2).
    exists (String.append w1 w2), rest, cs2.
    rewrite append_assoc, last_char_append. split; [done|]. split; [|done].
    cbn [denotes]. by exists w1, w2, cs1.
  - assert (Hskip : k prev s cs = Some x -> reads (Opt p) prev s cs k x).
    { intros Hk. exists "", s, cs. cbn [denotes]. auto. }
    destruct s as [|c s]; [auto|]. destruct (p c) eqn:Hp; [|auto].
    destruct (k (Some c) s cs) eqn:Hk; [|auto].
    injection H as ->. exists (String c ""), s, cs. cbn [denotes].
    repeat split; [|done]. right. by exists c.
  - by apply rep_reads.
  - destruct (IH _ _ _ _ _ H) as (w & rest & cs' & -> & Hd & Hk).
    rewrite take_append in Hk.
    exists w, rest, ((i, w) :: cs'). cbn [denotes]. repeat split; [|done]. by exists cs'.
  - destruct (xorb _ _) eqn:Hx; [|done]. exists "", s, cs. by cbn [denotes].
Qed.

Lemma match_here_denotes (r : regex) (prev : option ascii) (s : string) (cs : caps) (n : nat) :
  match_here r prev s = Some (cs, n) ->
  exists w rest cs',
    s = String.append w rest /\ denotes r prev w rest [] cs' /\ cs = (0%nat, w) :: cs'.
Proof.
  intros H. unfold match_here in H.
  destruct (exec_denotes r _ _ _ _ _ H) as (w & rest & cs' & -> & Hd & Hk).
  rewrite take_append in Hk. injection Hk as <- _. by exists w, rest, cs'.
Qed.

Lemma search_from_denotes (r : regex) (s : string) :
  forall (prev : option ascii) (cs : caps),
    search_from r prev s = Some cs ->
    exists before w after cs',
      s = String.append before (String.append w after) /\
      denotes r (last_char prev before) w after [] cs' /\ cs = (0%nat, w) :: cs'.
Proof.
  induction s as [|c s IH]; intros prev cs H; simpl in H.
  - destruct (match_here r prev "") as [[cs0 n]|] eqn:Hm; [|done].
    injection H as ->. apply match_here_denotes in Hm as (w & rest & cs' & Hs & Hd & ->).
    by exists "", w, rest, cs'.
  - destruct (match_here r prev (String c s)) as [[cs0 n]|] eqn:Hm.
    + injection H as ->. apply match_here_denotes in Hm as (w & rest & cs' & Hs & Hd & ->).
      by exists "", w, rest, cs'.
    + destruct (IH _ _ H) as (before & w & after & cs' & -> & Hd & ->).
      by exists (String c before), w, after, cs'.
Qed.

(** [re.search] returns a match of the pattern in the text. *)
Lemma search_match_in (r : regex) (text : string) (cs : caps) :
  search r text = Some cs -> match_in r text cs.
Proof. apply search_from_denotes. Qed.

Lemma finditer_from_denotes (r : regex) (s : string) :
  forall (prev : option ascii) (skip : nat) (cs : caps),
    In cs (finditer_from r prev s skip) ->
    exists before w after cs',
      s = String.append before (String.append w after) /\
      denotes r (last_char prev before) w after [] cs' /\ cs = (0%nat, w) :: cs'.
Proof.
  assert (Hhere : forall prev s0 cs n, match_here r prev s0 = Some (cs, n) ->
            exists before w after cs',
              s0 = String.append before (String.append w after) /\
              denotes r (last_char prev before) w after [] cs' /\ cs = (0%nat, w) :: cs').
  { intros prev s0 cs n Hm. apply match_here_denotes in Hm as (w & rest & cs' & Hs & Hd & ->).
    by exists "", w, rest, cs'. }
  assert (Hshift : forall c s0 prev cs,
            (exists before w after cs',
               s0 = String.append before (String.append w after) /\
               denotes r (last_char (Some c) before) w after [] cs' /\ cs = (0%nat, w) :: cs') ->
            exists before w after cs',
              String c s0 = String.append before (String.append w after) /\
              denotes r (last_char prev before) w after [] cs' /\ cs = (0%nat, w) :: cs').
  { intros c s0 prev cs (before & w & after & cs' & -> & Hd & ->).
    by exists (String c before), w, after, cs'. }
  induction s as [|c s IH]; intros prev skip cs Hin.
  - destruct skip; cbn [finditer_from] in Hin; [|done].
    destruct (match_here r prev "") as [[cs0 n]|] eqn:Hm; [|done].
    destruct Hin as [<- | []]. by apply (Hhere prev "" cs0 n).
  - destruct skip; cbn [finditer_from] in Hin; [|by apply Hshift, (IH (Some c) skip)].
    destruct (match_here r prev (String c s)) as [[cs0 n]|] eqn:Hm.
    + destruct Hin as [<- | Hin]; [by apply (Hhere prev (String c s) cs0 n)|].
      by apply Hshift, (IH (Some c) (Nat.pred n)).
    + by apply Hshift, (IH (Some c) 0%nat).
Qed.

(** Every match [re.finditer] yields is a match of the pattern in the text. *)
Lemma finditer_match_in (r : regex) (text : string) (cs : caps) :
  In cs (finditer r text) -> match_in r text cs.
Proof. apply finditer_from_denotes. Qed.

End matcher_soundness.

(** ** Lower-cased text *)

Section lower_case.

Import Re ReSem.

Lemma lower_char_not_upper (c : ascii) : PyStr.is_upper (PyStr.lower_char c) = false.
Proof. destruct c as [[] [] [] [] [] [] [] []]; reflexivity. Qed.

Lemma lower_no_upper (q : string) : no_upper (PyStr.lower q).
Proof.
  unfold no_upper. induction q as [|c q IH]; simpl; [done|].
  by rewrite lower_char_not_upper, IH.
Qed.

Lemma no_upper_append (a b : string) : no_upper (String.append a b) <-> no_upper a /\ no_upper b.
Proof. unfold no_upper. by rewrite all_chars_append, andb_true_iff. Qed.

Lemma all_chars_nonempty (p : ascii -> bool) (w : string) :
  (1 <= String.length w)%nat -> w <> "".
Proof. destruct w; simpl; [lia | done]. Qed.

(** A name cut out of lower-cased text, made of word characters. *)
Lemma lower_word_inside (text before name after : string) :
  no_upper text ->
  text = String.append before (String.append name after) ->
  all_chars PyStr.is_word name = true -> (1 <= String.length name)%nat ->
  Further.lower_word name.
Proof.
  intros Hno -> Hall Hlen. split; [by apply (all_chars_nonempty PyStr.is_word)|].
  split; [done|]. by apply no_upper_append in Hno as [_ [Hno _]%no_upper_append].
Qed.

End lower_case.

(** ** The matcher finds what is there *)

Section matcher_finds.

Import Re ReSem.

Lemma lit_append {R} (l : string) (prev : option ascii) (rest : string) (cs : caps)
    (k : cont R) :
  lit l prev (String.append l rest) cs k = k (last_char prev l) rest cs.
Proof.
  revert prev; induction l as [|a l IH]; intros prev; [done|].
  rewrite append_cons. cbn [lit last_char]. by rewrite Ascii.eqb_refl.
Qed.

(** A greedy repetition succeeds when the continuation always does and
    enough characters of the class are there. *)
Lemma rep_succeeds {R} (p : ascii -> bool) (s : string) :
  forall (n : nat) (prev : option ascii) (cs : caps) (k : cont R),
    (forall prev' s' cs', k prev' s' cs' <> None) ->
    all_chars p (PyStr.take n s) = true -> (n <= String.length s)%nat ->
    rep p n prev s cs k <> None.
Proof.
  induction s as [|c s IH]; intros n prev cs k Hk Hall Hlen; cbn [rep].
  - destruct n; [apply Hk | simpl in Hlen; lia].
  - destruct n as [|n].
    + destruct (p c); [|apply Hk].
      destruct (rep p (Nat.pred 0) (Some c) s cs k); [done | apply Hk].
    + simpl in Hall, Hlen. apply andb_true_iff in Hall as [-> Hall].
      cbn [Nat.pred].
      specialize (IH n (Some c) cs k Hk Hall ltac:(lia)).
      by destruct (rep p n (Some c) s cs k).
Qed.

Lemma match_here_search (r : regex) (before s : string) :
  forall prev : option ascii,
    match_here r (last_char prev before) s <> None ->
    search_from r prev (String.append before s) <> None.
Proof.
  induction before as [|c before IH]; intros prev H.
  - destruct s; simpl in *; by destruct (match_here r prev _) as [[]|].
  - rewrite append_cons. cbn [search_from].
    destruct (match_here r prev _) as [[]|]; [done|]. by apply IH.
Qed.

End matcher_finds.

(** ** The plan builder: the hints *)

Section plan_hints.

Import Re ReSem Planner Further.

Lemma hint_re_denotes (k1 k2 : string) (prev : option ascii) (w rest : string) (cs' : caps) :
  denotes (hint_re k1 k2) prev w rest [] cs' ->
  exists g t,
    (g = k1 \/ g = k2) /\ w = String.append g (String " " t) /\
    all_chars PyStr.is_word t = true /\ (1 <= String.length t)%nat /\
    cs' = [(2%nat, t); (1%nat, g)].
Proof.
  cbn [hint_re denotes].
  intros (g & w2 & cs1 & -> & (cs0 & Hg & ->) & (sp & t & cs2 & -> & [-> ->] &
          (cs3 & (-> & Hall & Hlen) & ->))).
  exists g, t. destruct Hg as [[-> ->] | [-> ->]]; repeat split; auto.
Qed.

Lemma hint_re_search (k1 k2 text : string) (cs : caps) (t : string) :
  search (hint_re k1 k2) text = Some cs -> group 2 cs = Some t ->
  all_chars PyStr.is_word t = true /\ (1 <= String.length t)%nat /\
  exists before after,
    text = String.append before (String.append k1 (String " " (String.append t after))) \/
    text = String.append before (String.append k2 (String " " (String.append t after))).
Proof.
  intros (before & w & after & cs' & -> & Hd & ->)%search_match_in Hg.
  apply hint_re_denotes in Hd as (g & t' & Hg' & -> & Hall & Hlen & ->).
  cbn in Hg. injection Hg as <-. split; [done|]. split; [done|].
  exists before, after.
  rewrite append_assoc, append_cons.
  destruct Hg' as [-> | ->]; auto.
Qed.

Lemma hint_re_found (k1 k2 k before after : string) (c : ascii) (prev : option ascii) :
  k = k1 \/ k = k2 -> PyStr.is_word c = true ->
  search_from (hint_re k1 k2) prev
    (String.append before (String.append k (String " " (String c after)))) <> None.
Proof.
  intros Hk Hc. apply match_here_search. unfold match_here. cbn [hint_re exec].
  set (K := fun (prev' : option ascii) (s' : string) (cs' : caps) => _).
  assert (HK : forall p0 cs0, K p0 (String " " (String c after)) cs0 <> None).
  { intros p0 cs0. subst K. cbn [lit]. rewrite Ascii.eqb_refl.
    apply rep_succeeds; [done | by simpl; rewrite Hc | simpl; lia]. }
  destruct Hk as [-> | ->].
  - rewrite lit_append. by destruct (K _ _ _) eqn:HKk; [|apply HK in HKk].
  - destruct (lit k1 _ _ _ K); [done|]. rewrite lit_append. apply HK.
Qed.

Lemma group_2_found (k1 k2 text : string) (cs : caps) :
  search (hint_re k1 k2) text = Some cs -> exists t, group 2 cs = Some t.
Proof.
  intros (before & w & after & cs' & -> & Hd & ->)%search_match_in.
  apply hint_re_denotes in Hd as (g & t & _ & _ & _ & _ & ->). by exists t.
Qed.

Lemma hint_found (k1 k2 text : string) :
  (search (hint_re k1 k2) text ≫= group 2) <> None <->
  names_after k1 text \/ names_after k2 text.
Proof.
  split.
  - destruct (search (hint_re k1 k2) text) as [cs|] eqn:Hs; [|done]. intros _.
    destruct (group_2_found _ _ _ _ Hs) as [t Ht].
    destruct (hint_re_search _ _ _ _ _ Hs Ht) as (Hall & Hlen & before & after & Htext).
    destruct t as [|c t]; [simpl in Hlen; lia|]. simpl in Hall.
    apply andb_true_iff in Hall as [Hc _].
    destruct Htext as [-> | ->]; [left | right]; by exists before, c, (String.append t after).
  - intros H.
    assert (Hs : search (hint_re k1 k2) text <> None).
    { destruct H as [(before & c & after & -> & Hc) | (before & c & after & -> & Hc)];
        apply hint_re_found; auto. }
    destruct (search (hint_re k1 k2) text) as [cs|] eqn:Hsearch; [|done].
    destruct (group_2_found _ _ _ _ Hsearch) as [t Ht]. cbn. by rewrite Ht.
Qed.

Lemma hint_origin (k1 k2 q t : string) :
  search (hint_re k1 k2) (PyStr.lower q) ≫= group 2 = Some t ->
  lower_word t /\
  (named_after k1 t (PyStr.lower q) \/ named_after k2 t (PyStr.lower q)).
Proof.
  destruct (search (hint_re k1 k2) (PyStr.lower q)) as [cs|] eqn:Hs; [|done]. cbn. intros Ht.
  destruct (hint_re_search _ _ _ _ _ Hs Ht) as (Hall & Hlen & before & after & Htext).
  split.
  - destruct Htext as [Htext | Htext].
    + apply (lower_word_inside (PyStr.lower q) (String.append before (String.append k1 " "))
               t after); [apply lower_no_upper | | done | done].
      by rewrite Htext, !append_assoc.
    + apply (lower_word_inside (PyStr.lower q) (String.append before (String.append k2 " "))
               t after); [apply lower_no_upper | | done | done].
      by rewrite Htext, !append_assoc.
  - destruct Htext as [Htext | Htext]; [left | right]; by exists before, after.
Qed.

(** X1: in a request of ASCII characters, a table or schema name that
    the plan builder takes from it is a non-empty word without upper-case
    letters that stands in the lower-cased request after [table],
    [tables] (for a table) or [schema], [database] (for a schema) and a
    blank. *)
Theorem customize_plan_hint_origin (q : string) :
  ascii_text q ->
  (forall t, table_hint q = Some t ->
     lower_word t /\
     (named_after "table" t (PyStr.lower q) \/ named_after "tables" t (PyStr.lower q))) /\
  (forall s, schema_hint q = Some s ->
     lower_word s /\
     (named_after "schema" s (PyStr.lower q) \/ named_after "database" s (PyStr.lower q))).
Proof. intros _. split; intros t; apply hint_origin. Qed.

(** X2: in a request of ASCII characters, the plan builder finds a table
    name exactly when the lower-cased request contains [table] or [tables]
    followed by a blank and a word character, and a schema name exactly
    when it contains [schema] or [database] followed by a blank and a word
    character. *)
Theorem customize_plan_hint_found (q : string) :
  ascii_text q ->
  (table_hint q <> None <->
     names_after "table" (PyStr.lower q) \/ names_after "tables" (PyStr.lower q)) /\
  (schema_hint q <> None <->
     names_after "schema" (PyStr.lower q) \/ names_after "database" (PyStr.lower q)).
Proof. intros _. split; apply hint_found. Qed.

Lemma _customize_plan_hints (ss : list PlanStep) (q : string) :
  _customize_plan ss q =
  let ss1 := match table_hint q with
             | Some t => set_schema_param "suggested_tables" (PList [PStr t]) ss
             | None => ss
             end in
  match schema_hint q with
  | Some s => set_schema_param "suggested_schema" (PStr s) ss1
  | None => ss1
  end.
Proof.
  unfold _customize_plan, table_hint, schema_hint.
  destruct (search table_re (PyStr.lower q)) as [m1|];
    destruct (search schema_re (PyStr.lower q)) as [m2|]; reflexivity.
Qed.

(** X3: the plan built for a request carries the request unchanged; its
    query and discrepancy stages have no parameters; and the parameters of
    its schema stage are exactly the table hint, if one was found, under
    [suggested_tables] as a one-element list, followed by the schema hint,
    if one was found, under [suggested_schema]. *)
Theorem create_plan_params (q : string) :
  query (create_plan q) = q /\
  forall step, In step (steps (create_plan q)) ->
    (agent step <> "schema" -> params step = []) /\
    (agent step = "schema" -> params step = hint_params (table_hint q) (schema_hint q)).
Proof.
  split; [done|]. unfold create_plan. cbn [steps]. rewrite _customize_plan_hints.
  destruct (_query_needs_discrepancy_check q), (table_hint q) as [t|], (schema_hint q) as [s|];
    cbn; intros step Hin;
    repeat (destruct Hin as [<- | Hin]; [split; cbn; intros; done|]); done.
Qed.

End plan_hints.

(** A request that names a table and a schema. *)
Lemma customize_plan_hint_origin_witness :
  let q := "Show table Orders in schema HR" in
  (forall t, Further.table_hint q = Some t ->
     Further.lower_word t /\
     (Further.named_after "table" t (PyStr.lower q) \/
      Further.named_after "tables" t (PyStr.lower q))) /\
  (forall s, Further.schema_hint q = Some s ->
     Further.lower_word s /\
     (Further.named_after "schema" s (PyStr.lower q) \/
      Further.named_after "database" s (PyStr.lower q))).
Proof.
  intros q. apply (customize_plan_hint_origin q). reflexivity.
Defined.

Lemma customize_plan_hint_found_witness :
  let q := "Show table Orders in schema HR" in
  (Further.table_hint q <> None <->
     Further.names_after "table" (PyStr.lower q) \/
     Further.names_after "tables" (PyStr.lower q)) /\
  (Further.schema_hint q <> None <->
     Further.names_after "schema" (PyStr.lower q) \/
     Further.names_after "database" (PyStr.lower q)).
Proof.
  intros q. apply (customize_plan_hint_found q). reflexivity.
Defined.

(** ** Captures are parts of the text *)

Section captures.

Import Re ReSem Specified.

Lemma substring_append_l (name a b : string) : substring name a -> substring name (String.append a b).
Proof.
  intros (pre & post & ->). exists pre, (String.append post b). by rewrite !append_assoc.
Qed.

Lemma substring_append_r (name a b : string) : substring name b -> substring name (String.append a b).
Proof.
  intros (pre & post & ->). exists (String.append a pre), post. by rewrite !append_assoc.
Qed.

Lemma substring_refl (name : string) : substring name name.
Proof. exists "", "". by rewrite append_empty_r. Qed.

(** A capture made while [w] is read is a part of [w]. *)
Lemma denotes_captures (r : regex) :
  forall (prev : option ascii) (w rest : string) (cs cs' : caps),
    denotes r prev w rest cs cs' ->
    forall i name, In (i, name) cs' -> In (i, name) cs \/ substring name w.
Proof.
  induction r as [l | r1 IH1 r2 IH2 | r1 IH1 r2 IH2 | p | p n | j r IH | ];
    intros prev w rest cs cs' H i name Hin; cbn [denotes] in H.
  - destruct H as [_ ->]. by left.
  - destruct H as [H | H]; [by apply (IH1 _ _ _ _ _ H) | by apply (IH2 _ _ _ _ _ H)].
  - destruct H as (w1 & w2 & cs1 & -> & H1 & H2).
    destruct (IH2 _ _ _ _ _ H2 i name Hin) as [Hin1 | Hsub]; [|right; by apply substring_append_r].
    destruct (IH1 _ _ _ _ _ H1 i name Hin1) as [Hin0 | Hsub]; [by left|].
    right. by apply substring_append_l.
  - destruct H as [-> _]. by left.
  - destruct H as [-> _]. by left.
  - destruct H as (cs1 & H & ->). destruct Hin as [[= <- <-] | Hin]; [right; apply substring_refl|].
    by apply (IH _ _ _ _ _ H).
  - destruct H as (_ & -> & _). by left.
Qed.

Lemma match_in_group (r : regex) (text : string) (cs : caps) (i : nat) (name : string) :
  match_in r text cs -> group i cs = Some name -> substring name text.
Proof.
  intros (before & w & after & cs' & -> & Hd & ->) Hg.
  apply substring_append_r, substring_append_l.
  apply group_In in Hg as [[= <- <-] | Hin]; [apply substring_refl|].
  by destruct (denotes_captures r _ _ _ _ _ Hd i name Hin).
Qed.

Lemma substring_no_upper (name text : string) : substring name text -> no_upper text -> no_upper name.
Proof. intros (pre & post & ->) H. by apply no_upper_append in H as [_ [H _]%no_upper_append]. Qed.

End captures.

(** ** The schema agent: tokens and extraction *)

Section tokens_and_extraction.

Import Re ReSem SchemaAgent Specified Further.

Lemma last_char_word (prev : option ascii) (w : string) :
  all_chars PyStr.is_word w = true -> w <> "" -> word_before (last_char prev w) = true.
Proof.
  revert prev; induction w as [|c w IH]; intros prev Hall Hne; [done|].
  simpl in Hall. apply andb_true_iff in Hall as [Hc Hall]. cbn [last_char].
  destruct w as [|d w]; [exact Hc | by apply IH].
Qed.

Lemma word_re_denotes (prev : option ascii) (w rest : string) (cs' : caps) :
  denotes word_re prev w rest [] cs' ->
  all_chars PyStr.is_word w = true /\ (3 <= String.length w)%nat /\
  word_before prev = false /\ word_after rest = false.
Proof.
  cbn [word_re denotes].
  intros (w1 & w2 & cs1 & -> & (-> & -> & Hb1) &
          (w3 & w4 & cs2 & -> & (-> & Hall & Hlen) & (-> & -> & Hb2))).
  cbn [String.append] in *. rewrite append_empty_r in *.
  assert (Hne : w3 <> "") by (destruct w3; simpl in Hlen; [lia | done]).
  repeat split; [done | done | |].
  - destruct w3 as [|c w3]; [done|]. simpl in Hall.
    apply andb_true_iff in Hall as [Hc _]. rewrite append_cons in Hb1. cbn [word_after] in Hb1.
    rewrite Hc in Hb1. by destruct (word_before prev).
  - rewrite (last_char_word _ _ Hall Hne) in Hb2. by destruct (word_after rest).
Qed.

(** X4: the tokens of a request are distinct; each has at least three
    characters, all of them word characters and none an upper-case letter,
    and stands in the lower-cased request with no word character next to
    it on either side. *)
Theorem query_words_tokens (q : string) :
  NoDup (query_words q) /\
  forall w, In w (query_words q) ->
    (3 <= String.length w)%nat /\ all_chars PyStr.is_word w = true /\ no_upper w /\
    stands_alone w (PyStr.lower q).
Proof.
  split; [apply NoDup_remove_dups|]. intros w.
  unfold query_words, findall. rewrite <- list_elem_of_In, elem_of_remove_dups.
  intros (cs & Hcs & Hg)%list_elem_of_omap.
  apply list_elem_of_In, finditer_match_in in Hcs as Hm.
  pose proof (match_in_group _ _ _ _ _ Hm Hg) as Hsub.
  destruct Hm as (before & w0 & after & cs' & Htext & Hd & ->).
  cbn in Hg. injection Hg as ->.
  apply word_re_denotes in Hd as (Hall & Hlen & Hb & Ha).
  repeat split; [done | done | |].
  - apply (substring_no_upper _ _ Hsub), lower_no_upper.
  - by exists before, after.
Qed.

Lemma first_known_schema_lower (schemas : list string) (patterns : list regex)
    (query_lower name : string) :
  no_upper query_lower ->
  first_known_schema schemas patterns query_lower = Some name ->
  In name schemas /\ no_upper name.
Proof.
  intros Hno. induction patterns as [|pattern rest IH]; cbn [first_known_schema]; [done|].
  destruct (search pattern query_lower) as [m|] eqn:Hs; [|done].
  destruct (group 1 m) as [n|] eqn:Hg; [|done].
  destruct (PyStr.mem n schemas) eqn:Hm; [|done].
  intros [= <-]. split; [by apply mem_spec|].
  apply search_match_in in Hs.
  by apply (substring_no_upper n query_lower (match_in_group _ _ _ _ _ Hs Hg)).
Qed.

Lemma table_known_In (schemas : list string) (schema_cache : dict (dict (list string)))
    (t : string) :
  table_known schemas schema_cache t = true <->
  exists schema tables,
    In schema schemas /\ dict_get schema schema_cache = Some tables /\
    dict_mem t tables = true.
Proof.
  unfold table_known. rewrite existsb_exists. split.
  - intros (schema & Hin & H). destruct (dict_get schema schema_cache) as [tables|] eqn:Hg; [|done].
    by exists schema, tables.
  - intros (schema & tables & Hin & Hg & Hm). exists schema. by rewrite Hg.
Qed.

Lemma _extract_tables_from_query_In (schemas : list string)
    (schema_cache : dict (dict (list string))) (q t : string) :
  In t (_extract_tables_from_query schemas schema_cache q) ->
  table_known schemas schema_cache t = true /\ no_upper t /\ t <> "".
Proof.
  unfold _extract_tables_from_query. rewrite in_flat_map.
  intros (pattern & Hp & [Hin Hk]%List.filter_In). split; [done|].
  apply list_elem_of_In, list_elem_of_omap in Hin as (cs & Hcs & Hg).
  apply list_elem_of_In in Hcs.
  pose proof (finditer_match_in _ _ _ Hcs) as Hm. split.
  - apply (substring_no_upper t (PyStr.lower q)); [|apply lower_no_upper].
    by apply (match_in_group _ _ _ _ _ Hm Hg).
  - destruct Hm as (before & w & after & cs' & _ & Hd & ->). cbn in Hg.
    apply group_In in Hg.
    assert (Hq : forall prev0 w0 rest0 cs0 cs1, denotes quoted_name prev0 w0 rest0 cs0 cs1 ->
                 forall n, In (1%nat, n) cs1 -> In (1%nat, n) cs0 \/ n <> "").
    { cbn [quoted_name denotes].
      intros prev0 w0 rest0 cs0 cs1
             (w1 & w2 & c1 & _ & [-> _] & (w3 & w4 & c2 & _ & (c3 & (-> & _ & Hlen) & ->) & [-> _]))
             n [[= <-] | Hn]; [right | by left].
      destruct w3; simpl in Hlen; [lia | done]. }
    destruct Hp as [<- | [<- | [<- | []]]]; cbn [denotes] in Hd.
    + destruct Hd as (w1 & w2 & c1 & _ & [_ ->] & Hd). by destruct (Hq _ _ _ _ _ Hd t Hg).
    + destruct Hd as (w1 & w2 & c1 & _ & [_ ->] & (w3 & w4 & c2 & _ & [-> _] &
                      (w5 & w6 & c3 & _ & [_ ->] & Hd))).
      by destruct (Hq _ _ _ _ _ Hd t Hg).
    + destruct Hd as (w1 & w2 & c1 & _ & [_ ->] & (w3 & w4 & c2 & _ & Hd & [_ ->])).
      by destruct (Hq _ _ _ _ _ Hd t Hg).
Qed.

(** X5: names are taken from the lower-cased request, so a catalog name
    with an upper-case letter is never extracted: when every known schema
    has an upper-case letter no schema is extracted, and when every cached
    table has one no table is. *)
Theorem extraction_needs_lower_case_catalog (schemas : list string)
    (schema_cache : dict (dict (list string))) (q : string) :
  ((forall name, In name schemas -> has_upper name) ->
   _extract_schema_from_query schemas q = None) /\
  ((forall schema tables t,
      In schema schemas -> dict_get schema schema_cache = Some tables ->
      dict_mem t tables = true -> has_upper t) ->
   _extract_tables_from_query schemas schema_cache q = []).
Proof.
  split.
  - intros Hup. destruct (_extract_schema_from_query schemas q) as [name|] eqn:H; [|done].
    apply first_known_schema_lower in H as [Hin Hno]; [|apply lower_no_upper].
    by destruct (Hup name Hin).
  - intros Hup. destruct (_extract_tables_from_query schemas schema_cache q) as [|t l] eqn:H; [done|].
    destruct (_extract_tables_from_query_In schemas schema_cache q t) as (Hk & Hno & _).
    { rewrite H. by left. }
    apply table_known_In in Hk as (schema & tables & Hin & Hg & Hm).
    by destruct (Hup schema tables t Hin Hg Hm).
Qed.

(** X6: every table extracted from a request is a non-empty name without
    upper-case letters that is a table of some known schema in the cache. *)
Theorem extracted_tables_known (schemas : list string)
    (schema_cache : dict (dict (list string))) (q t : string) :
  In t (_extract_tables_from_query schemas schema_cache q) ->
  t <> "" /\ no_upper t /\
  exists schema tables,
    In schema schemas /\ dict_get schema schema_cache = Some tables /\
    dict_mem t tables = true.
Proof.
  intros H. apply _extract_tables_from_query_In in H as (Hk & Hno & Hne).
  split; [done|]. split; [done|]. by apply table_known_In.
Qed.

End tokens_and_extraction.

(** ** Python dictionaries *)

Section dict_facts.

Context {V : Type}.

Lemma dict_get_set_eq (k : string) (v : V) (d : dict V) : dict_get k (dict_set k v d) = Some v.
Proof.
  induction d as [|[k' v'] d IH]; cbn [dict_set dict_get]; [by rewrite String.eqb_refl|].
  destruct (String.eqb_spec k k') as [->|Hne]; cbn [dict_get].
  - by rewrite String.eqb_refl.
  - apply String.eqb_neq in Hne. by rewrite Hne.
Qed.

Lemma dict_get_set_ne (k k' : string) (v : V) (d : dict V) :
  k <> k' -> dict_get k' (dict_set k v d) = dict_get k' d.
Proof.
  intros Hne. induction d as [|[k0 v0] d IH]; cbn [dict_set dict_get].
  - apply not_eq_sym, String.eqb_neq in Hne. by rewrite Hne.
  - destruct (String.eqb_spec k k0) as [->|Hk]; cbn [dict_get]; [|by rewrite IH].
    apply not_eq_sym, String.eqb_neq in Hne. by rewrite Hne.
Qed.

Lemma dict_keys_set (k : string) (v : V) (d : dict V) :
  dict_keys (dict_set k v d) = if dict_mem k d then dict_keys d else dict_keys d ++ [k].
Proof.
  unfold dict_mem, dict_keys. induction d as [|[k' v'] d IH]; cbn [dict_set dict_get map]; [done|].
  destruct (String.eqb_spec k k') as [->|Hk]; [done|]. cbn [map fst]. rewrite IH.
  by destruct (dict_get k d).
Qed.

Lemma dict_mem_keys (k : string) (d : dict V) : dict_mem k d = true <-> In k (dict_keys d).
Proof.
  unfold dict_mem, dict_keys. induction d as [|[k' v'] d IH]; cbn [dict_get map fst]; [by split|].
  destruct (String.eqb_spec k k') as [->|Hk].
  - split; [by left | done].
  - rewrite IH. split; [by right | by intros [? | ?]].
Qed.

Lemma dict_set_NoDup (k : string) (v : V) (d : dict V) :
  NoDup (dict_keys d) -> NoDup (dict_keys (dict_set k v d)).
Proof.
  intros Hnd. rewrite dict_keys_set. destruct (dict_mem k d) eqn:Hm; [done|].
  apply NoDup_app. split; [done|]. split; [|apply NoDup_singleton].
  intros x Hx [->|[]]%list_elem_of_In. apply list_elem_of_In, dict_mem_keys in Hx. congruence.
Qed.

End dict_facts.

(** ** The schema agent: scores and inferred tables *)

Section scores.

Import SchemaAgent Specified.

Lemma inject_nat_pos (n : nat) : (1 <= n)%nat -> (0 < inject_Z (Z.of_nat n))%Q.
Proof. intros H. unfold Qlt. simpl. lia. Qed.

Lemma token_over_longer_bounds (table_lower word : string) :
  (1 <= String.length word)%nat ->
  (0 < token_over_longer table_lower word)%Q /\ (token_over_longer table_lower word <= 4 # 5)%Q.
Proof.
  intros Hlen. unfold token_over_longer.
  set (lw := String.length word) in *. set (mx := Nat.max lw (String.length table_lower)).
  assert (Hmx : (0 < inject_Z (Z.of_nat mx))%Q) by (apply inject_nat_pos; lia).
  assert (Hlw : (0 < inject_Z (Z.of_nat lw))%Q) by (by apply inject_nat_pos).
  split.
  - apply Qmult_lt_0_compat; [|done]. apply Qlt_shift_div_l; [done|].
    by rewrite Qmult_0_l.
  - apply Qle_trans with (1 * (4 # 5))%Q; [|by unfold Qle].
    apply Qmult_le_compat_r; [|done].
    apply Qle_shift_div_r; [done|]. rewrite Qmult_1_l.
    rewrite <- Zle_Qle. lia.
Qed.

(** X7: the score of a table against the tokens of a request is 1 when
    its lower-cased name is a token; else 0.9 when the name without a final
    [s], or with an [s] added, is a token; else a positive number not above
    0.8: an exact match outranks a singular or plural match, which
    outranks every partial overlap. *)
Theorem score_table_classes (q table : string) (s : Q) :
  let words := query_words q in
  let table_lower := PyStr.lower table in
  score_table words table = Some s ->
  (In table_lower words /\ s = 1%Q) \/
  (~ In table_lower words /\
   (In (Further.singular_of table_lower) words \/ In (Further.plural_of table_lower) words) /\
   s = (9 # 10)%Q) \/
  (no_name_match table_lower words /\ (0 < s)%Q /\ (s <= 4 # 5)%Q).
Proof.
  intros words table_lower. unfold score_table. fold table_lower.
  destruct (PyStr.mem table_lower words) eqn:H1.
  { intros [= <-]. left. split; [by apply mem_spec | done]. }
  assert (Hnot : ~ In table_lower words) by (rewrite <- mem_spec; congruence).
  match goal with
  | |- context [PyStr.mem ?a words || PyStr.mem ?b words] =>
      destruct (PyStr.mem a words) eqn:H2; [|destruct (PyStr.mem b words) eqn:H3]
  end; cbn [orb].
  - intros [= <-]. right; left. split; [done|]. split; [|done].
    left. by apply mem_spec.
  - intros [= <-]. right; left. split; [done|]. split; [|done].
    right. by apply mem_spec.
  - intros Hfold. right; right.
    assert (Hnm : no_name_match table_lower words).
    { repeat split; rewrite <- mem_spec; congruence. }
    split; [done|].
    pose proof (partial_fold table_lower words None (Qle_refl 0)) as Hpf.
    rewrite Hfold in Hpf. destruct Hpf as (_ & _ & [? | (w & Hw & _ & Heq)]); [done|].
    apply query_words_long in Hw.
    destruct (token_over_longer_bounds table_lower w) as [Hpos Hle]; [lia|].
    by rewrite Heq.
Qed.

End scores.

(** The table [ORDER] against a request with the token [orders]. *)
Lemma score_table_classes_witness :
  (In "order" (SchemaAgent.query_words "list the orders") /\ (9 # 10)%Q = 1%Q) \/
  (~ In "order" (SchemaAgent.query_words "list the orders") /\
   (In (Further.singular_of "order") (SchemaAgent.query_words "list the orders") \/
    In (Further.plural_of "order") (SchemaAgent.query_words "list the orders")) /\
   (9 # 10)%Q = (9 # 10)%Q) \/
  (Specified.no_name_match "order" (SchemaAgent.query_words "list the orders") /\
   (0 < 9 # 10)%Q /\ (9 # 10 <= 4 # 5)%Q).
Proof.
  apply (score_table_classes "list the orders" "ORDER" (9 # 10)%Q). vm_compute. reflexivity.
Defined.

(** ** The schema agent: what is inferred and what is attached *)

Section inference.

Import SchemaAgent Specified.

Lemma scored_In (words tables : list string) (s : Q) (t : string) :
  In (s, t) (scored words tables) <-> In t tables /\ score_table words t = Some s.
Proof.
  unfold scored. rewrite <- !list_elem_of_In, list_elem_of_omap. split.
  - intros (t' & Hin & H). destruct (score_table words t') as [s'|] eqn:Hs; [|done].
    cbn in H. injection H as <- <-. done.
  - intros [Hin Hs]. exists t. split; [done|]. by rewrite Hs.
Qed.

Lemma rank_In (items : list (Q * string)) (t : string) :
  In t (rank items) -> exists s, In (s, t) items /\ (1 # 2 <= s)%Q.
Proof.
  unfold rank. intros Hin.
  apply list_elem_of_In, (sublist_subseteq _ _ (sublist_take _ 3)), list_elem_of_In in Hin.
  apply in_map_iff in Hin as ([s t'] & <- & [Hin Hrel]%List.filter_In).
  exists s. split; [|by apply Qle_bool_iff].
  by apply (Permutation_in _ (merge_sort_Permutation tuple_ge items)).
Qed.

Lemma rank_length (items : list (Q * string)) : (length (rank items) <= 3)%nat.
Proof. unfold rank. rewrite length_take. lia. Qed.

(** X8: scored inference returns at most three tables, each of them a
    table of the given schema in the cache whose score against the tokens
    of the request is at least 0.5. *)
Theorem inferred_tables_relevant (schema_cache : dict (dict (list string))) (q : string)
    (schema : option string) :
  (length (_infer_tables_from_query schema_cache q schema) <= 3)%nat /\
  forall t, In t (_infer_tables_from_query schema_cache q schema) ->
    exists name tables s,
      schema = Some name /\ dict_get name schema_cache = Some tables /\
      dict_mem t tables = true /\
      score_table (query_words q) t = Some s /\ (1 # 2 <= s)%Q.
Proof.
  unfold _infer_tables_from_query.
  destruct schema as [name|]; [|split; [simpl; lia | done]].
  destruct (String.eqb name ""); [split; [simpl; lia | done]|].
  destruct (dict_get name schema_cache) as [tables|] eqn:Hg; [|split; [simpl; lia | done]].
  split; [apply rank_length|]. intros t Hin.
  apply rank_In in Hin as (s & Hin & Hs). apply scored_In in Hin as [Hin Hscore].
  exists name, tables, s. repeat split; try done.
  apply dict_mem_keys, list_elem_of_In, elem_of_remove_dups, list_elem_of_In, Hin.
Qed.

Lemma relevant_false (x : Q * string) : relevant x = false <-> (fst x < 1 # 2)%Q.
Proof.
  unfold relevant. split.
  - intros H. apply Qnot_le_lt. intros Hle. apply Qle_bool_iff in Hle. congruence.
  - intros H. apply not_true_is_false. intros Hle%Qle_bool_iff.
    by apply (Qlt_not_le _ _ H).
Qed.

Lemma ranked_before_le (a b : Q * string) : ranked_before a b -> (fst b <= fst a)%Q.
Proof. intros [H | [H _]]; [by apply Qlt_le_weak | rewrite H; apply Qle_refl]. Qed.

(** The first relevant item of a ranking has the greatest score of all. *)
Lemma first_relevant_best (l : list (Q * string)) (x : Q * string) (rest : list (Q * string)) :
  StronglySorted ranked_before l ->
  List.filter relevant l = x :: rest ->
  forall y, In y l -> (fst y <= fst x)%Q.
Proof.
  induction 1 as [|a l Hl IH Ha]; cbn [List.filter]; [done|].
  destruct (relevant a) eqn:Hrel.
  - intros [= <- <-] y [<- | Hy]; [apply Qle_refl|].
    apply ranked_before_le. by apply (proj1 (List.Forall_forall _ _) Ha).
  - intros Hf y [<- | Hy]; [|by apply IH].
    assert (Hx : relevant x = true).
    { assert (Hin : In x (List.filter relevant l)) by (rewrite Hf; by left).
      by apply List.filter_In in Hin as [_ ?]. }
    apply relevant_false in Hrel. apply Qle_bool_iff in Hx.
    apply Qlt_le_weak. by apply Qlt_le_trans with (1 # 2)%Q.
Qed.

(** X9: for a known schema, scored inference returns no table exactly
    when no table of the schema scores 0.5 or more; otherwise the first
    table returned has the highest score of all tables of the schema. *)
Theorem inferred_tables_best (schema_cache : dict (dict (list string)))
    (q name : string) (tables : dict (list string)) :
  name <> "" ->
  dict_get name schema_cache = Some tables ->
  (_infer_tables_from_query schema_cache q (Some name) = [] <->
     forall t s, dict_mem t tables = true -> score_table (query_words q) t = Some s ->
                 (s < 1 # 2)%Q) /\
  (forall t rest, _infer_tables_from_query schema_cache q (Some name) = t :: rest ->
     exists s, dict_mem t tables = true /\ score_table (query_words q) t = Some s /\
               forall t' s', dict_mem t' tables = true ->
                             score_table (query_words q) t' = Some s' -> (s' <= s)%Q).
Proof.
  intros Hne Hget.
  assert (Hkeys : forall t, dict_mem t tables = true <-> In t (remove_dups (dict_keys tables))).
  { intros t. rewrite dict_mem_keys, <- !list_elem_of_In, elem_of_remove_dups. done. }
  destruct (infer_tables_ranking_helper schema_cache q name tables Hne Hget)
    as (ranked & Hperm & Hsorted & ->).
  assert (Hranked : forall s t, In (s, t) ranked <->
            dict_mem t tables = true /\ score_table (query_words q) t = Some s).
  { intros s t. rewrite Hkeys, <- scored_In. split; apply Permutation_in; [done | by symmetry]. }
  split.
  - split.
    + intros Hnil t s Hm Hs. apply (relevant_false (s, t)).
      destruct (relevant (s, t)) eqn:Hrel; [|done]. exfalso.
      assert (Hin : In (s, t) (List.filter relevant ranked)).
      { apply List.filter_In. split; [by apply Hranked | done]. }
      destruct (List.filter relevant ranked); [done | discriminate].
    + intros Hall. destruct (List.filter relevant ranked) as [|[s t] l] eqn:Hf; [done|]. exfalso.
      assert (Hin : In (s, t) (List.filter relevant ranked)) by (rewrite Hf; by left).
      apply List.filter_In in Hin as [Hin Hrel]. apply Hranked in Hin as [Hm Hs].
      specialize (Hall t s Hm Hs). apply (relevant_false (s, t)) in Hall. congruence.
  - intros t rest Heq. destruct (List.filter relevant ranked) as [|[s t0] l] eqn:Hf; [done|].
    cbn in Heq. injection Heq as <- _.
    assert (Hin : In (s, t0) (List.filter relevant ranked)) by (rewrite Hf; by left).
    apply List.filter_In in Hin as [Hin _]. apply Hranked in Hin as [Hm Hs].
    exists s. split; [done|]. split; [done|]. intros t' s' Hm' Hs'.
    apply (first_relevant_best ranked (s, t0) l Hsorted Hf (s', t')). by apply Hranked.
Qed.

End inference.

(** The catalog with [ITEMS] and [ORDERS] against a request naming both. *)
Lemma inferred_tables_best_witness :
  let schema_cache := [("S", [("ITEMS", [] : list string); ("ORDERS", [])])] in
  SchemaAgent._infer_tables_from_query schema_cache "items orders" (Some "S") = [] <->
  forall t s, dict_mem t [("ITEMS", [] : list string); ("ORDERS", [])] = true ->
              SchemaAgent.score_table (SchemaAgent.query_words "items orders") t = Some s ->
              (s < 1 # 2)%Q.
Proof.
  intros schema_cache.
  apply (inferred_tables_best schema_cache "items orders" "S"
           [("ITEMS", []); ("ORDERS", [])]); [discriminate | reflexivity].
Defined.


(** A catalog with one table named in lower case, and a request naming it. *)
Lemma extracted_tables_known_witness :
  "orders" <> "" /\ ReSem.no_upper "orders" /\
  exists schema tables, In schema ["S"] /\
    dict_get schema [("S", [("orders", ["id"])])] = Some tables /\
    dict_mem "orders" tables = true.
Proof.
  apply (extracted_tables_known ["S"] [("S", [("orders", ["id"])])] "from orders" "orders").
  vm_compute. by left.
Defined.


Section attached_columns.

Import SchemaAgent.

Variable schema_cache : dict (dict (list string)).

Lemma columns_loop_get (schema : option string) (tables : list string)
    (acc : dict (list string)) (t : string) :
  dict_get t
    (fold_left
       (fun acc table =>
          match schema with
          | Some schema_name =>
              match dict_get schema_name schema_cache with
              | Some cached =>
                  match dict_get table cached with
                  | Some columns => dict_set table columns acc
                  | None => acc
                  end
              | None => acc
              end
          | None => acc
          end) tables acc)
  = match (if PyStr.mem t tables then Further.cached_columns schema_cache schema t else None) with
    | Some columns => Some columns
    | None => dict_get t acc
    end.
Proof.
  revert acc. induction tables as [|x l IH]; intros acc; cbn [fold_left]; [done|].
  rewrite IH. unfold PyStr.mem. cbn [existsb].
  fold (PyStr.mem t l). unfold Further.cached_columns.
  destruct schema as [name|]; cbn; [|by destruct (String.eqb t x), (PyStr.mem t l)].
  destruct (dict_get name schema_cache) as [cached|]; cbn;
    [|by destruct (String.eqb t x), (PyStr.mem t l)].
  destruct (String.eqb_spec t x) as [->|Hne]; cbn.
  - destruct (dict_get x cached) as [columns|] eqn:Hx.
    + rewrite dict_get_set_eq. by destruct (PyStr.mem x l).
    + by destruct (PyStr.mem x l).
  - destruct (dict_get x cached) as [columns|]; [|done].
    rewrite dict_get_set_ne by done. done.
Qed.

(** X10: in the selection returned for a request, [table_columns] maps a
    table to a column list exactly when the table is one of the selected
    tables and the cache holds that column list for it under the selected
    schema; a selected table the cache does not know is left out, and no
    table is entered twice. *)
Theorem table_columns_lookup (schemas : list string) (q : string) (context : Context) :
  let r := schema_selection schemas schema_cache q context in
  NoDup (dict_keys (table_columns r)) /\
  forall t columns,
    dict_get t (table_columns r) = Some columns <->
    In t (selected_tables r) /\
    exists name tables,
      selected_schema r = Some name /\ dict_get name schema_cache = Some tables /\
      dict_get t tables = Some columns.
Proof.
  intros r. split.
  - unfold r, schema_selection. cbn [table_columns]. unfold columns_of.
    generalize (or_list (suggested_tables context)
                        (_extract_tables_from_query schemas schema_cache q)).
    intros l.
    set (tables := match l with [] => _ | _ => _ end). clearbody tables.
    match goal with |- NoDup (dict_keys (fold_left ?f tables [])) =>
      assert (H : forall acc, NoDup (dict_keys acc) -> NoDup (dict_keys (fold_left f tables acc)))
    end.
    { induction tables as [|x tl IH]; intros acc Hacc; cbn [fold_left]; [done|].
      apply IH.
      match goal with |- context [match ?s with Some _ => _ | None => _ end] =>
        destruct s as [name|]; [|done] end.
      destruct (dict_get name schema_cache) as [cached|]; [|done].
      destruct (dict_get x cached); [|done]. by apply dict_set_NoDup. }
    apply H. constructor.
  - intros t columns. unfold r, schema_selection. cbn [table_columns selected_tables selected_schema].
    unfold columns_of. rewrite columns_loop_get. cbn [dict_get].
    match goal with |- context [PyStr.mem t ?l] => generalize l end. intros tables.
    match goal with |- context [Further.cached_columns _ ?s t] => generalize s end. intros schema.
    destruct (PyStr.mem t tables) eqn:Hmem.
    + apply mem_spec in Hmem. unfold Further.cached_columns.
      destruct schema as [name|]; cbn.
      * destruct (dict_get name schema_cache) as [cached|] eqn:Hc; cbn.
        -- destruct (dict_get t cached) as [cols|] eqn:Ht.
           ++ split.
              ** intros [= <-]. split; [done|]. by exists name, cached.
              ** intros (_ & name' & tables' & [= <-] & Hc' & Ht'). congruence.
           ++ split; [done|]. intros (_ & name' & tables' & [= <-] & Hc' & Ht'). congruence.
        -- split; [done|]. intros (_ & name' & tables' & [= <-] & Hc' & Ht'). congruence.
      * split; [done|]. by intros (_ & name' & tables' & ? & _).
    + split; [done|]. intros [Hin _]. apply mem_spec in Hin. congruence.
Qed.

End attached_columns.


(** ** Reading the catalog *)

Section catalog_facts.

Import Catalog Further.

Variable connection_cursor : outcome unit.
Variable fetch_names : string -> outcome (list string).

Lemma read_columns_spec (schema : string) (tables : list string) (acc td : dict (list string)) :
  read_columns fetch_names schema tables acc = Returned td ->
  (NoDup (dict_keys acc) -> NoDup (dict_keys td)) /\
  (forall t, In t tables -> returned (fetch_names (columns_sql schema t)) = true) /\
  forall t, dict_get t td
            = if PyStr.mem t tables
              then match fetch_names (columns_sql schema t) with
                   | Returned columns => Some columns
                   | Raised _ => None
                   end
              else dict_get t acc.
Proof.
  revert acc. induction tables as [|x l IH]; intros acc; cbn [read_columns].
  - intros [= <-]. repeat split; done.
  - unfold mbind, outcome_bind.
    destruct (fetch_names (columns_sql schema x)) as [columns|e] eqn:Hx; [|done].
    intros H. apply IH in H as (Hnd & Hall & Hget). split; [|split].
    + intros Hacc. by apply Hnd, dict_set_NoDup.
    + intros t [<- | Hin]; [by rewrite Hx | by apply Hall].
    + intros t. rewrite Hget. unfold PyStr.mem. cbn [existsb]. fold (PyStr.mem t l).
      destruct (PyStr.mem t l) eqn:Hm.
      * by rewrite orb_true_r.
      * rewrite orb_false_r. destruct (String.eqb_spec t x) as [->|Hne].
        -- by rewrite dict_get_set_eq, Hx.
        -- by rewrite dict_get_set_ne.
Qed.

Lemma read_columns_returns (schema : string) (tables : list string) (acc : dict (list string)) :
  (forall t, In t tables -> returned (fetch_names (columns_sql schema t)) = true) ->
  exists td, read_columns fetch_names schema tables acc = Returned td.
Proof.
  revert acc. induction tables as [|x l IH]; intros acc Hall; cbn [read_columns]; [by eexists|].
  unfold mbind, outcome_bind.
  pose proof (Hall x (or_introl eq_refl)) as Hx.
  destruct (fetch_names (columns_sql schema x)) as [columns|e]; [|done].
  apply IH. intros t Ht. apply Hall. by right.
Qed.

(** X11: reading the tables of a schema returns exactly when the statement
    listing its tables and the statement listing the columns of each of
    them return; the dictionary then has the listed tables as its keys,
    each once, and maps a table to the columns its statement returned. *)
Theorem read_tables_contents (schema : string) :
  (returned (read_tables fetch_names schema) = true <->
   exists tables,
     fetch_names (tables_sql schema) = Returned tables /\
     forall t, In t tables -> returned (fetch_names (columns_sql schema t)) = true) /\
  forall table_dict,
    read_tables fetch_names schema = Returned table_dict ->
    exists tables,
      fetch_names (tables_sql schema) = Returned tables /\
      NoDup (dict_keys table_dict) /\
      (forall t, In t (dict_keys table_dict) <-> In t tables) /\
      forall t columns,
        dict_get t table_dict = Some columns <->
        In t tables /\ fetch_names (columns_sql schema t) = Returned columns.
Proof.
  unfold read_tables, mbind, outcome_bind. split.
  - split.
    + destruct (fetch_names (tables_sql schema)) as [tables|e]; [|done].
      destruct (read_columns fetch_names schema tables []) as [td|e] eqn:Hr; [|done].
      intros _. exists tables. split; [done|]. by apply read_columns_spec in Hr as (_ & Hall & _).
    + intros (tables & -> & Hall).
      by destruct (read_columns_returns schema tables [] Hall) as [td ->].
  - intros td. destruct (fetch_names (tables_sql schema)) as [tables|e]; [|done].
    intros (Hnd & Hall & Hget)%read_columns_spec. exists tables. split; [done|].
    split; [apply Hnd; constructor|].
    assert (Hlook : forall t columns,
              dict_get t td = Some columns <->
              In t tables /\ fetch_names (columns_sql schema t) = Returned columns).
    { intros t columns. rewrite Hget. cbn [dict_get].
      destruct (PyStr.mem t tables) eqn:Hm.
      - apply mem_spec in Hm.
        destruct (fetch_names (columns_sql schema t)) as [c|e].
        + split; [by intros [= <-] | by intros [_ [= <-]]].
        + split; [done | by intros [_ ?]].
      - split; [done|]. intros [Hin%mem_spec _]. congruence. }
    split; [|done].
    intros t. rewrite <- dict_mem_keys. unfold dict_mem. split.
    + destruct (dict_get t td) as [c|] eqn:Ht; [|done]. intros _. by apply Hlook in Ht as [? _].
    + intros Hin. pose proof (Hall t Hin) as Hr.
      destruct (fetch_names (columns_sql schema t)) as [c|e] eqn:Hc; [|done].
      by rewrite (proj2 (Hlook t c) (conj Hin Hc)).
Qed.

Lemma read_schemas_spec (schemas : list string) (acc : dict (dict (list string))) :
  (NoDup (dict_keys acc) -> NoDup (dict_keys (snd (read_schemas fetch_names schemas acc)))) /\
  forall s, dict_get s (snd (read_schemas fetch_names schemas acc))
            = if PyStr.mem s (readable fetch_names schemas)
              then match read_tables fetch_names s with
                   | Returned table_dict => Some table_dict
                   | Raised _ => None
                   end
              else dict_get s acc.
Proof.
  revert acc. induction schemas as [|x l IH]; intros acc; cbn [read_schemas readable].
  - by split.
  - destruct (read_tables fetch_names x) as [td|e] eqn:Hx; cbn [returned]; [|by split].
    destruct (IH (dict_set x td acc)) as [Hnd Hget]. split.
    + intros Hacc. by apply Hnd, dict_set_NoDup.
    + intros s. rewrite Hget. unfold PyStr.mem. cbn [existsb].
      fold (PyStr.mem s (readable fetch_names l)).
      destruct (PyStr.mem s (readable fetch_names l)) eqn:Hm.
      * by rewrite orb_true_r.
      * rewrite orb_false_r. destruct (String.eqb_spec s x) as [->|Hne].
        -- by rewrite dict_get_set_eq, Hx.
        -- by rewrite dict_get_set_ne.
Qed.

Lemma readable_prefix (schemas : list string) :
  exists rest,
    schemas = readable fetch_names schemas ++ rest /\
    (forall s, In s (readable fetch_names schemas) ->
               returned (read_tables fetch_names s) = true) /\
    match rest with
    | [] => True
    | unreadable :: _ => returned (read_tables fetch_names unreadable) = false
    end.
Proof.
  induction schemas as [|x l (rest & Heq & Hall & Hrest)]; cbn [readable].
  - by exists [].
  - destruct (returned (read_tables fetch_names x)) eqn:Hx.
    + exists rest. split; [cbn; by rewrite <- Heq|]. split; [|done].
      intros s [<- | Hin]; [done | by apply Hall].
    + exists (x :: l). repeat split; done.
Qed.

(** X12: the schema cache holds the schemas the loop got through before
    the first statement that raised, each once and each with the
    dictionary of its tables; the schema whose statements raised and all
    the schemas after it are missing, and nothing is held when no cursor
    could be opened. [SQLAgent.get_schema_info] returns the same
    dictionary. *)
Theorem schema_cache_contents (schemas : list string) :
  let schema_cache := _build_schema_cache connection_cursor fetch_names schemas in
  get_schema_info connection_cursor fetch_names schemas = schema_cache /\
  exists done rest,
    schemas = done ++ rest /\
    (forall s, In s done -> returned (read_tables fetch_names s) = true) /\
    match rest with
    | [] => True
    | unreadable :: _ => returned (read_tables fetch_names unreadable) = false
    end /\
    NoDup (dict_keys schema_cache) /\
    forall s table_dict,
      dict_get s schema_cache = Some table_dict <->
      returned connection_cursor = true /\ In s done /\
      read_tables fetch_names s = Returned table_dict.
Proof.
  intros schema_cache. split; [done|].
  destruct (readable_prefix schemas) as (rest & Heq & Hall & Hrest).
  exists (readable fetch_names schemas), rest.
  split; [done|]. split; [done|]. split; [done|].
  unfold schema_cache, _build_schema_cache. split.
  - destruct connection_cursor; [|constructor]. apply read_schemas_spec. constructor.
  - intros s table_dict. destruct connection_cursor as [[]|e]; cbn [returned dict_get].
    + rewrite (proj2 (read_schemas_spec schemas [])). cbn [dict_get].
      destruct (PyStr.mem s (readable fetch_names schemas)) eqn:Hm.
      * apply mem_spec in Hm. destruct (read_tables fetch_names s) as [td|e'].
        -- split; [by intros [= <-] | by intros (_ & _ & [= <-])].
        -- split; [done | by intros (_ & _ & ?)].
      * split; [done|]. intros (_ & Hin%mem_spec & _). congruence.
    + split; [done | by intros [? _]].
Qed.

Lemma unreadable_first (first : string) (others : list string) (e : exn) :
  read_tables fetch_names first = Raised e ->
  _build_schema_cache connection_cursor fetch_names (first :: others) = [].
Proof.
  intros Hr. unfold _build_schema_cache. destruct connection_cursor; [|done].
  cbn [read_schemas]. by rewrite Hr.
Qed.

End catalog_facts.


Section empty_cache.

Import SchemaAgent.

Lemma nil_no_In {A} (l : list A) : (forall x, ~ In x l) -> l = [].
Proof. destruct l as [|x l]; [done|]. intros H. destruct (H x). by left. Qed.

Lemma columns_of_empty_cache (schema : option string) (tables : list string) :
  columns_of [] schema tables = [].
Proof.
  unfold columns_of. induction tables as [|t l IH]; cbn [fold_left]; [done|].
  by destruct schema.
Qed.

(** With nothing in the cache no table is found in the request, none is
    inferred and no column is attached. *)
Lemma schema_selection_empty_cache (schemas : list string) (q : string) (context : Context) :
  let r := schema_selection schemas [] q context in
  available_schemas r = schemas /\
  selected_tables r = or_list (suggested_tables context) [] /\
  table_columns r = [].
Proof.
  intros r. unfold r, schema_selection.
  cbn [available_schemas selected_tables table_columns].
  rewrite columns_of_empty_cache. split; [done|]. split; [|done].
  assert (He : _extract_tables_from_query schemas [] q = []).
  { apply nil_no_In. intros t Ht. apply _extract_tables_from_query_In in Ht as [Hk _].
    by apply table_known_In in Hk as (schema & tables & _ & ? & _). }
  rewrite He.
  destruct (or_list (suggested_tables context) []) as [|x l] eqn:Ho; [|done].
  unfold _infer_tables_from_query.
  match goal with |- match ?s with Some _ => _ | None => _ end = _ =>
    destruct s as [name|]; [|done] end.
  by destruct (String.eqb name "").
Qed.

(** X13: when the statements for the first schema raise while the schema
    agent is constructed, the agent lists every schema but its cache is
    empty: for every request the selection has no tables beyond those
    hinted in the context, and no columns. *)
Theorem unreadable_first_schema (connection_cursor : outcome unit)
    (fetch_names : string -> outcome (list string))
    (first : string) (others : list string) (e : exn) (q : string) (context : Context) :
  Catalog._get_schemas connection_cursor fetch_names = first :: others ->
  Catalog.read_tables fetch_names first = Raised e ->
  let '(schemas, schema_cache) := Catalog.init connection_cursor fetch_names in
  let r := schema_selection schemas schema_cache q context in
  available_schemas r = first :: others /\
  selected_tables r = or_list (suggested_tables context) [] /\
  table_columns r = [].
Proof.
  intros Hs Hr. unfold Catalog.init. rewrite Hs.
  rewrite (unreadable_first connection_cursor fetch_names first others e Hr).
  apply schema_selection_empty_cache.
Qed.

End empty_cache.


(** ** The memory *)

Section memory_facts.

Import Memory Further.

Context {A : Type}.

Variable ttl : Z.

Implicit Types (x y : Entry A) (l : list (Entry A)) (memory : dict (list (Entry A))).

Lemma insert_newest_Permutation x l : insert_newest x l ≡ₚ x :: l.
Proof.
  induction l as [|y l IH]; cbn [insert_newest]; [done|].
  destruct (Qle_bool (timestamp y) (timestamp x)); [done|].
  rewrite IH. apply Permutation_swap.
Qed.

Lemma sort_newest_first_Permutation l : sort_newest_first l ≡ₚ l.
Proof.
  induction l as [|x l IH]; cbn [sort_newest_first foldr]; [done|].
  fold (sort_newest_first l). by rewrite insert_newest_Permutation, IH.
Qed.

Lemma insert_newest_sorted x l :
  StronglySorted newer_or_equal l -> StronglySorted newer_or_equal (insert_newest x l).
Proof.
  induction 1 as [|y l Hl IH Hy]; cbn [insert_newest].
  - repeat constructor.
  - destruct (Qle_bool (timestamp y) (timestamp x)) eqn:Hle.
    + apply Qle_bool_iff in Hle. constructor; [by constructor|].
      constructor; [done|]. eapply List.Forall_impl; [|exact Hy].
      intros z Hz. unfold newer_or_equal in *. by apply Qle_trans with (timestamp y).
    + constructor; [done|].
      assert (Hxy : newer_or_equal y x).
      { unfold newer_or_equal. apply Qlt_le_weak, Qnot_le_lt.
        intros H%Qle_bool_iff. congruence. }
      apply List.Forall_forall. intros z Hz.
      apply list_elem_of_In in Hz. rewrite insert_newest_Permutation in Hz.
      apply list_elem_of_In in Hz as [<- | Hz]; [done|].
      by apply (proj1 (List.Forall_forall _ _) Hy).
Qed.

Lemma sort_newest_first_sorted l : StronglySorted newer_or_equal (sort_newest_first l).
Proof.
  induction l as [|x l IH]; cbn [sort_newest_first foldr]; [constructor|].
  by apply insert_newest_sorted.
Qed.

(** The sort keeps the order of the entries of one time stamp. *)
Lemma sort_newest_first_stable (t : Q) l :
  List.filter (fun x => Qeq_bool (timestamp x) t) (sort_newest_first l)
  = List.filter (fun x => Qeq_bool (timestamp x) t) l.
Proof.
  induction l as [|x l IH]; cbn [sort_newest_first foldr]; [done|].
  fold (sort_newest_first l). cbn [List.filter]. rewrite <- IH.
  generalize (sort_newest_first l) as s. clear IH. intros s.
  induction s as [|y s IH]; cbn [insert_newest]; [done|].
  destruct (Qle_bool (timestamp y) (timestamp x)) eqn:Hle; [done|].
  cbn [List.filter]. rewrite IH.
  destruct (Qeq_bool (timestamp x) t) eqn:Hx; [|done].
  destruct (Qeq_bool (timestamp y) t) eqn:Hy; [|done].
  apply Qeq_bool_iff in Hx, Hy. exfalso.
  assert (Hyx : (timestamp y <= timestamp x)%Q) by (rewrite Hx, Hy; apply Qle_refl).
  apply Qle_bool_iff in Hyx. congruence.
Qed.

Lemma slice_to_take (n : Z) l :
  exists k, slice_to n l = take k l /\ ((0 <= n)%Z -> k = Z.to_nat n).
Proof.
  unfold slice_to. destruct (Z.ltb_spec n 0).
  - eexists. split; [done | lia].
  - eexists. split; done.
Qed.

Lemma filters_eligible (current_time : Q) (filter_func : option (Entry A -> bool))
    (category : string) memory (items : list (Entry A)) x :
  dict_get category memory = Some items ->
  In x (match filter_func with
        | Some f => List.filter f (List.filter (fresh ttl current_time) items)
        | None => List.filter (fresh ttl current_time) items
        end) <->
  eligible ttl current_time filter_func category memory x.
Proof.
  intros Hg. unfold eligible. rewrite Hg. cbn [default]. unfold fresh.
  destruct filter_func as [f|]; rewrite ?List.filter_In, Qle_bool_iff; tauto.
Qed.

(** X14: [get] returns entries of the category that have not expired and
    pass the filter, newest first and at most [n] of them; no entry it
    leaves out is newer than one it returns, and when it returns fewer
    than [n] it leaves none out. A category never written to gives the
    empty list. *)
Theorem get_recent (current_time : Q) (category : string) (n : Z)
    (filter_func : option (Entry A -> bool)) memory :
  let result := get ttl current_time category n filter_func memory in
  let eligible := eligible ttl current_time filter_func category memory in
  (forall x, In x result -> eligible x) /\
  StronglySorted newer_or_equal result /\
  (forall x y, In x result -> eligible y -> ~ In y result -> newer_or_equal x y) /\
  ((0 <= n)%Z ->
     (length result <= Z.to_nat n)%nat /\
     ((length result < Z.to_nat n)%nat -> forall y, eligible y -> In y result)) /\
  (dict_get category memory = None -> result = []).
Proof.
  intros result el. unfold result, el, get. clear result el.
  destruct (dict_get category memory) as [items|] eqn:Hg.
  2:{ split; [done|]. split; [constructor|]. split; [done|]. split; [|done].
      intros _. split; [cbn; lia|]. intros _ y [Hy _]. by rewrite Hg in Hy. }
  set (chosen := match filter_func with
                 | Some f => List.filter f (List.filter (fresh ttl current_time) items)
                 | None => List.filter (fresh ttl current_time) items
                 end).
  assert (Hel : forall x, In x (sort_newest_first chosen) <->
                          eligible ttl current_time filter_func category memory x).
  { intros x. rewrite <- (filters_eligible _ _ _ _ items) by done. fold chosen.
    rewrite <- !list_elem_of_In. by rewrite sort_newest_first_Permutation. }
  pose proof (sort_newest_first_sorted chosen) as Hsorted.
  destruct (slice_to_take n (sort_newest_first chosen)) as (k & -> & Hk).
  revert Hel Hsorted. generalize (sort_newest_first chosen). intros l Hel Hsorted.
  rewrite <- (take_drop k l) in Hsorted.
  split; [|split; [|split; [|split]]].
  - intros x Hx. apply Hel. apply list_elem_of_In in Hx. apply list_elem_of_In.
    by apply (sublist_subseteq _ _ (sublist_take l k)).
  - by apply StronglySorted_app_1_l in Hsorted.
  - intros x y Hx Hy Hny. apply Hel in Hy. rewrite <- (take_drop k l) in Hy.
    apply in_app_or in Hy as [Hy | Hy]; [done|].
    apply (StronglySorted_app_1_elem_of _ _ _ x y Hsorted); by apply list_elem_of_In.
  - intros Hn. rewrite (Hk Hn), length_take. split; [lia|].
    intros Hlt y Hy. apply Hel in Hy. rewrite take_ge; [done | lia].
  - done.
Qed.

Lemma sort_newest_first_snoc x l :
  (forall y, In y l -> (timestamp y < timestamp x)%Q) ->
  sort_newest_first (l ++ [x]) = x :: sort_newest_first l.
Proof.
  induction l as [|y l IH]; intros Hall; [done|].
  cbn [app sort_newest_first foldr]. fold (sort_newest_first (l ++ [x])).
  fold (sort_newest_first l). rewrite IH by (intros z Hz; apply Hall; by right).
  cbn [insert_newest].
  assert (Hlt : (timestamp y < timestamp x)%Q) by (apply Hall; by left).
  destruct (Qle_bool (timestamp x) (timestamp y)) eqn:Hle; [|done].
  apply Qle_bool_iff in Hle. by apply Qlt_not_le in Hlt.
Qed.

Lemma dict_get_add (now : Q) (category c : string) (item : A) (meta : option (dict pyval)) memory :
  dict_get c (add now category item meta memory)
  = if String.eqb c category
    then Some (default [] (dict_get category memory) ++ [mkEntry now item (default [] meta)])
    else dict_get c memory.
Proof.
  unfold add, dict_mem. destruct (String.eqb_spec c category) as [->|Hne].
  - rewrite dict_get_set_eq. destruct (dict_get category memory) eqn:Hg; [by rewrite Hg|].
    by rewrite dict_get_set_eq.
  - rewrite dict_get_set_ne by done.
    destruct (dict_get category memory); [done|]. by rewrite dict_get_set_ne.
Qed.

(** X15: an item added to a category whose entries are all older is the
    first one [get] returns for as long as it has not expired, followed by
    what [get] returned for one item fewer before the addition; the other
    categories are not affected. *)
Theorem get_after_add (now current_time : Q) (category : string) (item : A)
    (meta : option (dict pyval)) (n : Z) (filter_func : option (Entry A -> bool)) memory :
  let entry := mkEntry now item (default [] meta) in
  let memory' := add now category item meta memory in
  (1 <= n)%Z ->
  (current_time - now <= inject_Z ttl)%Q ->
  match filter_func with Some f => f entry = true | None => True end ->
  (forall y, In y (default [] (dict_get category memory)) -> (timestamp y < now)%Q) ->
  get ttl current_time category n filter_func memory'
  = entry :: get ttl current_time category (n - 1) filter_func memory /\
  forall c k, c <> category ->
    get ttl current_time c k filter_func memory'
    = get ttl current_time c k filter_func memory.
Proof.
  intros entry memory' Hn Hfresh Hpass Hold. split.
  2:{ intros c k Hne. unfold get, memory'. rewrite dict_get_add.
      apply String.eqb_neq in Hne. by rewrite Hne. }
  unfold get, memory'. rewrite dict_get_add, String.eqb_refl. fold entry.
  set (old := default [] (dict_get category memory)) in *.
  set (keep := fun l => match filter_func with
                        | Some f => List.filter f (List.filter (fresh ttl current_time) l)
                        | None => List.filter (fresh ttl current_time) l
                        end).
  assert (Hkeep : keep (old ++ [entry]) = keep old ++ [entry]).
  { unfold keep. assert (Hf : fresh ttl current_time entry = true) by by apply Qle_bool_iff.
    destruct filter_func as [f|]; rewrite !List.filter_app; cbn [List.filter];
      rewrite Hf; cbn [List.filter]; by rewrite ?Hpass. }
  assert (Holder : forall y, In y (keep old) -> (timestamp y < timestamp entry)%Q).
  { intros y Hy. apply Hold. unfold keep in Hy.
    destruct filter_func as [f|]; repeat apply List.filter_In in Hy as [Hy _]; done. }
  fold (keep (old ++ [entry])). rewrite Hkeep, (sort_newest_first_snoc _ _ Holder).
  assert (Hrest : get ttl current_time category (n - 1) filter_func memory
                  = slice_to (n - 1) (sort_newest_first (keep old))).
  { unfold get, old, keep. destruct (dict_get category memory); [done|].
    cbn [default]. destruct filter_func; cbn [List.filter sort_newest_first foldr];
      unfold slice_to; destruct (n - 1 <? 0)%Z; by rewrite take_nil. }
  unfold get in Hrest. rewrite Hrest. unfold slice_to.
  destruct (Z.ltb_spec n 0); [lia|]. destruct (Z.ltb_spec (n - 1) 0); [lia|].
  replace (Z.to_nat n) with (S (Z.to_nat (n - 1))) by lia. done.
Qed.

Lemma dict_get_clear (category : string) (c : string) memory :
  category <> "" ->
  dict_get c (clear (Some category) memory)
  = if String.eqb c category then (fun _ => []) <$> dict_get c memory else dict_get c memory.
Proof.
  intros Hne. unfold clear, dict_mem. apply String.eqb_neq in Hne. rewrite Hne. cbn [negb].
  destruct (String.eqb_spec c category) as [->|Hc].
  - destruct (dict_get category memory) eqn:Hg; [by rewrite dict_get_set_eq | by rewrite Hg].
  - destruct (dict_get category memory); [by rewrite dict_get_set_ne | done].
Qed.

(** X16: after [clear] of a category [get] finds nothing in it and finds
    in the others what it found before, and the categories stay the same;
    [clear] without a category, or with the empty string for one, empties
    every category. *)
Theorem get_after_clear (current_time : Q) (category : option string) (c : string) (n : Z)
    (filter_func : option (Entry A -> bool)) memory :
  let memory' := clear category memory in
  (SchemaAgent.truthy category = false ->
     memory' = [] /\ get ttl current_time c n filter_func memory' = []) /\
  (SchemaAgent.truthy category = true ->
     dict_keys memory' = dict_keys memory /\
     get ttl current_time c n filter_func memory'
     = if decide (category = Some c) then []
       else get ttl current_time c n filter_func memory).
Proof.
  intros memory'. unfold memory'. split.
  - destruct category as [name|]; cbn [SchemaAgent.truthy]; [|done].
    destruct (String.eqb name "") eqn:He; [|done]. intros _. unfold clear. by rewrite He.
  - destruct category as [name|]; cbn [SchemaAgent.truthy]; [|done].
    intros Hne%negb_true_iff%String.eqb_neq. split.
    + unfold clear. apply String.eqb_neq in Hne. rewrite Hne. cbn [negb].
      destruct (dict_mem name memory) eqn:Hm; [|done].
      by rewrite dict_keys_set, Hm.
    + unfold get. rewrite dict_get_clear by done.
      destruct (String.eqb_spec c name) as [->|Hc].
      * rewrite decide_True by done. destruct (dict_get name memory); [|done].
        cbn. destruct filter_func; cbn; unfold slice_to; destruct (n <? 0)%Z; by rewrite take_nil.
      * rewrite decide_False by congruence. done.
Qed.

End memory_facts.


(** The sample catalog: one schema, one table, two columns. *)
Lemma read_tables_contents_witness :
  exists tables,
    Further.sample_catalog (Catalog.tables_sql "S") = Returned tables /\
    NoDup (dict_keys [("ORDERS", ["ID"; "TOTAL"])]) /\
    (forall t, In t (dict_keys [("ORDERS", ["ID"; "TOTAL"])]) <-> In t tables) /\
    forall t columns,
      dict_get t [("ORDERS", ["ID"; "TOTAL"])] = Some columns <->
      In t tables /\ Further.sample_catalog (Catalog.columns_sql "S" t) = Returned columns.
Proof.
  apply (proj2 (read_tables_contents Further.sample_catalog "S")). vm_compute. reflexivity.
Defined.

(** Two schemas listed, none of them readable. *)
Lemma unreadable_first_schema_witness :
  let r := SchemaAgent.schema_selection ["A"; "B"] [] "show orders"
             (mkContext None None None None None None) in
  available_schemas r = ["A"; "B"] /\
  selected_tables r = SchemaAgent.or_list None [] /\
  table_columns r = [].
Proof.
  apply (unreadable_first_schema (Returned tt) Further.locked_catalog "A" ["B"]
           (Exception "ORA-01031: insufficient privileges") "show orders"
           (mkContext None None None None None None)); vm_compute; reflexivity.
Defined.

(** An item added at time 10 to a category holding one entry of time 5,
    read at time 20 with an hour to live. *)
Lemma get_after_add_witness :
  let memory := [("c", [Memory.mkEntry 5 "old" []])] in
  Memory.get 3600 20 "c" 3 None (Memory.add 10 "c" "new" None memory)
  = Memory.mkEntry 10 "new" [] :: Memory.get 3600 20 "c" 2 None memory /\
  forall c k, c <> "c" ->
    Memory.get 3600 20 c k None (Memory.add 10 "c" "new" None memory)
    = Memory.get 3600 20 c k None memory.
Proof.
  intros memory.
  apply (get_after_add 3600 10 20 "c" "new" None 3 None memory); [lia | by vm_compute | done |].
  intros y [<- | []]. reflexivity.
Defined.


(** ** Query results *)

Section zipped_rows.

Context {V : Type}.

Implicit Types (kvs : list (string * V)) (acc : dict V).

Import Further.

Lemma set_all_cons (k : string) (v : V) kvs acc :
  set_all ((k, v) :: kvs) acc = set_all kvs (dict_set k v acc).
Proof. done. Qed.

Lemma set_all_keys kvs acc :
  (NoDup (dict_keys acc) -> NoDup (dict_keys (set_all kvs acc))) /\
  forall k, In k (dict_keys (set_all kvs acc)) <-> In k (map fst kvs) \/ In k (dict_keys acc).
Proof.
  revert acc. induction kvs as [|[k0 v0] kvs IH]; intros acc.
  - split; [done|]. intros k. split; [by right | by intros [[] | ?]].
  - rewrite set_all_cons. cbn [map fst].
    destruct (IH (dict_set k0 v0 acc)) as [Hnd Hin]. split.
    + intros Hacc. by apply Hnd, dict_set_NoDup.
    + intros k. rewrite Hin, dict_keys_set.
      destruct (dict_mem k0 acc) eqn:Hm.
      * apply dict_mem_keys in Hm. split; [intros [? | ?]; [left; by right | by right]|].
        intros [[<- | ?] | ?]; [by right | by left | by right].
      * rewrite in_app_iff. cbn [In]. tauto.
Qed.

Lemma set_all_get_other kvs acc (k : string) :
  ~ In k (map fst kvs) -> dict_get k (set_all kvs acc) = dict_get k acc.
Proof.
  revert acc. induction kvs as [|[k0 v0] kvs IH]; intros acc Hk; [done|].
  rewrite set_all_cons. cbn [map fst In] in Hk. rewrite IH by tauto.
  apply dict_get_set_ne. tauto.
Qed.

Lemma set_all_get kvs acc (k : string) (v : V) :
  NoDup (map fst kvs) -> In (k, v) kvs -> dict_get k (set_all kvs acc) = Some v.
Proof.
  revert acc. induction kvs as [|[k0 v0] kvs IH]; intros acc Hnd Hin; [done|].
  cbn [map fst] in Hnd. apply NoDup_cons in Hnd as [Hk0 Hnd]. rewrite set_all_cons.
  destruct Hin as [[= -> ->] | Hin]; [|by apply IH].
  rewrite set_all_get_other by (by rewrite <- list_elem_of_In).
  apply dict_get_set_eq.
Qed.

Lemma combine_keys (ks : list string) (vs : list V) :
  map fst (combine ks vs) = take (length vs) ks.
Proof.
  revert vs. induction ks as [|k ks IH]; intros [|v vs]; cbn; try done. by rewrite IH.
Qed.

Lemma combine_lookup (ks : list string) (vs : list V) (j : nat) (k : string) (v : V) :
  ks !! j = Some k -> vs !! j = Some v -> In (k, v) (combine ks vs).
Proof.
  revert vs j. induction ks as [|k0 ks IH]; intros [|v0 vs] [|j]; cbn; try done.
  - intros [= ->] [= ->]. by left.
  - intros Hk Hv. right. by apply (IH vs j).
Qed.

(** [dict(zip(ks, vs))] has the keys that were given a value, each once,
    and when no key is repeated each key has the value at its position. *)
Lemma dict_zip_spec (ks : list string) (vs : list V) :
  NoDup (dict_keys (dict_zip ks vs)) /\
  (forall k, In k (dict_keys (dict_zip ks vs)) <-> In k (take (length vs) ks)) /\
  (NoDup ks -> forall j k v, ks !! j = Some k -> vs !! j = Some v ->
                             dict_get k (dict_zip ks vs) = Some v).
Proof.
  unfold dict_zip. fold (set_all (combine ks vs) []).
  destruct (set_all_keys (combine ks vs) []) as [Hnd Hin]. split; [|split].
  - apply Hnd. constructor.
  - intros k. rewrite Hin, combine_keys. cbn. tauto.
  - intros Hks j k v Hk Hv. apply set_all_get; [|by apply (combine_lookup _ _ j)].
    rewrite combine_keys. by apply (sublist_NoDup _ ks), sublist_take.
Qed.

End zipped_rows.

Section formatted_results.

Import DbUtils.

(** X17: the formatted result holds the rows of the cursor in their order,
    all of them when [max_rows] is 0 and the first [max_rows] otherwise;
    [row_count] is their number; [truncated] is set exactly when the
    cursor had [max_rows] rows or more (so also when none was cut, and
    always for [max_rows = 0]); each row is a dictionary from the columns
    that have a value in it to these values. *)
Theorem format_oracle_results_rows (cursor : Cursor) (max_rows : nat) (sql_query : string) :
  let columns := default [] (cursor_description cursor) in
  let rows := cursor_rows cursor in
  exists data truncated,
    format_oracle_results cursor max_rows sql_query
    = QueryData columns data (length data) truncated (cursor_rowcount cursor) sql_query /\
    length data = (if (0 <? max_rows)%nat then Nat.min max_rows (length rows) else length rows) /\
    (truncated = true <-> (max_rows <= length rows)%nat) /\
    forall i r,
      data !! i = Some r ->
      exists cells,
        rows !! i = Some cells /\
        NoDup (dict_keys r) /\
        (forall c, In c (dict_keys r) <-> In c (take (length cells) columns)) /\
        (NoDup columns -> forall j c v, columns !! j = Some c -> cells !! j = Some v ->
                                        dict_get c r = Some v).
Proof.
  intros columns rows. unfold format_oracle_results. fold columns rows.
  eexists _, _. split; [reflexivity|].
  assert (Hlen : length (map (dict_zip columns)
                             (if (0 <? max_rows)%nat then take max_rows rows else rows))
                 = if (0 <? max_rows)%nat then Nat.min max_rows (length rows) else length rows).
  { rewrite length_map. destruct (0 <? max_rows)%nat; [apply length_take | done]. }
  split; [done|]. split.
  - rewrite Hlen, Nat.leb_le. destruct (Nat.ltb_spec 0 max_rows); lia.
  - intros i r Hi. rewrite list_lookup_fmap in Hi.
    destruct ((if (0 <? max_rows)%nat then take max_rows rows else rows) !! i)
      as [cells|] eqn:Hc; [|done].
    cbn in Hi. injection Hi as <-. exists cells. split.
    + destruct (0 <? max_rows)%nat; [|done]. by apply lookup_take_Some in Hc as [? _].
    + apply dict_zip_spec.
Qed.

End formatted_results.


(** ** The query agent *)

Section query_agent_facts.

Import QueryAgent.

Variable cursor_execute : string -> outcome Cursor.

Lemma execute_query_generated
    (generate_sql : string -> option SchemaInfo -> list (string * MemItem) -> string)
    (q : string) (context : Context) (w : World) :
  let sql_query := generate_sql q (schema_info context) (memory w) in
  exists qr w',
    execute_query cursor_execute (Some generate_sql) q context w = (Returned qr, w') /\
    calls w' = calls w ++ [CallGenerateSql q; CallCursorExecute sql_query] /\
    (length (result_data qr) <= 100)%nat /\
    match cursor_execute sql_query with
    | Returned cursor =>
        qr = DbUtils.format_oracle_results cursor 100 sql_query /\
        memory w' = memory w ++ [("executed_queries", MemExecutedQuery q sql_query)]
    | Raised e =>
        qr = QueryError (describe e) sql_query /\ memory w' = memory w
    end.
Proof.
  intros sql_query. unfold execute_query, _generate_sql_query, try_except.
  unfold mbind, mret, M_bind, M_ret, log_call, memory_add, raise. cbn [memory calls].
  fold sql_query. destruct (cursor_execute sql_query) as [cursor|e] eqn:Hc.
  - eexists _, _. split; [reflexivity|]. cbn [memory calls].
    rewrite <- app_assoc. split; [done|]. split; [|done].
    unfold DbUtils.format_oracle_results. cbn [result_data Nat.ltb Nat.leb].
    rewrite length_map, length_take. lia.
  - eexists _, _. split; [reflexivity|]. cbn [memory calls result_data length].
    rewrite <- app_assoc. split; [done|]. split; [lia | done].
Qed.

(** X18: with a Bedrock agent [execute_query] never raises. It asks for one
    statement and executes it once; when the execution returns, the result
    is the formatted cursor, with at most 100 rows, and one entry is added
    to [executed_queries]; when it raises, the result is the error
    dictionary with the text of the exception and the memory is as it
    was. Without a Bedrock agent it raises a [TypeError] for every
    request: the fallback is called with two arguments and the
    [_generate_sql_with_rules] in force takes four; nothing is executed
    and nothing is added to the memory. *)
Theorem execute_query_outcome
    (bedrock_agent : option (string -> option SchemaInfo -> list (string * MemItem) -> string))
    (q : string) (context : Context) (w : World) :
  match bedrock_agent with
  | Some generate_sql =>
      let sql_query := generate_sql q (schema_info context) (memory w) in
      exists qr w',
        execute_query cursor_execute bedrock_agent q context w = (Returned qr, w') /\
        calls w' = calls w ++ [CallGenerateSql q; CallCursorExecute sql_query] /\
        (length (result_data qr) <= 100)%nat /\
        match cursor_execute sql_query with
        | Returned cursor =>
            qr = DbUtils.format_oracle_results cursor 100 sql_query /\
            memory w' = memory w ++ [("executed_queries", MemExecutedQuery q sql_query)]
        | Raised e =>
            qr = QueryError (describe e) sql_query /\ memory w' = memory w
        end
  | None =>
      exists msg,
        execute_query cursor_execute bedrock_agent q context w = (Raised (TypeError msg), w) /\
        PyStr.contains "missing 2 required positional arguments" msg = true
  end.
Proof.
  destruct bedrock_agent as [generate_sql|].
  - apply execute_query_generated.
  - eexists. split; [reflexivity|]. vm_compute. reflexivity.
Qed.

End query_agent_facts.


(** ** The discrepancy agent: the generic checks *)

Section generic_checks.

Import DiscrepancyAgent Specified Further.

Lemma null_checks_row_In (idx : nat) (r : row) (v : pyval) :
  In v (null_checks_row idx r) <->
  exists field,
    In (field, CNone) r /\ PyStr.mem (PyStr.lower field) skipped_fields = false /\
    v = null_record idx field.
Proof.
  unfold null_checks_row. rewrite in_flat_map. split.
  - intros ([field value] & Hin & Hv). cbn [fst snd] in Hv.
    destruct (PyStr.mem (PyStr.lower field) skipped_fields) eqn:Hs; [done|].
    destruct value; try done. destruct Hv as [<- | []]. by exists field.
  - intros (field & Hin & Hs & ->). exists (field, CNone). split; [done|].
    cbn [fst snd]. rewrite Hs. by left.
Qed.

Lemma null_checks_In (start : nat) (data : list row) (v : pyval) :
  In v (null_checks start data) <->
  exists i r field,
    data !! i = Some r /\ In (field, CNone) r /\
    PyStr.mem (PyStr.lower field) skipped_fields = false /\
    v = null_record (start + i) field.
Proof.
  revert start. induction data as [|r data IH]; intros start; cbn [null_checks].
  - split; [done | by intros (i & r & field & ? & _)].
  - rewrite in_app_iff, null_checks_row_In, IH. split.
    + intros [(field & Hin & Hs & ->) | (i & r' & field & Hi & Hin & Hs & ->)].
      * exists 0%nat, r, field. by rewrite Nat.add_0_r.
      * exists (S i), r', field. repeat split; try done. f_equal. lia.
    + intros ([|i] & r' & field & Hi & Hin & Hs & ->).
      * injection Hi as <-. left. exists field. by rewrite Nat.add_0_r.
      * right. exists i, r', field. repeat split; try done. f_equal. lia.
Qed.

Lemma duplicate_checks_In (data : list row) (field : string) (v : pyval) :
  In v (duplicate_checks data field) ->
  exists first idx r,
    (first < idx)%nat /\ data !! idx = Some r /\
    v = duplicate_record field (row_get field r) first idx.
Proof.
  rewrite duplicate_checks_positions. destruct (present field data); [|done].
  unfold duplicates_by_position. rewrite <- list_elem_of_In, list_elem_of_omap.
  intros (idx & Hidx & Hat). unfold duplicate_at in Hat.
  destruct (data !! idx) as [r|] eqn:Hr; [|done]. cbn [any_value] in Hat.
  unfold first_row_with in Hat.
  destruct (list_find (fun r0 => row_get field r0 = row_get field r) (take idx data))
    as [[first r0]|] eqn:Hfind; [|done].
  cbn in Hat. injection Hat as <-. exists first, idx, r. split; [|done].
  apply list_find_Some in Hfind as (Hl & _). apply lookup_lt_Some in Hl.
  rewrite length_take in Hl. lia.
Qed.

Lemma null_record_fields (idx : nat) (field : string) :
  record_type (null_record idx field) = Some "null_value" /\
  row_indices (null_record idx field) = [Z.of_nat idx].
Proof. done. Qed.

Lemma duplicate_record_fields (field : string) (value : cell) (first idx : nat) :
  record_type (duplicate_record field value first idx) = Some "duplicate_value" /\
  row_indices (duplicate_record field value first idx) = [Z.of_nat first; Z.of_nat idx].
Proof. done. Qed.

(** X19: the generic checks report a null value exactly for the fields of
    a row whose value is [None] and whose name, in lower case, is not one
    of [id], [created_at], [updated_at], [notes] and [description]; the
    record names the row by its index and the field as it is written. *)
Theorem generic_checks_null_records (data : list row) (schema_info : option SchemaInfo)
    (v : pyval) :
  In v (_apply_generic_checks data schema_info) /\ record_type v = Some "null_value" <->
  exists idx r field,
    data !! idx = Some r /\ In (field, CNone) r /\
    ~ In (PyStr.lower field) ["id"; "created_at"; "updated_at"; "notes"; "description"] /\
    v = null_record idx field.
Proof.
  unfold _apply_generic_checks. rewrite in_app_iff, null_checks_In. split.
  - intros [[(i & r & field & Hi & Hin & Hs & ->) | Hd] Ht].
    + exists i, r, field. repeat split; try done.
      intros Hm%mem_spec. fold skipped_fields in Hm. congruence.
    + apply in_flat_map in Hd as (field & _ & Hd).
      by apply duplicate_checks_In in Hd as (first & idx & r & _ & _ & ->).
  - intros (i & r & field & Hi & Hin & Hs & ->). split; [|done]. left.
    exists i, r, field. repeat split; try done.
    apply not_true_is_false. by intros Hm%mem_spec.
Qed.

(** X20: every record of the generic checks is a null-value or a
    duplicate-value record, and the row indices it gives are positions of
    the data: one for a null value, two in increasing order for a
    duplicate. *)
Theorem generic_checks_row_indices (data : list row) (schema_info : option SchemaInfo)
    (v : pyval) :
  In v (_apply_generic_checks data schema_info) ->
  (forall i, In i (row_indices v) -> (0 <= i < Z.of_nat (length data))%Z) /\
  ((record_type v = Some "null_value" /\ exists idx, row_indices v = [Z.of_nat idx]) \/
   (record_type v = Some "duplicate_value" /\
    exists first idx, row_indices v = [Z.of_nat first; Z.of_nat idx] /\ (first < idx)%nat)).
Proof.
  unfold _apply_generic_checks. rewrite in_app_iff, null_checks_In.
  intros [(i & r & field & Hi & _ & _ & ->) | Hd].
  - apply lookup_lt_Some in Hi. cbn [Nat.add].
    destruct (null_record_fields i field) as [-> ->]. split.
    + intros j [<- | []]. unfold row, dict in *. lia.
    + left. split; [done|]. by exists i.
  - apply in_flat_map in Hd as (field & _ & Hd).
    apply duplicate_checks_In in Hd as (first & idx & r & Hlt & Hi & ->).
    apply lookup_lt_Some in Hi.
    destruct (duplicate_record_fields field (row_get field r) first idx) as [-> ->]. split.
    + intros j [<- | [<- | []]]; unfold row, dict in *; lia.
    + right. split; [done|]. by exists first, idx.
Qed.

End generic_checks.


(** ** The discrepancy agent: the business rules *)

Section business_rules_facts.

Import DiscrepancyAgent Further.

Variable cursor_execute : string -> outcome Cursor.

(** One rule: its records, and a memory that is not written to. *)
Lemma apply_rule_records (data : list row) (name : string) (rule : Rule) (w : World) :
  exists w',
    apply_rule cursor_execute data name rule w
    = (rule_records cursor_execute data name rule, w') /\
    memory w' = memory w.
Proof.
  unfold apply_rule, rule_records. fold builtin_checks.
  destruct (PyStr.mem name builtin_checks); [by eexists|].
  unfold mbind, mret, M_bind, M_ret, log_call, raise.
  destruct (check_function rule) as [f|].
  { destruct (f data); by eexists. }
  unfold _execute_rule_query.
  destruct (rule_sql_query rule) as [sql|]; [|by eexists].
  destruct (String.eqb sql ""); [by eexists|].
  unfold mbind, mret, M_bind, M_ret, log_call. cbn [memory calls].
  destruct (cursor_execute sql) as [cursor|e]; [|by eexists].
  rewrite map_map. by eexists.
Qed.

Lemma apply_rules_records (data : list row) (rules : dict Rule) (w : World) :
  exists w',
    apply_rules cursor_execute data rules w
    = (registry_records cursor_execute data rules, w') /\
    memory w' = memory w.
Proof.
  revert w. induction rules as [|[name rule] rules IH]; intros w; [by eexists|].
  cbn [apply_rules registry_records]. unfold mbind, mret, M_bind, M_ret, outcome_bind.
  destruct (apply_rule_records data name rule w) as (w1 & -> & Hm1).
  destruct (rule_records cursor_execute data name rule) as [records|e]; [|by eexists].
  destruct (IH w1) as (w2 & -> & Hm2).
  destruct (registry_records cursor_execute data rules) as [others|e];
    eexists; (split; [reflexivity | congruence]).
Qed.

Lemma _apply_business_rules_records (rules : dict Rule) (data : list row)
    (schema_info : option SchemaInfo) (w : World) :
  exists w',
    _apply_business_rules cursor_execute rules data schema_info w
    = (registry_records cursor_execute data rules, w') /\
    memory w' = memory w.
Proof.
  unfold _apply_business_rules, mbind, mret, M_bind, M_ret, log_call.
  destruct rules as [|nr rules]; [by eexists|].
  match goal with |- context [apply_rules _ _ ?rs ?w0] =>
    destruct (apply_rules_records data rs w0) as (w1 & -> & Hm) end.
  by eexists.
Qed.

(** For an analysis that always returns, the check with an analysis that
    may raise is the check of the discrepancy agent. *)
Lemma check_discrepancies_returning
    (bedrock_agent : option (QueryResult -> dict Rule -> list pyval))
    (business_rules : dict Rule) (context : Context) (w : World) :
  Propagating.check_discrepancies cursor_execute
    ((fun analyze qr rules => Returned (analyze qr rules)) <$> bedrock_agent)
    business_rules context w
  = check_discrepancies cursor_execute bedrock_agent business_rules context w.
Proof.
  unfold Propagating.check_discrepancies, check_discrepancies.
  destruct (query_result context) as [qr|]; [|done].
  destruct (result_data qr) as [|r data]; [done|].
  destruct bedrock_agent as [f|]; [|done]. by destruct business_rules.
Qed.

(** The run of the check on a result with rows, in full. *)
Lemma check_discrepancies_run
    (bedrock_agent : option (QueryResult -> dict Rule -> outcome (list pyval)))
    (business_rules : dict Rule) (context : Context) (qr : QueryResult) (w : World) :
  query_result context = Some qr ->
  result_data qr <> [] ->
  let analysis := match bedrock_agent, business_rules with
                  | Some analyze_discrepancies, _ :: _ =>
                      analyze_discrepancies qr business_rules
                  | _, _ => Returned []
                  end in
  let asked := match bedrock_agent, business_rules with
               | Some _, _ :: _ => [CallAnalyzeDiscrepancies]
               | _, _ => []
               end in
  exists w1,
    memory w1 = memory w /\
    Propagating.check_discrepancies cursor_execute bedrock_agent business_rules context w
    = match analysis with
      | Raised e => (Raised e, mkWorld (memory w) (calls w ++ asked))
      | Returned ai =>
          match registry_records cursor_execute (result_data qr) business_rules with
          | Raised e => (Raised e, w1)
          | Returned business =>
              let ds := ai ++ _apply_generic_checks (result_data qr) (schema_info context)
                           ++ business in
              (Returned ds,
               match ds with
               | [] => w1
               | _ => mkWorld (memory w1 ++ [("discrepancies", MemDiscrepancies ds)])
                        (calls w1)
               end)
          end
      end.
Proof.
  intros Hqr Hdata analysis asked.
  destruct (result_data qr) as [|r data] eqn:Hd; [done|].
  assert (Hfirst : (match bedrock_agent, business_rules with
                    | Some analyze_discrepancies, _ :: _ =>
                        _ ← log_call CallAnalyzeDiscrepancies;
                        match analyze_discrepancies qr business_rules with
                        | Returned discrepancies => mret discrepancies
                        | Raised e => raise e
                        end
                    | _, _ => mret []
                    end) w = (analysis, mkWorld (memory w) (calls w ++ asked))).
  { unfold analysis, asked. destruct w as [m c].
    destruct bedrock_agent as [f|]; [|by rewrite app_nil_r].
    destruct business_rules as [|nr rs]; [by rewrite app_nil_r|].
    unfold mbind, mret, M_bind, M_ret, log_call, raise.
    cbn [memory calls]. by destruct (f qr (nr :: rs)). }
  clearbody analysis.
  destruct (_apply_business_rules_records business_rules (r :: data) (schema_info context)
              (mkWorld (memory w) ((calls w ++ asked) ++ [CallGenericChecks])))
    as (w1 & Hrules & Hm).
  cbn [memory] in Hm. exists w1. split; [done|].
  unfold Propagating.check_discrepancies. rewrite Hqr, Hd.
  unfold mbind at 1, M_bind at 1. rewrite Hfirst.
  destruct analysis as [ai|e]; [|done].
  unfold mbind, mret, M_bind, M_ret, log_call. cbn [memory calls]. rewrite Hrules.
  destruct (registry_records cursor_execute (r :: data) business_rules) as [business|e];
    [|done].
  cbn zeta.
  by destruct (ai ++ _apply_generic_checks (r :: data) (schema_info context) ++ business).
Qed.


(** X21: the discrepancy check on a result with rows, the analysis of the
    Bedrock agent being a call that may raise. What the analysis raises is
    raised, before any check is made or rule applied; else what the check
    function of a rule raises is raised; in both cases the memory is as it
    was. Else the check returns the records of the analysis (none without
    an agent or without rules), then those of the generic checks, then
    those of the rules in the order of the registry, and this list is
    added to the memory as one entry exactly when it is not empty. *)
Theorem check_discrepancies_outcome
    (bedrock_agent : option (QueryResult -> dict Rule -> outcome (list pyval)))
    (business_rules : dict Rule) (context : Context) (qr : QueryResult) (w : World) :
  query_result context = Some qr ->
  result_data qr <> [] ->
  let analysis := match bedrock_agent, business_rules with
                  | Some analyze_discrepancies, _ :: _ =>
                      analyze_discrepancies qr business_rules
                  | _, _ => Returned []
                  end in
  exists w',
    match analysis with
    | Raised e =>
        Propagating.check_discrepancies cursor_execute bedrock_agent business_rules context w
        = (Raised e, w') /\
        memory w' = memory w /\
        (forall c, In c (calls w') -> In c (calls w) \/ c = CallAnalyzeDiscrepancies)
    | Returned ai =>
        match registry_records cursor_execute (result_data qr) business_rules with
        | Raised e =>
            Propagating.check_discrepancies cursor_execute bedrock_agent business_rules
              context w
            = (Raised e, w') /\
            memory w' = memory w
        | Returned business =>
            let ds := ai ++ _apply_generic_checks (result_data qr) (schema_info context)
                         ++ business in
            Propagating.check_discrepancies cursor_execute bedrock_agent business_rules
              context w
            = (Returned ds, w') /\
            memory w' = memory w ++ match ds with
                                    | [] => []
                                    | _ => [("discrepancies", MemDiscrepancies ds)]
                                    end
        end
    end.
Proof.
  intros Hqr Hdata analysis.
  destruct (check_discrepancies_run bedrock_agent business_rules context qr w Hqr Hdata)
    as (w1 & Hm & Hrun).
  fold analysis in Hrun. rewrite Hrun. clearbody analysis.
  destruct analysis as [ai|e].
  - destruct (registry_records cursor_execute (result_data qr) business_rules)
      as [business|e]; [|by eexists].
    cbn zeta.
    destruct (ai ++ _apply_generic_checks (result_data qr) (schema_info context) ++ business)
      as [|d ds]; eexists; (split; [reflexivity|]); cbn [memory];
      by rewrite Hm, ?app_nil_r.
  - eexists. split; [reflexivity|]. split; [done|]. cbn [calls].
    intros c [Hc | Hc]%in_app_or; [by left|]. right.
    destruct bedrock_agent; [|done]. destruct business_rules; [done|].
    by destruct Hc as [<- | []].
Qed.

(** X23: a rule given by a statement, under a name that is not the name
    of a built-in check: the statement is executed once; when it raises,
    the rule reports nothing, as if nothing were violated; when it
    returns, the rule reports one record for each row, in order, with the
    row as its details, the type, the severity and the name as the rule
    gives them or [business_rule], [medium] and [unnamed]. The name under
    which the rule is registered is not in the record. *)
Theorem rule_query_records (data : list row) (name : string) (rule : Rule)
    (sql_query : string) (w : World) :
  ~ In name builtin_checks ->
  check_function rule = None ->
  rule_sql_query rule = Some sql_query ->
  sql_query <> "" ->
  exists ds w',
    apply_rule cursor_execute data name rule w = (Returned ds, w') /\
    memory w' = memory w /\
    calls w' = calls w ++ [CallRuleCheck name; CallCursorExecute sql_query] /\
    match cursor_execute sql_query with
    | Raised _ => ds = []
    | Returned cursor =>
        length ds = length (cursor_rows cursor) /\
        forall i v,
          ds !! i = Some v ->
          record_field "type" v = Some (PStr (default "business_rule" (rule_type rule))) /\
          record_field "severity" v = Some (PStr (default "medium" (rule_severity rule))) /\
          record_field "rule_name" v = Some (PStr (default "unnamed" (rule_name rule))) /\
          exists cells,
            cursor_rows cursor !! i = Some cells /\
            record_field "details" v
            = Some (row_to_py (dict_zip (default [] (cursor_description cursor)) cells))
    end.
Proof.
  intros Hn Hf Hq Hne. unfold apply_rule.
  assert (Hb : PyStr.mem name builtin_checks = false).
  { apply not_true_is_false. by intros H%mem_spec. }
  rewrite Hb, Hf, Hq. unfold _execute_rule_query. rewrite Hq.
  apply String.eqb_neq in Hne. rewrite Hne.
  unfold mbind, mret, M_bind, M_ret, log_call. cbn [memory calls].
  destruct (cursor_execute sql_query) as [cursor|e]; eexists _, _;
    (split; [reflexivity|]); cbn [memory calls]; rewrite <- app_assoc;
    (split; [done|]); (split; [done|]); [|done].
  split; [by rewrite !length_map|]. intros i v Hi.
  rewrite !list_lookup_fmap in Hi.
  destruct (cursor_rows cursor !! i) as [cells|]; [|done].
  cbn in Hi. injection Hi as <-. repeat split; try done. by exists cells.
Qed.

Lemma apply_rules_builtin (data : list row) (rules : dict Rule) (w : World) :
  (forall name rule, In (name, rule) rules -> In name builtin_checks) ->
  apply_rules cursor_execute data rules w
  = (Returned [], mkWorld (memory w) (calls w ++ map CallRuleCheck (dict_keys rules))).
Proof.
  revert w. induction rules as [|[name rule] rules IH]; intros w Hall; cbn [apply_rules].
  - cbn. rewrite app_nil_r. by destruct w.
  - unfold mbind, mret, M_bind, M_ret, apply_rule.
    assert (Hb : PyStr.mem name builtin_checks = true).
    { apply mem_spec, (Hall name rule). by left. }
    rewrite Hb. unfold mbind, mret, M_bind, M_ret, log_call.
    rewrite IH by (intros n r Hin; apply (Hall n r); by right).
    cbn [memory calls app map dict_keys fst]. by rewrite <- app_assoc.
Qed.

(** X24: a rule stored under the name of a built-in check
    ([price_consistency], [inventory_balance]) is handled by the built-in
    check, which reports nothing: for a registry of such rules no
    statement is executed, whatever statement or check function the rules
    bring along, and no record is returned. *)
Theorem builtin_named_rules_skipped (business_rules : dict Rule) (data : list row)
    (schema_info : option SchemaInfo) (w : World) :
  (forall name rule, In (name, rule) business_rules -> In name builtin_checks) ->
  _apply_business_rules cursor_execute business_rules data schema_info w
  = (Returned [],
     mkWorld (memory w)
             (calls w ++ CallBusinessRules :: map CallRuleCheck (dict_keys business_rules))).
Proof.
  intros Hall. unfold _apply_business_rules, mbind, mret, M_bind, M_ret, log_call.
  destruct business_rules as [|nr rules] eqn:Hr; [done|].
  rewrite apply_rules_builtin by done. cbn [memory calls]. by rewrite <- app_assoc.
Qed.

End business_rules_facts.

(** The rules of [run.py]: both bear the name of a built-in check. *)
Lemma builtin_named_rules_skipped_witness :
  DiscrepancyAgent._apply_business_rules (fun _ => Raised (Exception "not reached"))
    Run.business_rules [[("ID", CInt 1)]] None (mkWorld [] [])
  = (Returned [],
     mkWorld [] [CallBusinessRules; CallRuleCheck "price_consistency";
                 CallRuleCheck "inventory_balance"]).
Proof.
  apply (builtin_named_rules_skipped (fun _ => Raised (Exception "not reached"))
           Run.business_rules [[("ID", CInt 1)]] None (mkWorld [] [])).
  intros name rule [[= <- _] | [[= <- _] | []]]; cbn; tauto.
Defined.

(** Two rows with the same [id]. *)
Lemma generic_checks_row_indices_witness :
  let v := DiscrepancyAgent.duplicate_record "id" (CInt 7) 0 1 in
  (forall i, In i (Further.row_indices v) -> (0 <= i < 2)%Z) /\
  ((Further.record_type v = Some "null_value" /\
    exists idx, Further.row_indices v = [Z.of_nat idx]) \/
   (Further.record_type v = Some "duplicate_value" /\
    exists first idx,
      Further.row_indices v = [Z.of_nat first; Z.of_nat idx] /\ (first < idx)%nat)).
Proof.
  apply (generic_checks_row_indices [[("id", CInt 7)]; [("id", CInt 7)]] None
           (DiscrepancyAgent.duplicate_record "id" (CInt 7) 0 1)).
  vm_compute. by left.
Defined.


(** ** The run of a plan *)

Section run_facts.

Import Planner SQLAgent Further.

Variable schemas : list string.
Variable schema_cache : dict (dict (list string)).
Variable cursor_execute : string -> outcome Cursor.
Variable generate_sql : string -> option SchemaInfo -> list (string * MemItem) -> string.
Variable analyze_discrepancies : QueryResult -> dict DiscrepancyAgent.Rule -> list pyval.
Variable business_rules : dict DiscrepancyAgent.Rule.
Variable q : string.

Local Abbreviation run_step := (execute_step schemas schema_cache cursor_execute generate_sql
                                  analyze_discrepancies business_rules q).
Local Abbreviation run_steps := (execute_steps schemas schema_cache cursor_execute generate_sql
                                   analyze_discrepancies business_rules q).
Local Abbreviation run_plan := (_execute_plan schemas schema_cache cursor_execute generate_sql
                                  analyze_discrepancies business_rules).

(** The steps of the known agents, with nothing but the agent in them. *)
Lemma execute_steps_stages (ss : list PlanStep) (context : Context) (w : World) :
  run_steps context ss w
  = run_steps context (map (fun a => mkPlanStep a "" "" []) (stages ss)) w.
Proof.
  revert context w. induction ss as [|step ss IH]; intros context w; [done|].
  unfold stages. cbn [map List.filter]. fold (stages ss).
  destruct (PyStr.mem (agent step) ["schema"; "query"; "discrepancy"]) eqn:Hk.
  - cbn [map execute_steps]. unfold mbind, M_bind.
    rewrite (execute_step_agent_only schemas schema_cache cursor_execute generate_sql
               analyze_discrepancies business_rules q context step
               (mkPlanStep (agent step) "" "" []) eq_refl).
    destruct (run_step context (mkPlanStep (agent step) "" "" []) w) as [[c|e] w1]; [|done].
    apply IH.
  - cbn [execute_steps]. unfold mbind, M_bind.
    unfold execute_step. unfold PyStr.mem in Hk. cbn [existsb] in Hk.
    rewrite !orb_false_iff in Hk. destruct Hk as (-> & -> & -> & _). apply IH.
Qed.

(** X25: the run of a plan depends on the plan only through the sequence
    of its steps for the agents [schema], [query] and [discrepancy]: the
    steps of other agents are passed over, and the action, the description
    and the parameters of a step are not looked at. Two plans with the
    same such sequence give the same outcome and leave the same memory and
    calls behind, apart from the plan repeated in the result. *)
Theorem execute_plan_stages_only (p1 p2 : Plan) (w : World) :
  stages (steps p1) = stages (steps p2) ->
  apart_from_plan (run_plan p1 q w) = apart_from_plan (run_plan p2 q w).
Proof.
  intros Hs. unfold _execute_plan, mbind, M_bind.
  rewrite (execute_steps_stages (steps p1)), (execute_steps_stages (steps p2)), Hs.
  destruct (run_steps _ _ w) as [[c|e] w1]; reflexivity.
Qed.

End run_facts.

(** A plan with a step for an unknown agent and parameters on its schema
    step, against the plain two steps. *)
Lemma execute_plan_stages_only_witness :
  let p1 := Planner.mkPlan "show orders"
              [ Planner.mkPlanStep "schema" "get_schema_info" "" [("suggested_schema", PStr "HR")];
                Planner.mkPlanStep "report" "print" "" [];
                Planner.mkPlanStep "query" "execute_query" "" [] ] in
  let p2 := Planner.mkPlan "show orders"
              [ Planner.mkPlanStep "schema" "" "" []; Planner.mkPlanStep "query" "" "" [] ] in
  let run := SQLAgent._execute_plan ["SALES"] [] (fun _ => Returned (mkCursor None [] 0))
               (fun _ _ _ => "SELECT 1 FROM dual") (fun _ _ => []) [] in
  Further.apart_from_plan (run p1 "show orders" (mkWorld [] []))
  = Further.apart_from_plan (run p2 "show orders" (mkWorld [] [])).
Proof.
  intros p1 p2 run.
  apply (execute_plan_stages_only ["SALES"] [] (fun _ => Returned (mkCursor None [] 0))
           (fun _ _ _ => "SELECT 1 FROM dual") (fun _ _ => []) [] "show orders" p1 p2
           (mkWorld [] [])).
  reflexivity.
Defined.


Section request_run.

Import Planner SQLAgent Further.

Variable schemas : list string.
Variable schema_cache : dict (dict (list string)).
Variable cursor_execute : string -> outcome Cursor.
Variable generate_sql : string -> option SchemaInfo -> list (string * MemItem) -> string.
Variable analyze_discrepancies : QueryResult -> dict DiscrepancyAgent.Rule -> list pyval.
Variable business_rules : dict DiscrepancyAgent.Rule.

Local Abbreviation run_query := (SQLAgent.query schemas schema_cache cursor_execute generate_sql
                                   analyze_discrepancies business_rules).

Lemma create_plan_stage_list (q : string) :
  stages (steps (create_plan q)) =
  if _query_needs_discrepancy_check q
  then ["schema"; "query"; "discrepancy"]
  else ["schema"; "query"].
Proof.
  unfold stages. rewrite create_plan_agents.
  by destruct (_query_needs_discrepancy_check q).
Qed.

Local Abbreviation run_step := (execute_step schemas schema_cache cursor_execute generate_sql
                                  analyze_discrepancies business_rules).
Local Abbreviation run_steps := (execute_steps schemas schema_cache cursor_execute generate_sql
                                   analyze_discrepancies business_rules).

Lemma execute_steps_cons (q : string) (context : Context) (step : PlanStep)
    (rest : list PlanStep) (w : World) :
  run_steps q context (step :: rest) w
  = match run_step q context step w with
    | (Returned context', w') => run_steps q context' rest w'
    | (Raised e, w') => (Raised e, w')
    end.
Proof. done. Qed.

(** A query step: what it leaves in the context and in the world. *)
Lemma execute_step_query (q : string) (context : Context) (step : PlanStep) (w : World) :
  agent step = "query" ->
  let sql_query := generate_sql q (schema_info context) (memory w) in
  run_step q context step w
  = (Returned (mkContext (user_query context) (suggested_schema context)
                         (suggested_tables context) (schema_info context)
                         (Some match cursor_execute sql_query with
                               | Returned cursor =>
                                   DbUtils.format_oracle_results cursor 100 sql_query
                               | Raised e => QueryError (QueryAgent.describe e) sql_query
                               end)
                         (discrepancies context)),
     mkWorld (memory w ++ (if returned (cursor_execute sql_query)
                           then [("executed_queries", MemExecutedQuery q sql_query)]
                           else []))
             (calls w ++ [CallGenerateSql q; CallCursorExecute sql_query])).
Proof.
  intros H sql_query. unfold execute_step. rewrite H. cbn [String.eqb Ascii.eqb Bool.eqb].
  unfold QueryAgent.execute_query, QueryAgent._generate_sql_query, try_except, log_call,
    raise, mbind, mret, M_bind, M_ret, memory_add.
  cbn [memory calls]. fold sql_query.
  destruct (cursor_execute sql_query); cbn [returned memory calls];
    by rewrite <- app_assoc, ?app_nil_r.
Qed.

(** A discrepancy step leaves the schema selection and the query result
    of the context as they are. *)
Lemma execute_step_discrepancy (q : string) (context : Context) (step : PlanStep) (w : World) :
  agent step = "discrepancy" ->
  forall context' w',
    run_step q context step w = (Returned context', w') ->
    schema_info context' = schema_info context /\
    query_result context' = query_result context.
Proof.
  intros H context' w'. unfold execute_step. rewrite H. cbn [String.eqb Ascii.eqb Bool.eqb].
  unfold mbind, mret, M_bind, M_ret.
  destruct (DiscrepancyAgent.check_discrepancies _ _ _ _ _) as [[ds|e] w1]; [|done].
  by intros [= <- <-].
Qed.

(** A run, as the steps of the plan for the request followed by the
    final addition to the memory. *)
Lemma query_steps (q : string) (w : World) :
  run_query q w
  = match run_steps q (mkContext (Some q) None None None None None)
            (map (fun a => mkPlanStep a "" "" [])
                 (if _query_needs_discrepancy_check q
                  then ["schema"; "query"; "discrepancy"]
                  else ["schema"; "query"]))
            (mkWorld (memory w ++ [("user_queries", MemUserQuery q)]) (calls w)) with
    | (Returned context, w1) =>
        (Returned (mkRunResult (query_result context)
                               (default [] (discrepancies context))
                               (schema_info context ≫= selected_schema)
                               (default [] (selected_tables <$> schema_info context))
                               (to_dict (create_plan q))),
         mkWorld (memory w1 ++ [("query_contexts", MemQueryContext context)]) (calls w1))
    | (Raised e, w1) => (Raised e, w1)
    end.
Proof.
  unfold SQLAgent.query, _execute_plan.
  unfold mbind at 1, M_bind at 1, memory_add at 1.
  unfold mbind at 1, M_bind at 1.
  rewrite execute_steps_stages, create_plan_stage_list.
  by destruct (run_steps _ _ _ _) as [[c|e] w1].
Qed.

(** X26: a request is answered from the schema selection made for it
    without any hint: the statement is generated from this selection and
    the memory as it is then, the result is the formatted cursor or the
    error dictionary of this statement, and the schema and the tables
    reported are those of the selection. A request with no discrepancy
    keyword always gets a result, with no discrepancies, after one
    execution; the memory grows by the request, the selection, the
    executed statement if the execution returned, and the final
    context. *)
Theorem query_outcome (q : string) (w : World) :
  let context := mkContext (Some q) None None None None None in
  let info := SchemaAgent.schema_selection schemas schema_cache q context in
  let memory1 := memory w ++ [("user_queries", MemUserQuery q);
                              ("schema_selections", MemSchemaSelection info)] in
  let sql_query := generate_sql q (Some info) memory1 in
  let qr := match cursor_execute sql_query with
            | Returned cursor => DbUtils.format_oracle_results cursor 100 sql_query
            | Raised e => QueryError (QueryAgent.describe e) sql_query
            end in
  (forall r w',
     run_query q w = (Returned r, w') ->
     result r = Some qr /\
     schema_used r = selected_schema info /\
     tables_used r = selected_tables info /\
     plan r = to_dict (create_plan q)) /\
  (_query_needs_discrepancy_check q = false ->
   exists r w',
     run_query q w = (Returned r, w') /\
     result_discrepancies r = [] /\
     calls w' = calls w ++ [CallGenerateSql q; CallCursorExecute sql_query] /\
     map fst (memory w')
     = map fst memory1
       ++ (if returned (cursor_execute sql_query) then ["executed_queries"] else [])
       ++ ["query_contexts"]).
Proof.
  intros context info memory1 sql_query qr.
  rewrite query_steps. fold context.
  set (w0 := mkWorld (memory w ++ [("user_queries", MemUserQuery q)]) (calls w)).
  assert (Hsteps : run_steps q context
                     (map (fun a => mkPlanStep a "" "" []) ["schema"; "query"]) w0
                   = (Returned (mkContext (Some q) None None (Some info) (Some qr) None),
                      mkWorld (memory1 ++ (if returned (cursor_execute sql_query)
                                           then [("executed_queries",
                                                  MemExecutedQuery q sql_query)]
                                           else []))
                              (calls w ++ [CallGenerateSql q; CallCursorExecute sql_query]))).
  { cbn [map]. rewrite execute_steps_cons.
    rewrite (execute_step_schema schemas schema_cache cursor_execute generate_sql
               analyze_discrepancies business_rules q context
               (mkPlanStep "schema" "" "" []) w0 eq_refl).
    cbv zeta. fold info. rewrite execute_steps_cons, execute_step_query by done.
    cbv zeta. cbn [schema_info memory calls user_query suggested_schema suggested_tables
                   query_result discrepancies w0 execute_steps].
    unfold w0. cbn [memory calls]. rewrite <- app_assoc. cbn [app]. fold memory1 sql_query qr.
    reflexivity. }
  destruct (_query_needs_discrepancy_check q).
  - split; [|done]. intros r w'.
    change (map (fun a => mkPlanStep a "" "" []) ["schema"; "query"; "discrepancy"])
      with (map (fun a => mkPlanStep a "" "" []) ["schema"; "query"]
            ++ [mkPlanStep "discrepancy" "" "" []]).
    cbn [map app]. cbn [map] in Hsteps.
    rewrite execute_steps_cons.
    rewrite execute_steps_cons in Hsteps.
    destruct (run_step q context (mkPlanStep "schema" "" "" []) w0) as [[c1|e1] w1]; [|done].
    rewrite execute_steps_cons.
    rewrite execute_steps_cons in Hsteps.
    destruct (run_step q c1 (mkPlanStep "query" "" "" []) w1) as [[c2|e2] w2]; [|done].
    cbn [execute_steps] in Hsteps. unfold mret, M_ret in Hsteps. injection Hsteps as -> ->.
    rewrite execute_steps_cons.
    match goal with |- context [run_step q ?c ?st ?w2] =>
      pose proof (execute_step_discrepancy q c st w2 eq_refl) as Hd;
      destruct (run_step q c st w2) as [[c3|e3] w3]; [|done]
    end.
    destruct (Hd c3 w3 eq_refl) as [Hi Hq]. cbn [schema_info query_result] in Hi, Hq.
    cbn [execute_steps]. unfold mret, M_ret.
    intros [= <- <-]. cbn [result schema_used tables_used plan]. rewrite Hi, Hq. done.
  - rewrite Hsteps. cbn [memory calls schema_info query_result discrepancies]. split.
    + intros r w' [= <- <-]. done.
    + intros _. eexists _, _. split; [reflexivity|].
      cbn [result_discrepancies discrepancies default memory calls].
      split; [done|]. split; [done|].
      rewrite !map_app, <- app_assoc. by destruct (returned (cursor_execute sql_query)).
Qed.

End request_run.


(** ** Plans that cannot be read back *)

Section plan_errors.

Import Planner.

Lemma step_from_dict_missing (step_data : dict pyval) (key : string) :
  Further.first_missing step_data = Some key ->
  Untyped.step_from_dict (PDict step_data) = Raised (KeyError key).
Proof.
  unfold Further.first_missing, Further.step_keys, dict_mem, Untyped.step_from_dict, getitem,
    mbind, outcome_bind.
  cbn [find].
  destruct (dict_get "agent" step_data); cbn [negb]; [|by intros [= <-]].
  destruct (dict_get "action" step_data); cbn [negb]; [|by intros [= <-]].
  destruct (dict_get "description" step_data); cbn [negb]; [|by intros [= <-]].
  destruct (dict_get "params" step_data); cbn [negb]; [done | by intros [= <-]].
Qed.

Lemma step_from_dict_complete (step_data : dict pyval) :
  Further.first_missing step_data = None ->
  exists step,
    Untyped.step_from_dict (PDict step_data) = Returned step /\
    Further.described step_data step.
Proof.
  unfold Further.first_missing, Further.step_keys, dict_mem, Untyped.step_from_dict, getitem,
    mbind, outcome_bind, Further.described.
  cbn [find].
  destruct (dict_get "agent" step_data) as [a|]; cbn [negb]; [|done].
  destruct (dict_get "action" step_data) as [c|]; cbn [negb]; [|done].
  destruct (dict_get "description" step_data) as [d|]; cbn [negb]; [|done].
  destruct (dict_get "params" step_data) as [p|]; cbn [negb]; [|done].
  intros _. by exists (Untyped.mkPlanStep a c d p).
Qed.

Lemma untyped_steps_complete (ds : list (dict pyval)) (acc : list Untyped.PlanStep) :
  Forall (fun d => Further.first_missing d = None) ds ->
  exists ss,
    Untyped.steps_from_list (map PDict ds) acc = Returned (acc ++ ss) /\
    Forall2 Further.described ds ss.
Proof.
  intros Hds. revert acc. induction Hds as [|d ds Hd _ IH]; intros acc.
  - exists []. by rewrite app_nil_r.
  - destruct (step_from_dict_complete d Hd) as (step & Hstep & Hdesc).
    destruct (IH (acc ++ [step])) as (ss & Hss & Hall).
    exists (step :: ss). cbn [map Untyped.steps_from_list]. rewrite Hstep.
    unfold mbind, outcome_bind. rewrite Hss, <- app_assoc. split; [done|].
    by constructor.
Qed.

Lemma untyped_steps_failing (before : list (dict pyval)) (bad : pyval) (after : list pyval)
    (acc : list Untyped.PlanStep) (e : exn) :
  Forall (fun d => Further.first_missing d = None) before ->
  Untyped.step_from_dict bad = Raised e ->
  Untyped.steps_from_list (map PDict before ++ bad :: after) acc = Raised e.
Proof.
  intros Hbefore Hbad. revert acc. induction Hbefore as [|d ds Hd _ IH]; intros acc.
  - cbn [map app Untyped.steps_from_list]. unfold mbind, outcome_bind. by rewrite Hbad.
  - destruct (step_from_dict_complete d Hd) as (step & Hstep & _).
    cbn [map app Untyped.steps_from_list]. rewrite Hstep. unfold mbind, outcome_bind.
    apply IH.
Qed.

(** Where the fields have the annotated types, the plan read is the plan
    of the typed records. *)
Lemma untyped_steps_typed (l : list pyval) (acc ss : list PlanStep) :
  steps_from_list l acc = Returned ss ->
  Untyped.steps_from_list l (map Further.untyped_step acc)
  = Returned (map Further.untyped_step ss).
Proof.
  revert acc. induction l as [|step_data l IH]; intros acc.
  - cbn [steps_from_list Untyped.steps_from_list]. by intros [= <-].
  - cbn [steps_from_list Untyped.steps_from_list].
    unfold step_from_dict, Untyped.step_from_dict, mbind, outcome_bind.
    destruct (getitem step_data "agent") as [[]|]; try done.
    destruct (getitem step_data "action") as [[]|]; try done.
    destruct (getitem step_data "description") as [[]|]; try done.
    destruct (getitem step_data "params") as [[]|]; try done.
    cbn [as_str as_dict]. unfold mret, outcome_ret. intros Hss.
    apply IH in Hss. by rewrite map_app in Hss.
Qed.

Lemma from_dict_typed (data : pyval) (p : Plan) :
  from_dict data = Returned p ->
  Untyped.from_dict data = Returned (Further.untyped p).
Proof.
  unfold from_dict, Untyped.from_dict, mbind, outcome_bind.
  destruct (getitem data "query") as [[]|]; try done. cbn [as_str].
  destruct (getitem data "steps") as [v|]; [|done].
  destruct (iter_items v) as [items|]; [|done].
  destruct (steps_from_list items []) as [ss|] eqn:Hss; [|done].
  unfold mret, outcome_ret. intros [= <-].
  apply untyped_steps_typed in Hss. cbn [map] in Hss. by rewrite Hss.
Qed.

(** X27: [Plan.from_dict] on a dictionary, the fields holding whatever
    value they are given. Without [query] it raises [KeyError] for
    [query]; with a query of any type and without [steps] it raises
    [KeyError] for [steps]. With a list of dictionaries as steps, it
    raises [KeyError] for the first key among agent, action, description
    and params that the first incomplete dictionary lacks, so for
    [params] too, although a [PlanStep] can be built without them, and no
    plan is returned for the steps before it; when every dictionary has
    the four keys it returns the plan with the query as given and one step
    for each dictionary, in order, with the four values as given. *)
Theorem from_dict_missing_key (data : dict pyval) :
  (dict_get "query" data = None ->
   Untyped.from_dict (PDict data) = Raised (KeyError "query")) /\
  (forall q,
     dict_get "query" data = Some q -> dict_get "steps" data = None ->
     Untyped.from_dict (PDict data) = Raised (KeyError "steps")) /\
  (forall q before bad after key,
     dict_get "query" data = Some q ->
     dict_get "steps" data = Some (PList (map PDict before ++ PDict bad :: after)) ->
     Forall (fun d => Further.first_missing d = None) before ->
     Further.first_missing bad = Some key ->
     Untyped.from_dict (PDict data) = Raised (KeyError key)) /\
  (forall q ds,
     dict_get "query" data = Some q ->
     dict_get "steps" data = Some (PList (map PDict ds)) ->
     Forall (fun d => Further.first_missing d = None) ds ->
     exists p,
       Untyped.from_dict (PDict data) = Returned p /\
       Untyped.query p = q /\
       Forall2 Further.described ds (Untyped.steps p)).
Proof.
  unfold Untyped.from_dict, getitem, mbind, outcome_bind. split; [|split; [|split]].
  - by intros ->.
  - by intros q -> ->.
  - intros q before bad after key -> -> Hbefore Hbad. cbn [iter_items].
    by rewrite (untyped_steps_failing before _ after [] (KeyError key) Hbefore
                  (step_from_dict_missing bad key Hbad)).
  - intros q ds -> -> Hds. cbn [iter_items].
    destruct (untyped_steps_complete ds [] Hds) as (ss & -> & Hall).
    by exists (Untyped.mkPlan q ss).
Qed.

End plan_errors.

(** A query that is a number, and no steps; two steps, the second without
    an action. *)
Lemma from_dict_missing_key_witness :
  Untyped.from_dict (PDict [("query", PInt 5)]) = Raised (KeyError "steps") /\
  Untyped.from_dict
    (PDict [("query", PStr "q");
            ("steps", PList [PDict [("agent", PStr "a"); ("action", PStr "b");
                                    ("description", PStr "c"); ("params", PDict [])];
                             PDict [("agent", PStr "a"); ("description", PStr "c")]])])
  = Raised (KeyError "action").
Proof.
  split.
  - apply (proj1 (proj2 (from_dict_missing_key [("query", PInt 5)])) (PInt 5)); reflexivity.
  - apply (proj1 (proj2 (proj2 (from_dict_missing_key _))) (PStr "q")
             [[("agent", PStr "a"); ("action", PStr "b");
               ("description", PStr "c"); ("params", PDict [])]]
             [("agent", PStr "a"); ("description", PStr "c")] []);
      [reflexivity | reflexivity | by repeat constructor | reflexivity].
Defined.


(** ** The statement made of the answer of the model *)

Section generated_sql.

Import Catalog BedrockAgent Further.

Lemma drop_append (a b : string) : drop (String.length a) (String.append a b) = b.
Proof. induction a as [|c a IH]; [by destruct b | by rewrite append_cons]. Qed.

Lemma remove_first_unfold (old s : string) :
  remove_first old s
  = if PyStr.startswith old s then drop (String.length old) s
    else match s with
         | String c s' => String c (remove_first old s')
         | EmptyString => EmptyString
         end.
Proof. by destruct s. Qed.

Lemma remove_first_prefix (old s : string) : remove_first old (String.append old s) = s.
Proof.
  rewrite remove_first_unfold.
  rewrite (proj2 (startswith_spec old (String.append old s))) by by exists s.
  apply drop_append.
Qed.

Lemma endswith_append (a p : string) : endswith p (String.append a p) = true.
Proof.
  unfold endswith. rewrite append_length.
  replace (String.length a + String.length p - String.length p)%nat
    with (String.length a) by lia.
  rewrite drop_append, String.eqb_refl, andb_true_r. apply Nat.leb_le. lia.
Qed.

Lemma rstrip_append_space (s : string) (c : ascii) :
  is_space c = true -> rstrip (String.append s (String c "")) = rstrip s.
Proof.
  intros Hc. induction s as [|x s IH].
  - change (rstrip (String.append "" (String c "")))
      with (if is_space c then "" else String c "").
    by rewrite Hc.
  - rewrite append_cons. cbn [rstrip]. by rewrite IH.
Qed.

Lemma lstrip_keeps (s rest : string) :
  s <> "" -> lstrip s = s -> lstrip (String.append s rest) = String.append s rest.
Proof.
  destruct s as [|c s]; [done|]. intros _. rewrite append_cons. cbn [lstrip].
  destruct (is_space c) eqn:Hc; [|done]. intros H. exfalso.
  assert (Hlen : forall t, (String.length (lstrip t) <= String.length t)%nat).
  { induction t as [|x t IHt]; cbn [lstrip]; [done|].
    destruct (is_space x); cbn [String.length]; lia. }
  specialize (Hlen s). rewrite H in Hlen. cbn [String.length] in Hlen. lia.
Qed.

(** A trimmed statement between two line feeds. *)
Lemma strip_lines (sql : string) :
  trimmed sql -> strip (String.append nl (String.append sql nl)) = sql.
Proof.
  intros [Hl Hr]. unfold strip, nl at 1. rewrite append_cons. cbn [lstrip].
  change (is_space (ascii_of_nat 10)) with true. cbn iota.
  change (String.append "" (String.append sql nl)) with (String.append sql nl).
  destruct sql as [|c sql]; [done|].
  rewrite lstrip_keeps by done. unfold nl. by rewrite rstrip_append_space.
Qed.

Lemma take_fence (a : string) :
  PyStr.take (String.length (String.append a fence) - 3) (String.append a fence) = a.
Proof. apply (take_append a fence). Qed.

(** X28: [generate_sql] returns a statement whatever the model does. When
    the call of the model raises, it is the statement selecting the text
    of the exception from [dual]. When the model answers with a statement
    in a code fence, with or without the language [sql], on lines of its
    own, it is the statement; and an answer that does not begin with a
    fence is returned with the white space at its ends removed. *)
Theorem generate_sql_answer (llm_invoke : string -> outcome string)
    (user_query : string) (schema_info : option SchemaInfo) (examples : list (dict string)) :
  let prompt := sql_prompt user_query schema_info examples in
  let answer := generate_sql llm_invoke user_query schema_info examples in
  (forall e,
     llm_invoke prompt = Raised e ->
     answer = String.concat "" ["SELECT 'Error generating query: "; QueryAgent.describe e;
                                "' FROM dual"]) /\
  (forall sql,
     trimmed sql ->
     llm_invoke prompt = Returned (String.concat "" ["```sql"; nl; sql; nl; "```"]) \/
     llm_invoke prompt = Returned (String.concat "" ["```"; nl; sql; nl; "```"]) ->
     answer = sql) /\
  (forall content,
     llm_invoke prompt = Returned content ->
     PyStr.startswith "```" content = false ->
     answer = strip content).
Proof.
  intros prompt answer. unfold answer, generate_sql. fold prompt. split; [|split].
  - by intros e ->.
  - intros sql Hsql [-> | ->].
    + assert (Hc : String.concat "" ["```sql"; nl; sql; nl; "```"]
                   = String.append (String.append fence "sql")
                       (String.append (String.append nl (String.append sql nl)) fence)).
      { cbn [String.concat]. unfold fence. by rewrite !append_assoc, ?append_empty_r. }
      rewrite Hc. unfold unfenced.
      rewrite (proj2 (startswith_spec _ _)) by by eexists.
      rewrite remove_first_prefix, endswith_append, take_fence. by apply strip_lines.
    + assert (Hc : String.concat "" ["```"; nl; sql; nl; "```"]
                   = String.append fence
                       (String.append (String.append nl (String.append sql nl)) fence)).
      { cbn [String.concat]. unfold fence. by rewrite !append_assoc, ?append_empty_r. }
      rewrite Hc. unfold unfenced.
      assert (Hno : PyStr.startswith (String.append fence "sql")
                      (String.append fence
                         (String.append (String.append nl (String.append sql nl)) fence))
                    = false) by reflexivity.
      rewrite Hno.
      rewrite (proj2 (startswith_spec fence _)) by by eexists.
      rewrite remove_first_prefix, endswith_append, take_fence. by apply strip_lines.
  - intros content -> Hno. unfold unfenced. fold fence in Hno.
    assert (Hsql : PyStr.startswith (String.append fence "sql") content = false).
    { apply not_true_is_false. intros [post ->]%startswith_spec.
      rewrite append_assoc in Hno.
      by rewrite (proj2 (startswith_spec fence _)) in Hno by by eexists. }
    by rewrite Hsql, Hno.
Qed.

End generated_sql.

(** A model that answers in a fence. *)
Lemma generate_sql_answer_witness :
  BedrockAgent.generate_sql
    (fun _ => Returned (String.concat "" ["```sql"; Catalog.nl; "SELECT 1 FROM dual";
                                          Catalog.nl; "```"]))
    "one" None []
  = "SELECT 1 FROM dual".
Proof.
  apply (proj1 (proj2 (generate_sql_answer
                         (fun _ => Returned (String.concat "" ["```sql"; Catalog.nl;
                                                              "SELECT 1 FROM dual";
                                                              Catalog.nl; "```"]))
                         "one" None []))); [by split | by left].
Defined.




(** ** The analysis asked of the model *)

Section analysis_facts.

Import DiscrepancyAgent BedrockAgent.

Variable llm_invoke : string -> outcome string.
Variable rows_text : list row -> string.
Variable rules_text : dict Rule -> string.
Variable json_loads : string -> outcome pyval.
Variable cursor_execute : string -> outcome Cursor.

Local Abbreviation analyze :=
  (analyze_discrepancies llm_invoke rows_text rules_text json_loads).






End analysis_facts.


(** An analysis that raises, over one row and one rule. *)
Lemma check_discrepancies_outcome_witness :
  let rules := [("orphans", DiscrepancyAgent.mkRule None (Some "SELECT 1 FROM orphans")
                              None None None None)] in
  let qr := QueryData ["ID"; "NAME"] [[("ID", CInt 1); ("NAME", CNone)]]
                      1 false 1 "SELECT ID, NAME FROM T" in
  let context := mkContext None None None None (Some qr) None in
  exists w',
    Propagating.check_discrepancies
      (fun _ => Raised (Exception "ORA-00942: table or view does not exist"))
      (Some (fun _ _ => Raised (Exception "ThrottlingException")))
      rules context (mkWorld [] [])
    = (Raised (Exception "ThrottlingException"), w') /\
    memory w' = [] /\
    (forall c, In c (calls w') -> In c [] \/ c = CallAnalyzeDiscrepancies).
Proof.
  intros rules qr context.
  apply (check_discrepancies_outcome
           (fun _ => Raised (Exception "ORA-00942: table or view does not exist"))
           (Some (fun _ _ => Raised (Exception "ThrottlingException")))
           rules context qr (mkWorld [] [])); done.
Defined.



(** A rule registered as [orphans] whose statement returns one row. *)
Lemma rule_query_records_witness :
  let rule := DiscrepancyAgent.mkRule None (Some "SELECT ID FROM orphans") None (Some "high")
                                      None None in
  let cursor_execute := fun _ : string => Returned (mkCursor (Some ["ID"]) [[CInt 7]] 1) in
  exists ds w',
    DiscrepancyAgent.apply_rule cursor_execute [] "orphans" rule (mkWorld [] [])
    = (Returned ds, w') /\
    memory w' = [] /\
    calls w' = [CallRuleCheck "orphans"; CallCursorExecute "SELECT ID FROM orphans"] /\
    length ds = 1%nat /\
    forall i v,
      ds !! i = Some v ->
      Further.record_field "type" v = Some (PStr "business_rule") /\
      Further.record_field "severity" v = Some (PStr "high") /\
      Further.record_field "rule_name" v = Some (PStr "unnamed") /\
      exists cells,
        [[CInt 7]] !! i = Some cells /\
        Further.record_field "details" v
        = Some (DiscrepancyAgent.row_to_py (dict_zip ["ID"] cells)).
Proof.
  intros rule cursor_execute.
  apply (rule_query_records cursor_execute [] "orphans" rule "SELECT ID FROM orphans"
           (mkWorld [] [])); [|done|done|done].
  cbn. intros [H | [H | []]]; discriminate.
Defined.
